(** * django-moderation: the moderation manager of [moderation/__init__.py]

    A shallow embedding of [GenericModerator] and [ModerationManager]
    (registration, the [pre_save] and [post_save] signal handlers) over an
    explicit model of what the handlers touch: the registry dictionary, the
    attributes of the model classes, the signal receivers, the table of the
    moderated model, the table of [ModeratedObject] rows and the mail outbox.
    Python exceptions are results of an error-and-state monad. *)

From stdpp Require Import gmap strings list fin_maps.

Open Scope Z_scope.
Open Scope string_scope.

(** ** Data *)

(** A model class is identified by its name. *)
Definition model_class : Type := string.

(** Python values stored in the fields of a model instance. *)
Inductive value : Type :=
| VNone
| VInt (z : Z)
| VStr (s : string).

#[global] Instance value_eq_dec : EqDecision value.
Proof. solve_decision. Defined.

(** A model instance: its class, its primary key ([None] while unsaved) and
    the values of the other fields of [_meta.fields], by name.  The models
    are plain ones ([_meta.parents] is empty: no multi-table inheritance). *)
Record Instance : Type := mkInstance {
  i_class : model_class;
  i_pk : option Z;
  i_fields : list (string * value)
}.

#[global] Instance Instance_eq_dec : EqDecision Instance.
Proof. solve_decision. Defined.

(** [if instance.pk:] -- Python truthiness of a primary key. *)
Definition pk_truthy (pk : option Z) : bool :=
  match pk with
  | Some k => negb (k =? 0)%Z
  | None => false
  end.

Inductive status : Type :=
| MODERATION_STATUS_PENDING
| MODERATION_STATUS_APPROVED
| MODERATION_STATUS_REJECTED.

#[global] Instance status_eq_dec : EqDecision status.
Proof. solve_decision. Defined.

(** A row of the [ModeratedObject] table. *)
Record MORow : Type := mkMORow {
  content_type : model_class;
  object_pk : option Z;
  moderation_status : status;
  changed_object : Instance
}.

#[global] Instance MORow_eq_dec : EqDecision MORow.
Proof. solve_decision. Defined.

(** A [ModeratedObject] in memory: the row and its own primary key, [None]
    until the object has been saved once. *)
Record ModeratedObject : Type := mkMO {
  mo_id : option nat;
  mo_row : MORow
}.

Definition set_changed_object (m : ModeratedObject) (o : Instance) : ModeratedObject :=
  {| mo_id := mo_id m;
     mo_row := {| content_type := content_type (mo_row m);
                  object_pk := object_pk (mo_row m);
                  moderation_status := moderation_status (mo_row m);
                  changed_object := o |} |}.

Definition set_moderation_status (m : ModeratedObject) (s : status) : ModeratedObject :=
  {| mo_id := mo_id m;
     mo_row := {| content_type := content_type (mo_row m);
                  object_pk := object_pk (mo_row m);
                  moderation_status := s;
                  changed_object := changed_object (mo_row m) |} |}.

(** Manager classes: Django's [Manager], a manager class of the project, and
    the class that [moderation_manager_class()(mgr_class)] builds on a base. *)
Inductive manager_class : Type :=
| Manager
| CustomManager (name : string)
| ModerationObjectsManager (base : manager_class).

(** What a model class attribute holds. *)
Inductive class_attr : Type :=
| AManager (c : manager_class)
| AGenericRelation
| AProperty.

(** [GenericModerator] and its subclasses: the class attributes, and whether
    the class derives from [GenericModerator] at all. *)
Record moderator_class : Type := mkModeratorClass {
  subclasses_GenericModerator : bool;
  manager_names : list string;
  auto_approve_for_staff : bool;
  auto_approve_for_groups : option (list string);
  auto_reject_for_groups : option (list string);
  notify_moderator : bool;
  notify_user : bool;
  subject_template_moderator : string;
  message_template_moderator : string;
  subject_template_user : string;
  message_template_user : string
}.

Definition GenericModerator : moderator_class :=
  {| subclasses_GenericModerator := true;
     manager_names := ["objects"];
     auto_approve_for_staff := true;
     auto_approve_for_groups := None;
     auto_reject_for_groups := None;
     notify_moderator := true;
     notify_user := true;
     subject_template_moderator := "moderation/notification_subject_moderator.txt";
     message_template_moderator := "moderation/notification_message_moderator.txt";
     subject_template_user := "moderation/notification_subject_user.txt";
     message_template_user := "moderation/notification_message_user.txt" |}.

(** An instance of a moderator class, as [__init__] builds it. *)
Record moderator : Type := mkModerator {
  m_class : moderator_class;
  m_model_class : model_class;
  base_managers : list (string * manager_class)
}.

(** A mail handed to [send_mail]. *)
Record Mail : Type := mkMail {
  mail_subject_template : string;
  mail_message_template : string;
  mail_recipient_list : list string;
  mail_content_object : Instance;
  mail_moderated_object : MORow
}.

(** ** The world the manager runs in *)

Record World : Type := mkWorld {
  _registered_models : gmap model_class moderator;
  class_attrs : gmap (model_class * string) class_attr;
  pre_save_receivers : gset model_class;
  post_save_receivers : gset model_class;
  db_table : gmap (model_class * Z) (list (string * value));
  moderated_objects : gmap nat MORow;
  MODERATORS : list string;
  outbox : list Mail;
  (* instrumentation: calls of ModeratedObject.save and of inform_moderator *)
  mo_saves : nat;
  informed : list Instance
}.

Definition with_registered_models (f : gmap model_class moderator -> gmap model_class moderator)
    (w : World) : World :=
  mkWorld (f (_registered_models w)) (class_attrs w) (pre_save_receivers w)
          (post_save_receivers w) (db_table w) (moderated_objects w) (MODERATORS w)
          (outbox w) (mo_saves w) (informed w).

Definition with_class_attrs (f : gmap (model_class * string) class_attr -> gmap (model_class * string) class_attr)
    (w : World) : World :=
  mkWorld (_registered_models w) (f (class_attrs w)) (pre_save_receivers w)
          (post_save_receivers w) (db_table w) (moderated_objects w) (MODERATORS w)
          (outbox w) (mo_saves w) (informed w).

Definition with_receivers (f g : gset model_class -> gset model_class) (w : World) : World :=
  mkWorld (_registered_models w) (class_attrs w) (f (pre_save_receivers w))
          (g (post_save_receivers w)) (db_table w) (moderated_objects w) (MODERATORS w)
          (outbox w) (mo_saves w) (informed w).

Definition with_db_table (f : gmap (model_class * Z) (list (string * value)) -> gmap (model_class * Z) (list (string * value)))
    (w : World) : World :=
  mkWorld (_registered_models w) (class_attrs w) (pre_save_receivers w)
          (post_save_receivers w) (f (db_table w)) (moderated_objects w) (MODERATORS w)
          (outbox w) (mo_saves w) (informed w).

Definition with_moderated_objects (f : gmap nat MORow -> gmap nat MORow) (w : World) : World :=
  mkWorld (_registered_models w) (class_attrs w) (pre_save_receivers w)
          (post_save_receivers w) (db_table w) (f (moderated_objects w)) (MODERATORS w)
          (outbox w) (mo_saves w) (informed w).

Definition count_mo_save (w : World) : World :=
  mkWorld (_registered_models w) (class_attrs w) (pre_save_receivers w)
          (post_save_receivers w) (db_table w) (moderated_objects w) (MODERATORS w)
          (outbox w) (S (mo_saves w)) (informed w).

Definition with_outbox (m : Mail) (w : World) : World :=
  mkWorld (_registered_models w) (class_attrs w) (pre_save_receivers w)
          (post_save_receivers w) (db_table w) (moderated_objects w) (MODERATORS w)
          (outbox w ++ [m]) (mo_saves w) (informed w).

Definition with_informed (i : Instance) (w : World) : World :=
  mkWorld (_registered_models w) (class_attrs w) (pre_save_receivers w)
          (post_save_receivers w) (db_table w) (moderated_objects w) (MODERATORS w)
          (outbox w) (mo_saves w) (informed w ++ [i]).

(** ** Exceptions and the monad *)

Inductive exn : Type :=
| RegistrationError
| AttributeError
| KeyError
| ObjectDoesNotExist
| MultipleObjectsReturned.

(** The outcome of a call: a value, a raised exception, or a run cut short
    because the bound on nested [save] calls was reached. *)
Inductive outcome (A : Type) : Type :=
| Ok (a : A)
| Raise (e : exn)
| OutOfFuel.
Arguments Ok {A} a.
Arguments Raise {A} e.
Arguments OutOfFuel {A}.

Definition M (A : Type) : Type := World -> outcome A * World.

Definition ret {A} (a : A) : M A := fun w => (Ok a, w).
Definition raise {A} (e : exn) : M A := fun w => (Raise e, w).
Definition bind {A B} (m : M A) (k : A -> M B) : M B :=
  fun w => match m w with
           | (Ok a, w') => k a w'
           | (Raise e, w') => (Raise e, w')
           | (OutOfFuel, w') => (OutOfFuel, w')
           end.
Definition gets {A} (f : World -> A) : M A := fun w => (Ok (f w), w).
Definition modify (f : World -> World) : M unit := fun w => (Ok tt, f w).

(** [try: m except ObjectDoesNotExist: h] *)
Definition try_except_ObjectDoesNotExist {A} (m : M A) (h : M A) : M A :=
  fun w => match m w with
           | (Raise ObjectDoesNotExist, w') => h w'
           | r => r
           end.

Declare Scope monad_scope.
Delimit Scope monad_scope with monad.
Notation "x <- m ;; k" := (bind m (fun x => k))
  (at level 100, m at next level, right associativity) : monad_scope.
Notation "m ;;; k" := (bind m (fun _ => k))
  (at level 100, right associativity) : monad_scope.
Open Scope monad_scope.

(** ** The persistence layer the manager is written against *)

Definition row_instance (cls : model_class) (k : Z) (fs : list (string * value)) : Instance :=
  {| i_class := cls; i_pk := Some k; i_fields := fs |}.

(** [model_class._default_manager.get(pk=pk)]: the row of the model's table
    with that primary key. *)
Definition default_manager_get (cls : model_class) (pk : option Z) : M Instance :=
  fun w =>
    match pk with
    | Some k =>
        match db_table w !! (cls, k) with
        | Some fs => (Ok (row_instance cls k fs), w)
        | None => (Raise ObjectDoesNotExist, w)
        end
    | None => (Raise ObjectDoesNotExist, w)
    end.

(** [QuerySet.get()] over the [ModeratedObject] rows selected by [P]:
    exactly one row, or an exception. *)
Definition rows_where (P : MORow -> Prop) `{!forall r, Decision (P r)}
    (t : gmap nat MORow) : list (nat * MORow) :=
  map_to_list (filter (fun ir => P ir.2) t).

Definition queryset_get (P : MORow -> Prop) `{!forall r, Decision (P r)} : M ModeratedObject :=
  fun w =>
    match rows_where P (moderated_objects w) with
    | [] => (Raise ObjectDoesNotExist, w)
    | [(i, r)] => (Ok {| mo_id := Some i; mo_row := r |}, w)
    | _ :: _ :: _ => (Raise MultipleObjectsReturned, w)
    end.

(** [ModeratedObject.objects.get(object_pk=pk)] *)
Definition objects_get (pk : option Z) : M ModeratedObject :=
  queryset_get (fun r => object_pk r = pk).

(** A record of the instance [(cls, k)] that is not Approved and holds the
    values [fs] as its snapshot: [fs] are values written for the instance
    and not approved. *)
Definition holds_unapproved (cls : model_class) (k : Z) (fs : list (string * value))
    (r : MORow) : Prop :=
  content_type r = cls /\ object_pk r = Some k
  /\ moderation_status r <> MODERATION_STATUS_APPROVED
  /\ i_fields (changed_object r) = fs.

#[global] Instance holds_unapproved_dec cls k fs r : Decision (holds_unapproved cls k fs r).
Proof. unfold holds_unapproved. apply _. Defined.

(** Modelled from the spec: the Visibility Gateway (moderation/managers.py,
    the class that [_and_fields_to_model_class] instantiates under the
    manager names) is not among the sources.  By the spec the moderated
    read "returns records as they exist in underlying storage", and
    moderated reads "never expose a pendingSnapshot's values before
    Approve" (4.3); a read gives "the initial absent state" or approved
    values, "never a value that was written but not yet approved" (8).  So
    the read gives the row of the table, and gives nothing for a row whose
    values a record of the instance that is not Approved holds as its
    snapshot.  (In the scenario of the spec an Approved X that is edited is
    still read as X while the record is Pending with the edit: the row is
    read when the snapshot of the record differs from it.)  The handlers do
    not read through this manager but through [_default_manager], see
    [default_manager_get]. *)
Definition moderated_read (cls : model_class) (k : Z) (w : World)
    : option (list (string * value)) :=
  match db_table w !! (cls, k) with
  | Some fs =>
      match rows_where (holds_unapproved cls k fs) (moderated_objects w) with
      | [] => Some fs
      | _ :: _ => None
      end
  | None => None
  end.

(** Modelled from the spec: the class [ModeratedObject] (moderation/models.py)
    is not among the sources.  [ModeratedObject(content_object=o)] is a new,
    unsaved record that refers to [o]; by the spec a record starts Pending
    and its snapshot holds the values of [o]. *)
Definition ModeratedObject_new (content_object : Instance) : ModeratedObject :=
  {| mo_id := None;
     mo_row := {| content_type := i_class content_object;
                  object_pk := i_pk content_object;
                  moderation_status := MODERATION_STATUS_PENDING;
                  changed_object := content_object |} |}.

(** Modelled from the spec: [ModeratedObject.save] (moderation/models.py) is
    not among the sources; by the spec the record store is durable storage
    of the records and a save is one storage write.  A row is inserted under
    a new id when the object has none, else the row with its id is
    written. *)
Definition ModeratedObject_save (m : ModeratedObject) : M unit :=
  modify (fun w =>
    count_mo_save
      (with_moderated_objects
         (fun t => match mo_id m with
                   | Some i => <[i := mo_row m]> t
                   | None => <[fresh (dom t) := mo_row m]> t
                   end) w)).

(** Modelled from the spec: [ModeratedObject._is_not_equal_instance]
    (moderation/models.py) is not among the sources; by the spec the
    snapshot and the instance are compared by field-wise equality. *)
Definition _is_not_equal_instance (m : ModeratedObject) (instance : Instance) : bool :=
  bool_decide (i_fields (changed_object (mo_row m)) <> i_fields instance).

(** [content_object.moderated_object]: the property that
    [_add_moderated_object_to_class] puts on the class, which reads the
    generic relation [_moderated_object] with [get()]. *)
Definition moderated_object_property (content_object : Instance) : M ModeratedObject :=
  attrs <- gets class_attrs ;;
  match attrs !! (i_class content_object, "moderated_object"),
        attrs !! (i_class content_object, "_moderated_object") with
  | Some _, Some _ =>
      queryset_get (fun r => content_type r = i_class content_object
                             /\ object_pk r = i_pk content_object)
  | _, _ => raise AttributeError
  end.

(** ** GenericModerator *)

(** [_get_base_manager] *)
Definition _get_base_manager (cls : model_class) (manager_name : string) : M manager_class :=
  attrs <- gets class_attrs ;;
  match attrs !! (cls, manager_name) with
  | Some (AManager c) => ret c
  | Some AGenericRelation => ret (CustomManager "GenericRelation")
  | Some AProperty => ret (CustomManager "property")
  | None => ret Manager
  end.

(** [_get_base_managers] *)
Fixpoint _get_base_managers (cls : model_class) (names : list string)
    : M (list (string * manager_class)) :=
  match names with
  | [] => ret []
  | manager_name :: rest =>
      c <- _get_base_manager cls manager_name ;;
      l <- _get_base_managers cls rest ;;
      ret ((manager_name, c) :: l)
  end.

(** [GenericModerator.__init__] *)
Definition moderator_init (mc : moderator_class) (cls : model_class) : M moderator :=
  bm <- _get_base_managers cls (manager_names mc) ;;
  ret {| m_class := mc; m_model_class := cls; base_managers := bm |}.

(** [send]: the context is built (which reads
    [content_object.moderated_object]), the templates are rendered and the
    mail is handed over. *)
Definition send (content_object : Instance) (subject_template message_template : string)
    (recipient_list : list string) : M unit :=
  mo <- moderated_object_property content_object ;;
  modify (with_outbox {| mail_subject_template := subject_template;
                         mail_message_template := message_template;
                         mail_recipient_list := recipient_list;
                         mail_content_object := content_object;
                         mail_moderated_object := mo_row mo |}).

(** [inform_moderator] *)
Definition inform_moderator (self : moderator) (content_object : Instance) : M unit :=
  modify (with_informed content_object) ;;;
  recipients <- gets MODERATORS ;;
  if notify_moderator (m_class self)
  then send content_object (subject_template_moderator (m_class self))
            (message_template_moderator (m_class self)) recipients
  else ret tt.

(** ** ModerationManager *)

(** [model_class.add_to_class(name, value)] and [delattr(model_class, name)] *)
Definition add_to_class (cls : model_class) (name : string) (a : class_attr) : M unit :=
  modify (with_class_attrs <[(cls, name) := a]>).

Definition delattr (cls : model_class) (name : string) : M unit :=
  attrs <- gets class_attrs ;;
  match attrs !! (cls, name) with
  | Some _ => modify (with_class_attrs (delete (cls, name)))
  | None => raise AttributeError
  end.

(** [self._registered_models[sender]] *)
Definition registered_models_getitem (sender : model_class) : M moderator :=
  reg <- gets _registered_models ;;
  match reg !! sender with
  | Some m => ret m
  | None => raise KeyError
  end.

(** [_connect_signals] and [_disconnect_signals] *)
Definition _connect_signals (cls : model_class) : M unit :=
  modify (with_receivers (union {[cls]}) (union {[cls]})).

Definition _disconnect_signals (cls : model_class) : M unit :=
  modify (with_receivers (fun s => s ∖ {[cls]}) (fun s => s ∖ {[cls]})).

(** [_add_moderated_object_to_class] *)
Definition _add_moderated_object_to_class (cls : model_class) : M unit :=
  add_to_class cls "_moderated_object" AGenericRelation ;;;
  add_to_class cls "moderated_object" AProperty.

(** The loop of [_and_fields_to_model_class] over [base_managers]. *)
Fixpoint add_managers (cls : model_class) (bms : list (string * manager_class)) : M unit :=
  match bms with
  | [] => ret tt
  | (manager_name, mgr_class) :: rest =>
      add_to_class cls ("unmoderated_" ++ manager_name) (AManager mgr_class) ;;;
      add_to_class cls manager_name (AManager (ModerationObjectsManager mgr_class)) ;;;
      add_managers cls rest
  end.

(** [_and_fields_to_model_class] *)
Definition _and_fields_to_model_class (moderator_class_instance : moderator) : M unit :=
  let cls := m_model_class moderator_class_instance in
  add_managers cls (base_managers moderator_class_instance) ;;;
  _add_moderated_object_to_class cls.

(** [register] *)
Definition register (cls : model_class) (moderator_class : option moderator_class) : M unit :=
  reg <- gets _registered_models ;;
  if decide (is_Some (reg !! cls)) then raise RegistrationError
  else
    let moderator_class := default GenericModerator moderator_class in
    if negb (subclasses_GenericModerator moderator_class) then raise AttributeError
    else
      mi <- moderator_init moderator_class cls ;;
      modify (with_registered_models <[cls := mi]>) ;;;
      mi' <- registered_models_getitem cls ;;
      _and_fields_to_model_class mi' ;;;
      _connect_signals cls.

(** The loop of [_remove_fields] over [base_managers]. *)
Fixpoint remove_managers (cls : model_class) (bms : list (string * manager_class)) : M unit :=
  match bms with
  | [] => ret tt
  | (manager_name, mgr_class) :: rest =>
      delattr cls ("unmoderated_" ++ manager_name) ;;;
      add_to_class cls manager_name (AManager mgr_class) ;;;
      remove_managers cls rest
  end.

(** [_remove_fields] *)
Definition _remove_fields (moderator_class_instance : moderator) : M unit :=
  let cls := m_model_class moderator_class_instance in
  remove_managers cls (base_managers moderator_class_instance) ;;;
  delattr cls "moderated_object".

(** [unregister] *)
Definition unregister (cls : model_class) : M unit :=
  reg <- gets _registered_models ;;
  match reg !! cls with
  | None => raise RegistrationError
  | Some moderator_instance =>
      modify (with_registered_models (delete cls)) ;;;
      _remove_fields moderator_instance ;;;
      _disconnect_signals cls
  end.

(** [_get_or_create_moderated_object] *)
Definition _get_or_create_moderated_object (instance : Instance) : M ModeratedObject :=
  let pk := i_pk instance in
  unchanged_obj <- default_manager_get (i_class instance) pk ;;
  try_except_ObjectDoesNotExist
    (moderated_object <- objects_get pk ;;
     if _is_not_equal_instance moderated_object instance
     then ret (set_changed_object moderated_object unchanged_obj)
     else ret moderated_object)
    (let moderated_object := ModeratedObject_new unchanged_obj in
     ret (set_changed_object moderated_object unchanged_obj)).

(** [pre_save_handler] *)
Definition pre_save_handler (sender : model_class) (instance : Instance) : M unit :=
  if pk_truthy (i_pk instance)
  then
    moderated_object <- _get_or_create_moderated_object instance ;;
    ModeratedObject_save moderated_object
  else ret tt.

(** [_copy_model_instance]: a new instance of the same class from the values
    of all the fields ([_meta.parents] is empty, nothing is left out). *)
Definition _copy_model_instance (obj : Instance) : Instance :=
  let initial := i_fields obj in
  {| i_class := i_class obj; i_pk := i_pk obj; i_fields := initial |}.

(** [post_save_handler], given what [moderated_object.changed_object.save()]
    runs: the [save] of the model, which sends the signals again. *)
Definition post_save_handler_with (save : Instance -> M unit)
    (sender : model_class) (instance : Instance) (created : bool) : M unit :=
  let pk := i_pk instance in
  moderator_instance <- registered_models_getitem sender ;;
  if created
  then
    old_object <- default_manager_get sender pk ;;
    let moderated_object := ModeratedObject_new old_object in
    ModeratedObject_save moderated_object ;;;
    inform_moderator moderator_instance instance
  else
    moderated_object <- objects_get pk ;;
    if _is_not_equal_instance moderated_object instance
    then
      let copied_instance := _copy_model_instance instance in
      save (changed_object (mo_row moderated_object)) ;;;
      let moderated_object := set_changed_object moderated_object copied_instance in
      let moderated_object :=
        set_moderation_status moderated_object MODERATION_STATUS_PENDING in
      ModeratedObject_save moderated_object ;;;
      inform_moderator moderator_instance instance
    else ret tt.

(** ** Saving an instance of a moderated model *)

(** The next value of the table's automatic primary key. *)
Definition next_pk (cls : model_class) (t : gmap (model_class * Z) (list (string * value))) : Z :=
  Z.succ (foldr Z.max 0 (map (fun kv => snd (fst kv))
                             (filter (fun kv => fst (fst kv) = cls) (map_to_list t)))).

(** The write of [Model.save()] between the two signals: an update when a row
    with the primary key exists, an insert otherwise (under a new key when
    the instance has none).  Gives the instance as it is after the write and
    the [created] flag of the [post_save] signal. *)
Definition save_base_write (instance : Instance) : M (Instance * bool) :=
  t <- gets db_table ;;
  let cls := i_class instance in
  match i_pk instance with
  | Some k =>
      modify (with_db_table <[(cls, k) := i_fields instance]>) ;;;
      ret (instance, bool_decide (t !! (cls, k) = None))
  | None =>
      let k := next_pk cls t in
      modify (with_db_table <[(cls, k) := i_fields instance]>) ;;;
      ret (row_instance cls k (i_fields instance), true)
  end.

(** [instance.save()]: [pre_save] is sent to the receivers connected for the
    class, the row is written, [post_save] is sent.  [fuel] bounds the depth
    of the saves that the [post_save] handler starts. *)
Fixpoint Model_save (fuel : nat) (instance : Instance) : M unit :=
  match fuel with
  | O => fun w => (OutOfFuel, w)
  | S fuel' =>
      let sender := i_class instance in
      pre <- gets pre_save_receivers ;;
      (if decide (sender ∈ pre) then pre_save_handler sender instance else ret tt) ;;;
      written <- save_base_write instance ;;
      post <- gets post_save_receivers ;;
      if decide (sender ∈ post)
      then post_save_handler_with (Model_save fuel') sender (fst written) (snd written)
      else ret tt
  end.

(** [post_save_handler] *)
Definition post_save_handler (fuel : nat) : model_class -> Instance -> bool -> M unit :=
  post_save_handler_with (Model_save fuel).

(** ** The worlds of a small run *)

Definition empty_world : World :=
  {| _registered_models := ∅; class_attrs := ∅;
     pre_save_receivers := ∅; post_save_receivers := ∅;
     db_table := ∅; moderated_objects := ∅;
     MODERATORS := ["moderator@example.com"]; outbox := [];
     mo_saves := 0; informed := [] |}.

(** The world a computation leaves, and its outcome. *)
Definition exec {A} (m : M A) (w : World) : World := snd (m w).
Definition result {A} (m : M A) (w : World) : outcome A := fst (m w).

Definition page (pk : option Z) (title : string) : Instance :=
  {| i_class := "Page"; i_pk := pk; i_fields := [("title", VStr title)] |}.

(** [Page] is registered; a page is created; it is edited; the same edit is
    saved again. *)
Definition w_registered : World := exec (register "Page" None) empty_world.
Definition w_created : World := exec (Model_save 2 (page None "A")) w_registered.
Definition w_edited : World := exec (Model_save 2 (page (Some 1) "B")) w_created.
Definition w_edited_again : World := exec (Model_save 2 (page (Some 1) "B")) w_edited.

(** ** Auto-approval evaluation *)

(** The acting context of a write and the rules, which are predicates over
    it, allow rules or deny rules. *)
Record acting_context : Type := mkContext {
  is_staff : bool;
  user_groups : list string
}.

Inductive rule : Type :=
| AllowRule (p : acting_context -> bool)
| DenyRule (p : acting_context -> bool).

Definition rule_denies (ctx : acting_context) (r : rule) : bool :=
  match r with DenyRule p => p ctx | AllowRule _ => false end.

Definition rule_allows (ctx : acting_context) (r : rule) : bool :=
  match r with AllowRule p => p ctx | DenyRule _ => false end.

(** Modelled from the spec: the code that evaluates the attributes
    [auto_approve_for_staff], [auto_approve_for_groups] and
    [auto_reject_for_groups] of a moderator is not among the sources.  By the
    spec an ordered list of rules is evaluated against the acting context;
    a deny rule that matches forces Pending whatever else matches, the first
    allow rule that matches (no deny rule matching) gives Approved, and no
    match at all gives Pending. *)
Definition auto_approval_evaluation (rules : list rule) (ctx : acting_context) : status :=
  match find (rule_denies ctx) rules with
  | Some _ => MODERATION_STATUS_PENDING
  | None =>
      match find (rule_allows ctx) rules with
      | Some _ => MODERATION_STATUS_APPROVED
      | None => MODERATION_STATUS_PENDING
      end
  end.

Definition in_groups (gs : option (list string)) (ctx : acting_context) : bool :=
  match gs with
  | Some l => existsb (fun g => bool_decide (g ∈ user_groups ctx)) l
  | None => false
  end.

(** Modelled from the spec: the rule set that the three attributes of a
    moderator class stand for, "belongs to deny-listed group", "is staff",
    "belongs to allow-listed group". *)
Definition rule_set (mc : moderator_class) : list rule :=
  [ DenyRule (in_groups (auto_reject_for_groups mc));
    AllowRule (fun ctx => auto_approve_for_staff mc && is_staff ctx);
    AllowRule (in_groups (auto_approve_for_groups mc)) ].

Definition staff_member : acting_context := {| is_staff := true; user_groups := [] |}.

Definition banned_staff : acting_context := {| is_staff := true; user_groups := ["banned"] |}.
Definition anonymous : acting_context := {| is_staff := false; user_groups := [] |}.

Definition strict_rules : list rule :=
  [ AllowRule is_staff; DenyRule (in_groups (Some ["banned"])) ].

(** ** Well-formed worlds *)

(** Row [i] is the one row of the table [t] that satisfies [P]. *)
Definition sole_record (P : MORow -> Prop) (i : nat) (r : MORow) (t : gmap nat MORow) : Prop :=
  t !! i = Some r /\ P r /\ forall j r', t !! j = Some r' -> P r' -> j = i.

(** The world tracks the instance [(cls, k)]: the class is registered and its
    signals are connected, the row exists, and row [i] of the
    [ModeratedObject] table, [r], is the one record for the primary key; it
    belongs to the class and its snapshot is a snapshot of that instance. *)
Record tracked (cls : model_class) (k : Z) (i : nat) (r : MORow) (w : World) : Prop := {
  tr_registered : is_Some (_registered_models w !! cls);
  tr_pre : cls ∈ pre_save_receivers w;
  tr_post : cls ∈ post_save_receivers w;
  tr_property : is_Some (class_attrs w !! (cls, "moderated_object"));
  tr_relation : is_Some (class_attrs w !! (cls, "_moderated_object"));
  tr_pk : k <> 0;
  tr_row : is_Some (db_table w !! (cls, k));
  tr_record : sole_record (fun r' => object_pk r' = Some k) i r (moderated_objects w);
  tr_content_type : content_type r = cls;
  tr_snapshot_class : i_class (changed_object r) = cls;
  tr_snapshot_pk : i_pk (changed_object r) = Some k
}.

(** The row of a record after an edit of [instance] has been taken in. *)
Definition pending_row (r : MORow) (instance : Instance) : MORow :=
  {| content_type := content_type r;
     object_pk := object_pk r;
     moderation_status := MODERATION_STATUS_PENDING;
     changed_object := instance |}.

(** The row of a record with another snapshot. *)
Definition snapshot_row (r : MORow) (o : Instance) : MORow :=
  {| content_type := content_type r;
     object_pk := object_pk r;
     moderation_status := moderation_status r;
     changed_object := o |}.

(** The mail that [inform_moderator] sends about [instance] under the
    moderator [m] when the record of the instance is [r]. *)
Definition moderator_mail (m : moderator) (recipients : list string) (instance : Instance)
    (r : MORow) : Mail :=
  {| mail_subject_template := subject_template_moderator (m_class m);
     mail_message_template := message_template_moderator (m_class m);
     mail_recipient_list := recipients;
     mail_content_object := instance;
     mail_moderated_object := r |}.

(** Every record refers to a row of the table of its model. *)
Definition records_refer_to_rows (w : World) : Prop :=
  forall i r, moderated_objects w !! i = Some r ->
    exists k, object_pk r = Some k /\ is_Some (db_table w !! (content_type r, k)).

(** No two records for one (model class, primary key) pair. *)
Definition one_record_per_instance (w : World) : Prop :=
  forall i j r r', moderated_objects w !! i = Some r -> moderated_objects w !! j = Some r' ->
    content_type r = content_type r' -> object_pk r = object_pk r' -> i = j.

(** The snapshot of a record carries the primary key the record is filed
    under. *)
Definition snapshots_keep_pk (w : World) : Prop :=
  forall i r, moderated_objects w !! i = Some r -> i_pk (changed_object r) = object_pk r.

Record consistent (w : World) : Prop := {
  cons_rows : records_refer_to_rows w;
  cons_one : one_record_per_instance w;
  cons_pk : snapshots_keep_pk w
}.

(** The class is registered with the manager: it is in the registry, both
    signals are connected and the class has the [moderated_object] property. *)
Record set_up (cls : model_class) (m : moderator) (w : World) : Prop := {
  su_registered : _registered_models w !! cls = Some m;
  su_pre : cls ∈ pre_save_receivers w;
  su_post : cls ∈ post_save_receivers w;
  su_property : is_Some (class_attrs w !! (cls, "moderated_object"));
  su_relation : is_Some (class_attrs w !! (cls, "_moderated_object"))
}.

(** From [w] to [w'] no row of the model tables is lost, and every record
    is still there, for the same instance. *)
Definition extends (w w' : World) : Prop :=
  (forall key, is_Some (db_table w !! key) -> is_Some (db_table w' !! key))
  /\ (forall i r, moderated_objects w !! i = Some r ->
        exists r', moderated_objects w' !! i = Some r'
                   /\ content_type r' = content_type r /\ object_pk r' = object_pk r).

(** A computation that keeps worlds consistent, whatever its outcome. *)
Definition keeps {A} (m : M A) : Prop :=
  forall w o w', consistent w -> m w = (o, w') -> consistent w' /\ extends w w'.

(** A world in which the record filed under the key of [instance], if
    there is exactly one, holds the values of [instance]. *)
Definition snapshot_is (instance : Instance) (w : World) : Prop :=
  forall i r, sole_record (fun r' => object_pk r' = i_pk instance) i r (moderated_objects w) ->
    i_fields (changed_object r) = i_fields instance.

(** ** Runs of writes *)

(** The instances are saved one after the other. *)
Fixpoint save_each (fuel : nat) (instances : list Instance) : M unit :=
  match instances with
  | [] => ret tt
  | instance :: rest => Model_save fuel instance ;;; save_each fuel rest
  end.

(** No value of [vs] repeats the value written just before it ([c] for the
    first), unless that value is [a], the one in the table. *)
Fixpoint no_rewrite (a c : list (string * value)) (vs : list (list (string * value))) : Prop :=
  match vs with
  | [] => True
  | v :: rest => (c = v -> v = a) /\ no_rewrite a v rest
  end.

(** ** The claim about moderated reads, along a run *)

(** The values [v] are an approved snapshot of the instance in [w]. *)
Definition approved_in (cls : model_class) (k : Z) (v : list (string * value)) (w : World) : Prop :=
  exists i r, moderated_objects w !! i = Some r
    /\ content_type r = cls /\ object_pk r = Some k
    /\ moderation_status r = MODERATION_STATUS_APPROVED
    /\ i_fields (changed_object r) = v.

(** Along the successive worlds of a run, a moderated read of the instance
    gives nothing or values that were an approved snapshot in that world or
    in an earlier one. *)
Definition reads_only_approved (cls : model_class) (k : Z) (run : list World) : Prop :=
  forall n w v, run !! n = Some w -> moderated_read cls k w = Some v ->
    exists n' w', (n' <= n)%nat /\ run !! n' = Some w' /\ approved_in cls k v w'.

(** ** Worlds used in the examples *)

Definition record_of (instance : Instance) : MORow :=
  {| content_type := i_class instance;
     object_pk := i_pk instance;
     moderation_status := MODERATION_STATUS_PENDING;
     changed_object := instance |}.

(** The row of a new page has been written, [post_save] has not run yet. *)
Definition w_written : World := exec (save_base_write (page None "A")) w_registered.

(** A write that did not go through [pre_save]: the row is written over
    directly, on top of the pending edit of [w_edited]. *)
Definition w_unhooked : World := exec (save_base_write (page (Some 1) "C")) w_edited.

(** A second creation signal for the page of [w_created]. *)
Definition w_created_twice : World :=
  exec (post_save_handler 2 "Page" (page (Some 1) "A") true) w_created.


(** ** Further definitions: notifying the user, the attributes of a class *)

(** A user, as far as the notifications go. *)
Record User : Type := mkUser {
  email : string
}.

#[global] Instance User_eq_dec : EqDecision User.
Proof. solve_decision. Defined.

(** What a dict given as [extra_context] holds under its keys. *)
Inductive context_value : Type :=
| CUser (u : User)
| CValue (v : value).

#[global] Instance context_value_eq_dec : EqDecision context_value.
Proof. solve_decision. Defined.

(** What a caller passes as [extra_context]: [None]; a dict, which is the
    caller's own object (Python passes the reference, so the caller sees
    what [inform_user] does to it); or an object of a type that has no
    [update] method (a string, a number, a list, a tuple), of which only
    the truth value matters. *)
Inductive extra_context_arg : Type :=
| ExtraNone
| ExtraDict (d : gmap string context_value)
| ExtraOther (truthy : bool).

(** [if extra_context:] -- [None] and the empty dict are false. *)
Definition extra_context_truthy (extra_context : extra_context_arg) : bool :=
  match extra_context with
  | ExtraNone => false
  | ExtraDict d => negb (bool_decide (d = ∅))
  | ExtraOther truthy => truthy
  end.

(** [inform_user].  With the outcome and the world, the function gives the
    caller's [extra_context] object as it is after the call.
    [extra_context.update({'user': user})] is the first thing done when the
    argument is true: it changes the caller's dict in place, and raises
    [AttributeError] for an object without [update]; otherwise the local
    name is bound to a new dict and the caller's object is not touched.
    Only then is [notify_user] read.  The dict that [send] gets is never
    empty, so that [send] does [context.update(extra_context)], which cannot
    fail for a dict; the context only goes to the templates, and what they
    render a [Mail] does not record. *)
Definition inform_user (self : moderator) (content_object : Instance) (user : User)
    (extra_context : extra_context_arg) (w : World)
    : outcome unit * World * extra_context_arg :=
  let notify : M unit :=
    if notify_user (m_class self)
    then send content_object (subject_template_user (m_class self))
              (message_template_user (m_class self)) [email user]
    else ret tt in
  if extra_context_truthy extra_context
  then
    match extra_context with
    | ExtraDict d => (notify w, ExtraDict (<["user" := CUser user]> d))
    | _ => (Raise AttributeError, w, extra_context)
    end
  else (notify w, extra_context).

(** The class that [_get_base_manager] finds for a manager name, given the
    attributes of the classes. *)
Definition base_manager_class (attrs : gmap (model_class * string) class_attr)
    (cls : model_class) (manager_name : string) : manager_class :=
  match attrs !! (cls, manager_name) with
  | Some (AManager c) => c
  | Some AGenericRelation => CustomManager "GenericRelation"
  | Some AProperty => CustomManager "property"
  | None => Manager
  end.

(** The attributes after the loop of [_and_fields_to_model_class], and after
    the loop of [_remove_fields]. *)
Definition managers_added (cls : model_class) (bms : list (string * manager_class))
    (attrs : gmap (model_class * string) class_attr) : gmap (model_class * string) class_attr :=
  foldl (fun t bm => <[(cls, fst bm) := AManager (ModerationObjectsManager (snd bm))]>
                       (<[(cls, "unmoderated_" ++ fst bm) := AManager (snd bm)]> t))
        attrs bms.

Definition managers_removed (cls : model_class) (bms : list (string * manager_class))
    (attrs : gmap (model_class * string) class_attr) : gmap (model_class * string) class_attr :=
  foldl (fun t bm => <[(cls, fst bm) := AManager (snd bm)]>
                       (delete (cls, "unmoderated_" ++ fst bm) t))
        attrs bms.

(** Manager names that do not get in each other's way: none is the
    [unmoderated_] name of another, none is one of the two names that
    [_add_moderated_object_to_class] uses. *)
Definition independent_names (names : list string) : Prop :=
  (forall n n', n ∈ names -> n' ∈ names -> n <> "unmoderated_" ++ n')
  /\ ("moderated_object" ∉ names)
  /\ ("_moderated_object" ∉ names).

(** ** Further example worlds *)

(** A moderator class that does not derive from [GenericModerator]. *)
Definition ForeignModerator : moderator_class :=
  {| subclasses_GenericModerator := false;
     manager_names := ["objects"];
     auto_approve_for_staff := true;
     auto_approve_for_groups := None;
     auto_reject_for_groups := None;
     notify_moderator := true;
     notify_user := true;
     subject_template_moderator := "subject_moderator.txt";
     message_template_moderator := "message_moderator.txt";
     subject_template_user := "subject_user.txt";
     message_template_user := "message_user.txt" |}.

Definition author : User := {| email := "author@example.com" |}.

Definition comment (pk : option Z) (text : string) : Instance :=
  {| i_class := "Comment"; i_pk := pk; i_fields := [("text", VStr text)] |}.

(** Two moderated models, with one instance each: both have primary key 1. *)
Definition w_two_models : World :=
  exec (Model_save 2 (comment None "first"))
       (exec (register "Comment" None) w_created).

(** Rows that were in the table before the class was registered. *)
Definition w_legacy : World :=
  exec (register "Page" None)
       (with_db_table (fun t => <[("Page", 0) := [("title", VStr "Z")]]>
                                  (<[("Page", 7) := [("title", VStr "L")]]> t))
                      empty_world).

(** The class is registered and unregistered again. *)
Definition w_unregistered : World := exec (unregister "Page") w_registered.

(** The class has lost its [unmoderated_objects] attribute. *)
Definition w_broken_class : World :=
  with_class_attrs (delete ("Page", "unmoderated_objects")) w_registered.

(** * Properties *)

(** ** Equations of the monad *)

Lemma bind_Ok {A B} (m : M A) (k : A -> M B) w a w' :
  m w = (Ok a, w') -> bind m k w = k a w'.
Proof. intros E. unfold bind. by rewrite E. Qed.

Lemma bind_Raise {A B} (m : M A) (k : A -> M B) w e w' :
  m w = (Raise e, w') -> bind m k w = (Raise e, w').
Proof. intros E. unfold bind. by rewrite E. Qed.

Lemma bind_gets {A B} (f : World -> A) (k : A -> M B) w :
  bind (gets f) k w = k (f w) w.
Proof. reflexivity. Qed.

Lemma bind_modify {B} (f : World -> World) (k : unit -> M B) w :
  bind (modify f) k w = k tt (f w).
Proof. reflexivity. Qed.

Lemma bind_ret {A B} (a : A) (k : A -> M B) w : bind (ret a) k w = k a w.
Proof. reflexivity. Qed.

Lemma bind_raise {A B} (e : exn) (k : A -> M B) w : bind (raise e) k w = (Raise e, w).
Proof. reflexivity. Qed.

(** ** Registration *)

(** C7.  Registering a model class that is already in the registry raises
    [RegistrationError], and nothing has changed when it does: the registry,
    the attributes of the model classes and the signal receivers (and the
    rest of the world) are those of before the call. *)
Theorem register_twice_raises (cls : model_class) (moderator_class : option moderator_class)
    (w : World) :
  is_Some (_registered_models w !! cls) ->
  register cls moderator_class w = (Raise RegistrationError, w).
Proof.
  intros Hreg. unfold register. rewrite bind_gets.
  destruct (decide (is_Some (_registered_models w !! cls))) as [_ | Hn]; [reflexivity | done].
Qed.

(** A first registration does change the registry, the class and the
    receivers: the frame statement above is not about a no-op. *)
Lemma register_fresh_effect :
  result (register "Page" None) empty_world = Ok tt
  /\ is_Some (_registered_models w_registered !! "Page")
  /\ class_attrs w_registered !! ("Page", "moderated_object") = Some AProperty
  /\ class_attrs w_registered !! ("Page", "objects")
     = Some (AManager (ModerationObjectsManager Manager))
  /\ "Page" ∈ pre_save_receivers w_registered
  /\ "Page" ∈ post_save_receivers w_registered.
Proof. vm_compute. repeat split; eauto; by apply bool_decide_unpack. Qed.

Lemma register_twice_raises_witness :
  is_Some (_registered_models w_registered !! "Page")
  /\ register "Page" (Some GenericModerator) w_registered
     = (Raise RegistrationError, w_registered).
Proof.
  assert (H : is_Some (_registered_models w_registered !! "Page")).
  { vm_compute. eauto. }
  split; [exact H | exact (register_twice_raises "Page" (Some GenericModerator) w_registered H)].
Defined.

(** ** The before-write hook *)

Lemma pre_save_handler_no_pk sender cls v w :
  pre_save_handler sender (mkInstance cls None v) w = (Ok tt, w).
Proof. reflexivity. Qed.

(** ** Auto-approval evaluation *)

Lemma find_none_iff {A} (f : A -> bool) (l : list A) :
  find f l = None <-> Forall (fun x => f x = false) l.
Proof.
  induction l as [| x l IH]; simpl.
  - split; [constructor | done].
  - destruct (f x) eqn:E.
    + split; [done | intros H; inversion H; congruence].
    + rewrite IH. split; [by constructor | intros H; by inversion H].
Qed.

Lemma find_some_of_Exists {A} (f : A -> bool) (l : list A) :
  Exists (fun x => f x = true) l -> exists y, find f l = Some y.
Proof.
  induction 1 as [x l Hx | x l _ IH]; simpl.
  - rewrite Hx. eauto.
  - destruct (f x); eauto.
Qed.

Lemma allow_rule_approves (rules : list rule) (ctx : acting_context) :
  Forall (fun r => rule_denies ctx r = false) rules ->
  Exists (fun r => rule_allows ctx r = true) rules ->
  auto_approval_evaluation rules ctx = MODERATION_STATUS_APPROVED.
Proof.
  intros Hd Ha. unfold auto_approval_evaluation.
  apply find_none_iff in Hd. rewrite Hd.
  destruct (find_some_of_Exists _ _ Ha) as [y ->]. reflexivity.
Qed.

(** C8.  In an auto-approval evaluation a deny rule that matches the acting
    context gives Pending whatever allow rules match and wherever they stand
    in the list (the deny rules are looked at first and end the evaluation),
    and when no rule matches the result is Pending. *)
Theorem deny_rules_force_pending (rules : list rule) (ctx : acting_context) :
  (Exists (fun r => rule_denies ctx r = true) rules ->
   auto_approval_evaluation rules ctx = MODERATION_STATUS_PENDING)
  /\ (Forall (fun r => rule_denies ctx r = false /\ rule_allows ctx r = false) rules ->
      auto_approval_evaluation rules ctx = MODERATION_STATUS_PENDING).
Proof.
  unfold auto_approval_evaluation. split.
  - intros Hd. destruct (find_some_of_Exists _ _ Hd) as [y ->]. reflexivity.
  - intros Hn.
    assert (Hd : find (rule_denies ctx) rules = None).
    { apply find_none_iff. eapply Forall_impl; [exact Hn | by intros r [? ?]]. }
    assert (Ha : find (rule_allows ctx) rules = None).
    { apply find_none_iff. eapply Forall_impl; [exact Hn | by intros r [? ?]]. }
    by rewrite Hd, Ha.
Qed.

Lemma deny_rules_force_pending_witness :
  auto_approval_evaluation strict_rules banned_staff = MODERATION_STATUS_PENDING
  /\ auto_approval_evaluation strict_rules anonymous = MODERATION_STATUS_PENDING
  /\ auto_approval_evaluation strict_rules staff_member = MODERATION_STATUS_APPROVED.
Proof.
  split; [| split].
  - apply (proj1 (deny_rules_force_pending strict_rules banned_staff)).
    apply Exists_cons_tl, Exists_cons_hd. vm_compute. reflexivity.
  - apply (proj2 (deny_rules_force_pending strict_rules anonymous)).
    repeat constructor.
  - reflexivity.
Defined.

(** ** Reading the [ModeratedObject] table *)

Section queryset.
Context (P : MORow -> Prop) {Pdec : forall r, Decision (P r)}.

Lemma sole_record_filter i r (t : gmap nat MORow) :
  sole_record P i r t <-> filter (fun ir => P ir.2) t = {[i := r]}.
Proof.
  split.
  - intros (Hi & HP & Huniq). apply map_eq. intros j.
    destruct (decide (j = i)) as [-> | Hne].
    + rewrite lookup_singleton_eq. by apply map_lookup_filter_Some.
    + rewrite lookup_singleton_ne by done.
      apply map_lookup_filter_None. right. intros r' Hj HP'. simpl in HP'.
      apply Hne. eauto.
  - intros Hf. repeat split.
    + assert (H : filter (fun ir => P ir.2) t !! i = Some r)
        by (rewrite Hf; apply lookup_singleton_eq).
      by apply map_lookup_filter_Some in H as [? _].
    + assert (H : filter (fun ir => P ir.2) t !! i = Some r)
        by (rewrite Hf; apply lookup_singleton_eq).
      by apply map_lookup_filter_Some in H as [_ ?].
    + intros j r' Hj HP'.
      assert (H : filter (fun ir => P ir.2) t !! j = Some r')
        by (by apply map_lookup_filter_Some).
      rewrite Hf in H. apply lookup_singleton_Some in H. by destruct H.
Qed.

Lemma queryset_get_sole i r w :
  sole_record P i r (moderated_objects w) ->
  queryset_get P w = (Ok {| mo_id := Some i; mo_row := r |}, w).
Proof.
  intros H%sole_record_filter. unfold queryset_get, rows_where.
  rewrite H, map_to_list_singleton. reflexivity.
Qed.

Lemma queryset_get_none w :
  (forall j r', moderated_objects w !! j = Some r' -> ~ P r') ->
  queryset_get P w = (Raise ObjectDoesNotExist, w).
Proof.
  intros H. unfold queryset_get, rows_where.
  assert (E : filter (fun ir => P ir.2) (moderated_objects w) = ∅).
  { apply map_empty_filter. intros j r' Hj HP. exact (H j r' Hj HP). }
  rewrite E, map_to_list_empty. reflexivity.
Qed.

(** What each outcome of [get()] tells about the table. *)
Lemma queryset_get_inv w o w' :
  queryset_get P w = (o, w') ->
  w' = w /\
  match o with
  | Ok m => exists i r, m = {| mo_id := Some i; mo_row := r |}
                        /\ sole_record P i r (moderated_objects w)
  | Raise ObjectDoesNotExist =>
      forall j r', moderated_objects w !! j = Some r' -> ~ P r'
  | Raise MultipleObjectsReturned => True
  | _ => False
  end.
Proof.
  unfold queryset_get, rows_where.
  destruct (map_to_list (filter (fun ir => P ir.2) (moderated_objects w)))
    as [| [i r] [| ? ?]] eqn:E; intros [= <- <-]; split; try done.
  - apply map_to_list_empty_iff in E. intros j r' Hj HP.
    assert (H : filter (fun ir => P ir.2) (moderated_objects w) !! j = Some r')
      by (by apply map_lookup_filter_Some).
    rewrite E in H. by rewrite lookup_empty in H.
  - exists i, r. split; [done |]. apply sole_record_filter.
    rewrite <- (list_to_map_to_list (filter (fun ir => P ir.2) (moderated_objects w))).
    rewrite E. simpl. by rewrite insert_empty.
Qed.
End queryset.

Lemma sole_record_insert (P : MORow -> Prop) i r r1 (t : gmap nat MORow) :
  sole_record P i r t -> P r1 -> sole_record P i r1 (<[i := r1]> t).
Proof.
  intros (Hi & HP & Huniq) HP1. repeat split.
  - apply lookup_insert_eq.
  - done.
  - intros j r' Hj HP'. destruct (decide (j = i)) as [-> | Hne]; [done |].
    rewrite lookup_insert_ne in Hj by done. eauto.
Qed.

Lemma sole_record_weaken (P Q : MORow -> Prop) i r (t : gmap nat MORow) :
  sole_record P i r t -> Q r -> (forall r', Q r' -> P r') -> sole_record Q i r t.
Proof. intros (Hi & HP & Huniq) HQ HQP. repeat split; eauto. Qed.

(** ** The moderated read *)

Section rows.
Context (P : MORow -> Prop) {Pdec : forall r, Decision (P r)}.

Lemma rows_where_none (t : gmap nat MORow) :
  (forall j r', t !! j = Some r' -> ~ P r') -> rows_where P t = [].
Proof.
  intros H. unfold rows_where.
  assert (E : filter (fun ir => P ir.2) t = ∅).
  { apply map_empty_filter. intros j r' Hj HP. exact (H j r' Hj HP). }
  rewrite E. apply map_to_list_empty.
Qed.

Lemma rows_where_some (t : gmap nat MORow) j r' :
  t !! j = Some r' -> P r' -> rows_where P t <> [].
Proof.
  intros Hj HP E. unfold rows_where in E. apply map_to_list_empty_iff in E.
  assert (H : filter (fun ir => P ir.2) t !! j = Some r')
    by (by apply map_lookup_filter_Some).
  rewrite E in H. by rewrite lookup_empty in H.
Qed.
End rows.

(** What the moderated read gives is the row of the table. *)
Lemma moderated_read_row cls k w v :
  moderated_read cls k w = Some v -> db_table w !! (cls, k) = Some v.
Proof.
  unfold moderated_read. destruct (db_table w !! (cls, k)) as [fs |]; [| done].
  destruct (rows_where _ _); [by intros [= ->] | done].
Qed.

Lemma moderated_read_visible cls k a w :
  db_table w !! (cls, k) = Some a ->
  (forall j r', moderated_objects w !! j = Some r' -> ~ holds_unapproved cls k a r') ->
  moderated_read cls k w = Some a.
Proof. intros Ha H. unfold moderated_read. rewrite Ha. by rewrite rows_where_none. Qed.

Lemma moderated_read_hidden cls k a w j r' :
  db_table w !! (cls, k) = Some a ->
  moderated_objects w !! j = Some r' ->
  holds_unapproved cls k a r' ->
  moderated_read cls k w = None.
Proof.
  intros Ha Hj HP. unfold moderated_read. rewrite Ha.
  destruct (rows_where _ _) eqn:E; [| done].
  by destruct (rows_where_some _ _ _ _ Hj HP).
Qed.

(** The moderated read of an instance that has one record under its key. *)
Lemma moderated_read_sole cls k i r a w :
  db_table w !! (cls, k) = Some a ->
  sole_record (fun r' => object_pk r' = Some k) i r (moderated_objects w) ->
  content_type r = cls ->
  moderated_read cls k w
  = if decide (moderation_status r <> MODERATION_STATUS_APPROVED
               /\ i_fields (changed_object r) = a)
    then None else Some a.
Proof.
  intros Ha (Hi & Hpk & Huniq) Hct.
  destruct (decide _) as [[Hst Hsnap] | Hno].
  - by apply (moderated_read_hidden cls k a w i r).
  - apply moderated_read_visible; [done |].
    intros j r' Hj (_ & Hpk' & Hst & Hsnap).
    assert (j = i) as -> by eauto.
    assert (r' = r) as -> by congruence. by apply Hno.
Qed.

(** ** Effect of the primitives *)

Lemma default_manager_get_row cls k a w :
  db_table w !! (cls, k) = Some a ->
  default_manager_get cls (Some k) w = (Ok (row_instance cls k a), w).
Proof. intros H. unfold default_manager_get. by rewrite H. Qed.

Lemma default_manager_get_missing cls k w :
  db_table w !! (cls, k) = None ->
  default_manager_get cls (Some k) w = (Raise ObjectDoesNotExist, w).
Proof. intros H. unfold default_manager_get. by rewrite H. Qed.

Lemma objects_get_sole k i r w :
  sole_record (fun r' => object_pk r' = Some k) i r (moderated_objects w) ->
  objects_get (Some k) w = (Ok {| mo_id := Some i; mo_row := r |}, w).
Proof. intros H. unfold objects_get. by apply queryset_get_sole. Qed.

Lemma inform_moderator_sends m instance i r w :
  notify_moderator (m_class m) = true ->
  is_Some (class_attrs w !! (i_class instance, "moderated_object")) ->
  is_Some (class_attrs w !! (i_class instance, "_moderated_object")) ->
  sole_record (fun r' => content_type r' = i_class instance /\ object_pk r' = i_pk instance)
              i r (moderated_objects w) ->
  inform_moderator m instance w
  = (Ok tt, with_outbox (moderator_mail m (MODERATORS w) instance r)
              (with_informed instance w)).
Proof.
  intros Hn [a1 H1] [a2 H2] Hsole. unfold inform_moderator.
  rewrite bind_modify, bind_gets, Hn. unfold send.
  assert (E : moderated_object_property instance (with_informed instance w)
              = (Ok {| mo_id := Some i; mo_row := r |}, with_informed instance w)).
  { unfold moderated_object_property. rewrite bind_gets.
    cbn [class_attrs with_informed]. rewrite H1, H2.
    apply queryset_get_sole. exact Hsole. }
  rewrite (bind_Ok _ _ _ _ _ E). reflexivity.
Qed.

Lemma inform_moderator_silent m instance w :
  notify_moderator (m_class m) = false ->
  inform_moderator m instance w = (Ok tt, with_informed instance w).
Proof.
  intros Hn. unfold inform_moderator. rewrite bind_modify, bind_gets, Hn. reflexivity.
Qed.

Lemma World_ext w w' :
  _registered_models w = _registered_models w' ->
  class_attrs w = class_attrs w' ->
  pre_save_receivers w = pre_save_receivers w' ->
  post_save_receivers w = post_save_receivers w' ->
  db_table w = db_table w' ->
  moderated_objects w = moderated_objects w' ->
  MODERATORS w = MODERATORS w' ->
  outbox w = outbox w' ->
  mo_saves w = mo_saves w' ->
  informed w = informed w' ->
  w = w'.
Proof. destruct w, w'. cbn. intros. by subst. Qed.

Ltac world_simpl :=
  cbn [_registered_models class_attrs pre_save_receivers post_save_receivers db_table
       moderated_objects MODERATORS outbox mo_saves informed
       with_registered_models with_class_attrs with_receivers with_db_table
       with_moderated_objects count_mo_save with_outbox with_informed].

Lemma with_moderated_objects_id f w :
  f (moderated_objects w) = moderated_objects w -> with_moderated_objects f w = w.
Proof. intros E. destruct w. unfold with_moderated_objects. simpl in *. by rewrite E. Qed.

Lemma with_db_table_id f w :
  f (db_table w) = db_table w -> with_db_table f w = w.
Proof. intros E. destruct w. unfold with_db_table. simpl in *. by rewrite E. Qed.

(** The [pre_save] handler on an instance that has a row and a record: the
    record is saved once, with the row as its snapshot when the snapshot it
    held differs from the instance. *)
Lemma pre_save_handler_existing sender cls k v i r a w :
  k <> 0 ->
  db_table w !! (cls, k) = Some a ->
  sole_record (fun r' => object_pk r' = Some k) i r (moderated_objects w) ->
  pre_save_handler sender (mkInstance cls (Some k) v) w
  = (Ok tt,
     count_mo_save
       (with_moderated_objects
          <[i := if decide (i_fields (changed_object r) = v) then r
                 else snapshot_row r (row_instance cls k a)]> w)).
Proof.
  intros Hk Ha Hr. unfold pre_save_handler. cbn [i_pk pk_truthy].
  replace (k =? 0)%Z with false by (symmetry; by apply Z.eqb_neq).
  cbn [negb]. unfold _get_or_create_moderated_object. cbn [i_pk i_class].
  assert (E : (unchanged_obj <- default_manager_get cls (Some k) ;;
     try_except_ObjectDoesNotExist
       (moderated_object <- objects_get (Some k) ;;
        if _is_not_equal_instance moderated_object (mkInstance cls (Some k) v)
        then ret (set_changed_object moderated_object unchanged_obj)
        else ret moderated_object)
       (ret (set_changed_object (ModeratedObject_new unchanged_obj) unchanged_obj))) w
     = (Ok {| mo_id := Some i;
              mo_row := if decide (i_fields (changed_object r) = v) then r
                        else snapshot_row r (row_instance cls k a) |}, w)).
  { rewrite (bind_Ok _ _ _ _ _ (default_manager_get_row _ _ _ _ Ha)).
    unfold try_except_ObjectDoesNotExist.
    rewrite (bind_Ok _ _ _ _ _ (objects_get_sole _ _ _ _ Hr)).
    unfold _is_not_equal_instance. cbn [mo_row i_fields].
    destruct (decide (i_fields (changed_object r) = v)) as [Heq | Hne].
    - rewrite bool_decide_eq_false_2 by (intros H; by apply H). reflexivity.
    - rewrite bool_decide_eq_true_2 by done. reflexivity. }
  rewrite (bind_Ok _ _ _ _ _ E). reflexivity.
Qed.

(** The [pre_save] handler on an instance that has a row but no record yet:
    a record is created with the row as its snapshot. *)
Lemma pre_save_handler_first sender cls k v a w :
  k <> 0 ->
  db_table w !! (cls, k) = Some a ->
  (forall j r', moderated_objects w !! j = Some r' -> object_pk r' <> Some k) ->
  pre_save_handler sender (mkInstance cls (Some k) v) w
  = (Ok tt,
     count_mo_save
       (with_moderated_objects
          <[fresh (dom (moderated_objects w))
            := mo_row (ModeratedObject_new (row_instance cls k a))]> w)).
Proof.
  intros Hk Ha Hr. unfold pre_save_handler. cbn [i_pk pk_truthy].
  replace (k =? 0)%Z with false by (symmetry; by apply Z.eqb_neq).
  cbn [negb]. unfold _get_or_create_moderated_object. cbn [i_pk i_class].
  rewrite (bind_Ok _ _ _ (ModeratedObject_new (row_instance cls k a)) w); [reflexivity |].
  rewrite (bind_Ok _ _ _ _ _ (default_manager_get_row _ _ _ _ Ha)).
  unfold try_except_ObjectDoesNotExist.
  rewrite (bind_Raise _ _ w ObjectDoesNotExist w); [reflexivity |].
  unfold objects_get. by apply queryset_get_none.
Qed.

Lemma _copy_model_instance_eq obj : _copy_model_instance obj = obj.
Proof. by destruct obj. Qed.

Lemma save_base_write_update cls k v w :
  is_Some (db_table w !! (cls, k)) ->
  save_base_write (mkInstance cls (Some k) v) w
  = (Ok (mkInstance cls (Some k) v, false), with_db_table <[(cls, k) := v]> w).
Proof.
  intros [a Ha]. unfold save_base_write. rewrite bind_gets. cbn [i_pk i_class i_fields].
  rewrite bind_modify. unfold ret. rewrite Ha.
  rewrite bool_decide_eq_false_2 by done. reflexivity.
Qed.

Lemma save_base_write_Some cls k v w :
  save_base_write (mkInstance cls (Some k) v) w
  = (Ok (mkInstance cls (Some k) v, bool_decide (db_table w !! (cls, k) = None)),
     with_db_table <[(cls, k) := v]> w).
Proof. reflexivity. Qed.

Lemma registered_models_getitem_Some sender m w :
  _registered_models w !! sender = Some m ->
  registered_models_getitem sender w = (Ok m, w).
Proof. intros H. unfold registered_models_getitem. rewrite bind_gets, H. reflexivity. Qed.

(** [post_save] after an update whose values equal the snapshot: nothing. *)
Lemma post_save_handler_unchanged save sender instance k i r m w :
  _registered_models w !! sender = Some m ->
  i_pk instance = Some k ->
  sole_record (fun r' => object_pk r' = Some k) i r (moderated_objects w) ->
  i_fields (changed_object r) = i_fields instance ->
  post_save_handler_with save sender instance false w = (Ok tt, w).
Proof.
  intros Hm Hpk Hr Heq. unfold post_save_handler_with.
  rewrite (bind_Ok _ _ _ _ _ (registered_models_getitem_Some _ _ _ Hm)), Hpk.
  rewrite (bind_Ok _ _ _ _ _ (objects_get_sole _ _ _ _ Hr)).
  unfold _is_not_equal_instance. cbn [mo_row].
  rewrite bool_decide_eq_false_2 by (intros H; by apply H). reflexivity.
Qed.

(** [post_save] after an update whose values differ from the snapshot, up to
    the notification: the snapshot is saved back, then the record takes the
    written values and becomes Pending. *)
Lemma post_save_handler_changed save sender instance k i r m w w1 :
  _registered_models w !! sender = Some m ->
  i_pk instance = Some k ->
  sole_record (fun r' => object_pk r' = Some k) i r (moderated_objects w) ->
  i_fields (changed_object r) <> i_fields instance ->
  save (changed_object r) w = (Ok tt, w1) ->
  post_save_handler_with save sender instance false w
  = inform_moderator m instance
      (count_mo_save (with_moderated_objects <[i := pending_row r instance]> w1)).
Proof.
  intros Hm Hpk Hr Hne Hsave. unfold post_save_handler_with.
  rewrite (bind_Ok _ _ _ _ _ (registered_models_getitem_Some _ _ _ Hm)), Hpk.
  rewrite (bind_Ok _ _ _ _ _ (objects_get_sole _ _ _ _ Hr)).
  unfold _is_not_equal_instance. cbn [mo_row].
  rewrite bool_decide_eq_true_2 by done.
  rewrite (bind_Ok _ _ _ _ _ Hsave). rewrite _copy_model_instance_eq.
  unfold ModeratedObject_save. rewrite bind_modify. reflexivity.
Qed.

Lemma Model_save_unfold fuel instance w :
  Model_save (S fuel) instance w
  = (pre <- gets pre_save_receivers ;;
     (if decide (i_class instance ∈ pre)
      then pre_save_handler (i_class instance) instance else ret tt) ;;;
     written <- save_base_write instance ;;
     post <- gets post_save_receivers ;;
     if decide (i_class instance ∈ post)
     then post_save_handler_with (Model_save fuel) (i_class instance)
            (fst written) (snd written)
     else ret tt) w.
Proof. reflexivity. Qed.

Section update.
Context (cls : model_class) (k : Z) (i : nat) (r : MORow) (w : World)
        (a : list (string * value)) (m : moderator).
Hypothesis Htracked : tracked cls k i r w.
Hypothesis Ha : db_table w !! (cls, k) = Some a.
Hypothesis Hm : _registered_models w !! cls = Some m.

(** Saving values equal to the snapshot of the record: the record is saved
    once (by [pre_save]) and the values are written to the table. *)
Lemma Model_save_equal_snapshot fuel v :
  i_fields (changed_object r) = v ->
  Model_save (S fuel) (mkInstance cls (Some k) v) w
  = (Ok tt, with_db_table <[(cls, k) := v]> (count_mo_save w)).
Proof.
  intros Heq. destruct Htracked.
  rewrite Model_save_unfold, bind_gets. cbn [i_class].
  rewrite decide_True by done.
  rewrite (bind_Ok _ _ _ _ _ (pre_save_handler_existing _ _ _ _ _ _ _ _ tr_pk0 Ha tr_record0)).
  rewrite decide_True by done.
  rewrite with_moderated_objects_id by (apply insert_id, tr_record0).
  rewrite (bind_Ok _ _ _ _ _ (save_base_write_update cls k v (count_mo_save w) tr_row0)).
  rewrite bind_gets. cbn [post_save_receivers with_db_table count_mo_save fst snd].
  rewrite decide_True by done.
  eapply post_save_handler_unchanged; eauto.
Qed.
End update.

(** [tracked] only looks at the setup, the row and the record. *)
Lemma tracked_update cls k i r r1 w w' :
  tracked cls k i r w ->
  _registered_models w' = _registered_models w ->
  class_attrs w' = class_attrs w ->
  pre_save_receivers w' = pre_save_receivers w ->
  post_save_receivers w' = post_save_receivers w ->
  is_Some (db_table w' !! (cls, k)) ->
  moderated_objects w' = <[i := r1]> (moderated_objects w) ->
  content_type r1 = cls -> object_pk r1 = Some k ->
  i_class (changed_object r1) = cls -> i_pk (changed_object r1) = Some k ->
  tracked cls k i r1 w'.
Proof.
  intros [] E1 E2 E3 E4 Hrow E5 ? ? ? ?.
  constructor; rewrite ?E1, ?E2, ?E3, ?E4, ?E5; try done.
  eapply sole_record_insert; eauto.
Qed.

Lemma tracked_same_record cls k i r w w' :
  tracked cls k i r w ->
  _registered_models w' = _registered_models w ->
  class_attrs w' = class_attrs w ->
  pre_save_receivers w' = pre_save_receivers w ->
  post_save_receivers w' = post_save_receivers w ->
  is_Some (db_table w' !! (cls, k)) ->
  moderated_objects w' = moderated_objects w ->
  tracked cls k i r w'.
Proof.
  intros Ht E1 E2 E3 E4 Hrow E5.
  eapply tracked_update; eauto; try apply Ht.
  rewrite E5. symmetry. apply insert_id, Ht.
Qed.

(** [post_save] after an update whose values differ from the snapshot of the
    record: the snapshot is saved back over the row (a [save] that goes
    through both handlers again and changes nothing but the row), the record
    takes the written values and becomes Pending, the moderator is informed. *)
Lemma post_save_handler_differs cls k i r w m v fuel :
  tracked cls k i r w ->
  _registered_models w !! cls = Some m ->
  i_fields (changed_object r) <> v ->
  post_save_handler (S fuel) cls (mkInstance cls (Some k) v) false w
  = (Ok tt,
     (if notify_moderator (m_class m)
      then with_outbox (moderator_mail m (MODERATORS w) (mkInstance cls (Some k) v)
                          (pending_row r (mkInstance cls (Some k) v)))
      else fun w' => w')
       (with_informed (mkInstance cls (Some k) v)
          (count_mo_save
             (with_moderated_objects <[i := pending_row r (mkInstance cls (Some k) v)]>
                (with_db_table <[(cls, k) := i_fields (changed_object r)]>
                   (count_mo_save w)))))).
Proof.
  intros Ht Hm Hne. set (instance := mkInstance cls (Some k) v).
  destruct (tr_row _ _ _ _ _ Ht) as [a Ha].
  assert (Hco : changed_object r = mkInstance cls (Some k) (i_fields (changed_object r))).
  { pose proof (tr_snapshot_class _ _ _ _ _ Ht) as H1.
    pose proof (tr_snapshot_pk _ _ _ _ _ Ht) as H2.
    destruct (changed_object r); cbn in *; by subst. }
  assert (Hnested : Model_save (S fuel) (changed_object r) w
                    = (Ok tt, with_db_table <[(cls, k) := i_fields (changed_object r)]>
                                (count_mo_save w))).
  { rewrite Hco at 1.
    by apply (Model_save_equal_snapshot cls k i r w a m Ht Ha Hm fuel). }
  unfold post_save_handler.
  erewrite post_save_handler_changed;
    [| exact Hm | reflexivity | apply Ht | by cbn | exact Hnested].
  set (w3 := count_mo_save (with_moderated_objects _ _)).
  assert (Hsole3 : sole_record
            (fun r' => content_type r' = i_class instance /\ object_pk r' = i_pk instance)
            i (pending_row r instance) (moderated_objects w3)).
  { cbn. eapply sole_record_weaken.
    - eapply sole_record_insert; [apply Ht |]. cbn. apply Ht.
    - split; [apply Ht |]. cbn. apply Ht.
    - by intros r' [_ ?]. }
  assert (Hw3 : w3 = count_mo_save
             (with_moderated_objects <[i := pending_row r instance]>
                (with_db_table <[(cls, k) := i_fields (changed_object r)]>
                   (count_mo_save w)))) by reflexivity.
  destruct (notify_moderator (m_class m)) eqn:Hn.
  - erewrite inform_moderator_sends; [| exact Hn | | | exact Hsole3].
    + rewrite Hw3. reflexivity.
    + cbn. apply Ht.
    + cbn. apply Ht.
  - rewrite inform_moderator_silent by done. rewrite Hw3. reflexivity.
Qed.

Section update_changed.
Context (cls : model_class) (k : Z) (i : nat) (r : MORow) (w : World)
        (a v : list (string * value)) (m : moderator).
Hypothesis Htracked : tracked cls k i r w.
Hypothesis Ha : db_table w !! (cls, k) = Some a.
Hypothesis Hm : _registered_models w !! cls = Some m.
Hypothesis Hne : i_fields (changed_object r) <> v.

Local Abbreviation instance := (mkInstance cls (Some k) v).
Local Abbreviation r1 := (snapshot_row r (row_instance cls k a)).
Local Abbreviation w1 := (count_mo_save (with_moderated_objects <[i := r1]> w)).
Local Abbreviation w2 := (with_db_table <[(cls, k) := v]> w1).

Lemma tracked_after_capture : tracked cls k i r1 w2.
Proof.
  eapply tracked_update; try exact Htracked; try reflexivity.
  - cbn. rewrite lookup_insert_eq. eauto.
  - apply Htracked.
  - apply Htracked.
Qed.

Lemma Model_save_to_post fuel :
  Model_save (S fuel) instance w
  = post_save_handler fuel cls instance false w2.
Proof.
  destruct Htracked.
  rewrite Model_save_unfold, bind_gets. cbn [i_class].
  rewrite decide_True by done.
  rewrite (bind_Ok _ _ _ _ _ (pre_save_handler_existing _ _ _ _ _ _ _ _ tr_pk0 Ha tr_record0)).
  rewrite decide_False by done.
  rewrite (bind_Ok _ _ _ _ _ (save_base_write_update cls k v w1 tr_row0)).
  rewrite bind_gets. cbn [post_save_receivers with_db_table count_mo_save fst snd].
  rewrite decide_True by done. reflexivity.
Qed.

(** The written values differ from the snapshot of the record but equal
    the row: the row is captured, nothing else happens. *)
Lemma Model_save_same_as_row fuel :
  a = v ->
  Model_save (S fuel) instance w
  = (Ok tt, count_mo_save (with_moderated_objects <[i := r1]> w)).
Proof.
  intros Hav. rewrite Model_save_to_post. unfold post_save_handler.
  pose proof tracked_after_capture as Ht2.
  erewrite post_save_handler_unchanged; [| exact Hm | reflexivity | apply Ht2 | by cbn].
  f_equal. apply with_db_table_id. cbn. apply insert_id. by rewrite <- Hav.
Qed.

(** The written values differ from the snapshot and from the row: the row
    is captured, written over, and written back by the [post_save] handler,
    whose [save] of the snapshot goes once more through [pre_save]; the
    record takes the written values and becomes Pending; the moderator is
    informed. *)
Lemma Model_save_differs fuel :
  a <> v ->
  Model_save (S (S fuel)) instance w
  = (Ok tt,
     (if notify_moderator (m_class m)
      then with_outbox (moderator_mail m (MODERATORS w) instance (pending_row r instance))
      else fun w' => w')
       (with_informed instance
          (with_moderated_objects <[i := pending_row r instance]>
             (count_mo_save (count_mo_save (count_mo_save w)))))).
Proof.
  intros Hav. rewrite Model_save_to_post.
  pose proof tracked_after_capture as Ht2.
  rewrite (post_save_handler_differs cls k i r1 w2 m v fuel Ht2 Hm) by (by cbn).
  f_equal.
  replace (pending_row r1 instance) with (pending_row r instance) by reflexivity.
  replace (MODERATORS w2) with (MODERATORS w) by reflexivity.
  f_equal. apply World_ext; world_simpl; try reflexivity.
  - cbn [changed_object snapshot_row row_instance i_fields].
    rewrite insert_insert_eq. by apply insert_id.
  - by rewrite insert_insert_eq.
Qed.
End update_changed.

Lemma queryset_get_several (P : MORow -> Prop) {Pdec : forall r, Decision (P r)}
    i j r r' w :
  moderated_objects w !! i = Some r -> moderated_objects w !! j = Some r' ->
  i <> j -> P r -> P r' ->
  queryset_get P w = (Raise MultipleObjectsReturned, w).
Proof.
  intros Hi Hj Hne HP HP'.
  destruct (queryset_get P w) as [o w'] eqn:E.
  destruct (queryset_get_inv P _ _ _ E) as [-> H].
  destruct o as [mobj | [] |]; try done.
  - destruct H as (i0 & r0 & _ & _ & _ & Huniq).
    pose proof (Huniq i r Hi HP). pose proof (Huniq j r' Hj HP'). congruence.
  - destruct (H i r Hi HP).
Qed.

(** Two records under the primary key of the instance: the update is
    refused in [pre_save], nothing is written. *)
Lemma Model_save_shared_key fuel cls k a v i j r r' w :
  cls ∈ pre_save_receivers w ->
  k <> 0 ->
  db_table w !! (cls, k) = Some a ->
  moderated_objects w !! i = Some r ->
  moderated_objects w !! j = Some r' ->
  i <> j ->
  object_pk r = Some k ->
  object_pk r' = Some k ->
  Model_save (S fuel) (mkInstance cls (Some k) v) w = (Raise MultipleObjectsReturned, w).
Proof.
  intros Hpre Hk Ha Hi Hj Hne Hr Hr'. rewrite Model_save_unfold, bind_gets. cbn [i_class].
  rewrite decide_True by done.
  apply bind_Raise. unfold pre_save_handler. cbn [i_pk pk_truthy].
  replace (k =? 0)%Z with false by (symmetry; by apply Z.eqb_neq). cbn [negb].
  apply bind_Raise. unfold _get_or_create_moderated_object. cbn [i_pk i_class].
  rewrite (bind_Ok _ _ _ _ _ (default_manager_get_row _ _ _ _ Ha)).
  unfold try_except_ObjectDoesNotExist.
  rewrite (bind_Raise _ _ w MultipleObjectsReturned w); [reflexivity |].
  unfold objects_get. by apply (queryset_get_several _ i j r r').
Qed.

(** ** Creation *)

Lemma foldr_max_bound (l : list Z) x : In x l -> (x <= foldr Z.max 0 l)%Z.
Proof.
  induction l as [| y l IH]; simpl; [done |].
  intros [-> | H]; [lia | specialize (IH H); lia].
Qed.

Lemma foldr_max_nonneg (l : list Z) : (0 <= foldr Z.max 0 l)%Z.
Proof. induction l as [| y l IH]; simpl; lia. Qed.

Lemma next_pk_fresh (cls : model_class) (t : gmap (model_class * Z) (list (string * value))) :
  t !! (cls, next_pk cls t) = None.
Proof.
  destruct (t !! (cls, next_pk cls t)) as [x |] eqn:E; [| done]. exfalso.
  assert (H : (next_pk cls t <= foldr Z.max 0
                 (map (fun kv => snd (fst kv))
                    (filter (fun kv => fst (fst kv) = cls) (map_to_list t))))%Z).
  { apply foldr_max_bound.
    apply (in_map (fun kv : model_class * Z * list (string * value) => snd (fst kv)) _
                  ((cls, next_pk cls t), x)).
    apply list_elem_of_In. apply list_elem_of_filter. split; [done |].
    by apply elem_of_map_to_list. }
  unfold next_pk in H at 1. lia.
Qed.

Lemma save_base_write_insert cls v w :
  save_base_write (mkInstance cls None v) w
  = (Ok (row_instance cls (next_pk cls (db_table w)) v, true),
     with_db_table <[(cls, next_pk cls (db_table w)) := v]> w).
Proof. reflexivity. Qed.

(** [post_save] after a creation: a record is made from the row and saved,
    Pending, and the moderator is informed. *)
Lemma post_save_handler_created save sender instance k a m w :
  set_up sender m w ->
  i_class instance = sender ->
  i_pk instance = Some k ->
  db_table w !! (sender, k) = Some a ->
  (forall j r', moderated_objects w !! j = Some r' ->
                ~ (content_type r' = sender /\ object_pk r' = Some k)) ->
  post_save_handler_with save sender instance true w
  = (Ok tt,
     (if notify_moderator (m_class m)
      then with_outbox (moderator_mail m (MODERATORS w) instance
                          (mo_row (ModeratedObject_new (row_instance sender k a))))
      else fun w' => w')
       (with_informed instance
          (count_mo_save
             (with_moderated_objects
                <[fresh (dom (moderated_objects w))
                  := mo_row (ModeratedObject_new (row_instance sender k a))]> w)))).
Proof.
  intros Hsu Hcls Hpk Ha Hnone. unfold post_save_handler_with.
  rewrite (bind_Ok _ _ _ _ _ (registered_models_getitem_Some _ _ _ (su_registered _ _ _ Hsu))).
  rewrite Hpk, (bind_Ok _ _ _ _ _ (default_manager_get_row _ _ _ _ Ha)).
  unfold ModeratedObject_save. rewrite bind_modify. cbn [mo_id ModeratedObject_new].
  destruct (notify_moderator (m_class m)) eqn:Hn.
  - erewrite inform_moderator_sends; [reflexivity | exact Hn | | |].
    + rewrite Hcls. apply Hsu.
    + rewrite Hcls. apply Hsu.
    + rewrite Hcls, Hpk. cbn. repeat split.
      * apply lookup_insert_eq.
      * intros j r' Hj HP. destruct (decide (j = fresh (dom (moderated_objects w)))) as [| Hne];
          [done |].
        rewrite lookup_insert_ne in Hj by done. destruct (Hnone j r' Hj HP).
  - rewrite inform_moderator_silent by done. reflexivity.
Qed.

(** Saving a new instance (no primary key yet) of a class that is set up. *)
Lemma Model_save_create cls v m w fuel :
  set_up cls m w ->
  records_refer_to_rows w ->
  let k := next_pk cls (db_table w) in
  let instance := row_instance cls k v in
  Model_save (S fuel) (mkInstance cls None v) w
  = (Ok tt,
     (if notify_moderator (m_class m)
      then with_outbox (moderator_mail m (MODERATORS w) instance
                          (mo_row (ModeratedObject_new instance)))
      else fun w' => w')
       (with_informed instance
          (count_mo_save
             (with_moderated_objects
                <[fresh (dom (moderated_objects w)) := mo_row (ModeratedObject_new instance)]>
                (with_db_table <[(cls, k) := v]> w))))).
Proof.
  intros Hsu Hrows k instance.
  rewrite Model_save_unfold, bind_gets. cbn [i_class].
  rewrite decide_True by apply Hsu.
  rewrite (bind_Ok _ _ _ _ _ (pre_save_handler_no_pk cls cls v w)).
  rewrite (bind_Ok _ _ _ _ _ (save_base_write_insert cls v w)).
  rewrite bind_gets. cbn [post_save_receivers with_db_table fst snd].
  rewrite decide_True by apply Hsu. fold k. fold instance.
  erewrite (post_save_handler_created _ cls instance k v m); try reflexivity.
  - destruct Hsu. by constructor.
  - cbn. apply lookup_insert_eq.
  - cbn. intros j r' Hj [Hct Hpk].
    destruct (Hrows j r' Hj) as (k' & Hk' & [x Hx]).
    rewrite Hct in Hx. assert (k' = k) as -> by congruence.
    unfold k in Hx. by rewrite next_pk_fresh in Hx.
Qed.

(** ** Consistency of the record table *)

Lemma extends_refl w : extends w w.
Proof. split; [done | intros i r H; eauto]. Qed.

Lemma extends_trans w1 w2 w3 : extends w1 w2 -> extends w2 w3 -> extends w1 w3.
Proof.
  intros [Ha Hb] [Hc Hd]. split; [eauto |].
  intros i r H. destruct (Hb i r H) as (r' & H' & E1 & E2).
  destruct (Hd i r' H') as (r'' & H'' & E3 & E4).
  exists r''. repeat split; [done | congruence | congruence].
Qed.

Lemma consistent_same w w' :
  moderated_objects w' = moderated_objects w -> db_table w' = db_table w ->
  consistent w -> consistent w' /\ extends w w'.
Proof.
  intros E1 E2 [Ha Hb Hc]. split.
  - constructor; unfold records_refer_to_rows, one_record_per_instance, snapshots_keep_pk;
      rewrite ?E1, ?E2; done.
  - split; rewrite ?E1, ?E2; [done | intros i r H; eauto].
Qed.

Lemma consistent_db_insert w w' key v :
  moderated_objects w' = moderated_objects w ->
  db_table w' = <[key := v]> (db_table w) ->
  consistent w -> consistent w' /\ extends w w'.
Proof.
  intros E1 E2 [Ha Hb Hc].
  assert (Hrows : forall key', is_Some (db_table w !! key') -> is_Some (db_table w' !! key')).
  { intros key' H. rewrite E2. destruct (decide (key = key')) as [-> | Hne].
    - rewrite lookup_insert_eq. eauto.
    - by rewrite lookup_insert_ne. }
  split.
  - constructor; unfold records_refer_to_rows, one_record_per_instance, snapshots_keep_pk;
      rewrite ?E1; try done.
    intros i r H. destruct (Ha i r H) as (k & Hk & Hrow). eauto.
  - split; [done | rewrite E1; intros i r H; eauto].
Qed.

Lemma consistent_insert_existing w w' i r r1 :
  consistent w ->
  moderated_objects w !! i = Some r ->
  content_type r1 = content_type r -> object_pk r1 = object_pk r ->
  i_pk (changed_object r1) = object_pk r1 ->
  moderated_objects w' = <[i := r1]> (moderated_objects w) ->
  db_table w' = db_table w ->
  consistent w' /\ extends w w'.
Proof.
  intros [Ha Hb Hc] Hi Ect Epk Hsnap E1 E2.
  assert (Hlook : forall j rj, moderated_objects w' !! j = Some rj ->
            exists rj', moderated_objects w !! j = Some rj'
                        /\ content_type rj = content_type rj' /\ object_pk rj = object_pk rj'
                        /\ i_pk (changed_object rj) = object_pk rj).
  { intros j rj. rewrite E1. destruct (decide (i = j)) as [<- | Hne].
    - rewrite lookup_insert_eq. intros [= <-]. exists r. done.
    - rewrite lookup_insert_ne by done. intros H. exists rj. repeat split; eauto. }
  split.
  - constructor.
    + intros j rj Hj. destruct (Hlook j rj Hj) as (rj' & Hj' & E3 & E4 & _).
      destruct (Ha j rj' Hj') as (k & Hk & Hrow). exists k. rewrite E2, E3, E4. done.
    + intros j1 j2 x1 x2 H1 H2 E3 E4.
      destruct (Hlook _ _ H1) as (y1 & Hy1 & ? & ? & _).
      destruct (Hlook _ _ H2) as (y2 & Hy2 & ? & ? & _).
      apply (Hb j1 j2 y1 y2 Hy1 Hy2); congruence.
    + intros j rj Hj. by destruct (Hlook j rj Hj) as (_ & _ & _ & _ & ?).
  - split; [by rewrite E2 |].
    intros j rj Hj. rewrite E1. destruct (decide (i = j)) as [<- | Hne].
    + rewrite lookup_insert_eq. exists r1. assert (rj = r) as -> by congruence. done.
    + rewrite lookup_insert_ne by done. eauto.
Qed.

Lemma fresh_id_unused (t : gmap nat MORow) : t !! fresh (dom t) = None.
Proof. apply not_elem_of_dom. apply is_fresh. Qed.

Lemma consistent_insert_fresh w w' r1 k :
  consistent w ->
  moderated_objects w' = <[fresh (dom (moderated_objects w)) := r1]> (moderated_objects w) ->
  db_table w' = db_table w ->
  object_pk r1 = Some k ->
  is_Some (db_table w !! (content_type r1, k)) ->
  i_pk (changed_object r1) = Some k ->
  (forall j r', moderated_objects w !! j = Some r' ->
                ~ (content_type r' = content_type r1 /\ object_pk r' = Some k)) ->
  consistent w' /\ extends w w'.
Proof.
  intros [Ha Hb Hc] E1 E2 Hpk Hrow Hsnap Hnone.
  pose proof (fresh_id_unused (moderated_objects w)) as Hfresh.
  set (n := fresh (dom (moderated_objects w))) in *.
  assert (Hlook : forall j rj, moderated_objects w' !! j = Some rj ->
            (j = n /\ rj = r1) \/ (j <> n /\ moderated_objects w !! j = Some rj)).
  { intros j rj. rewrite E1. destruct (decide (n = j)) as [<- | Hne].
    - rewrite lookup_insert_eq. intros [= <-]. by left.
    - rewrite lookup_insert_ne by done. intros H. right. done. }
  split.
  - constructor.
    + intros j rj Hj. rewrite E2. destruct (Hlook j rj Hj) as [[_ ->] | [_ Hj']]; eauto.
    + intros j1 j2 x1 x2 H1 H2 E3 E4.
      destruct (Hlook _ _ H1) as [[-> ->] | [Hn1 H1']];
        destruct (Hlook _ _ H2) as [[-> ->] | [Hn2 H2']]; try done.
      * destruct (Hnone j2 x2 H2'). split; congruence.
      * destruct (Hnone j1 x1 H1'). split; congruence.
      * eauto.
    + intros j rj Hj. destruct (Hlook j rj Hj) as [[_ ->] | [_ Hj']]; [congruence | eauto].
  - split; [by rewrite E2 |].
    intros j rj Hj. rewrite E1. assert (n <> j) by congruence.
    rewrite lookup_insert_ne by done. eauto.
Qed.

Lemma keeps_unchanged {A} (m : M A) :
  (forall w, moderated_objects (snd (m w)) = moderated_objects w
             /\ db_table (snd (m w)) = db_table w) ->
  keeps m.
Proof.
  intros H w o w' Hc E. destruct (H w) as [E1 E2]. rewrite E in E1, E2.
  by apply consistent_same.
Qed.

Lemma keeps_bind {A B} (m : M A) (k : A -> M B) :
  keeps m -> (forall a, keeps (k a)) -> keeps (bind m k).
Proof.
  intros Hm Hk w o w' Hc E. unfold bind in E.
  destruct (m w) as [[a | e |] w1] eqn:Em.
  - destruct (Hm _ _ _ Hc Em) as [Hc1 Hx1].
    destruct (Hk a _ _ _ Hc1 E) as [Hc2 Hx2].
    split; [done | by eapply extends_trans].
  - injection E as <- <-. eauto.
  - injection E as <- <-. eauto.
Qed.

Lemma queryset_get_world (P : MORow -> Prop) {Pdec : forall r, Decision (P r)} w :
  snd (queryset_get P w) = w.
Proof.
  destruct (queryset_get P w) as [o w'] eqn:E.
  by destruct (queryset_get_inv P _ _ _ E) as [-> _].
Qed.

Lemma moderated_object_property_world instance w :
  snd (moderated_object_property instance w) = w.
Proof.
  unfold moderated_object_property. rewrite bind_gets.
  destruct (class_attrs w !! (i_class instance, "moderated_object")); [| done].
  destruct (class_attrs w !! (i_class instance, "_moderated_object")); [| done].
  apply queryset_get_world.
Qed.

(** [inform_moderator] notes the call and sends at most one mail. *)
Lemma inform_moderator_world m instance w :
  snd (inform_moderator m instance w) = with_informed instance w
  \/ exists mail, snd (inform_moderator m instance w)
                  = with_outbox mail (with_informed instance w).
Proof.
  unfold inform_moderator. rewrite bind_modify, bind_gets.
  destruct (notify_moderator (m_class m)); [| by left].
  unfold send, bind.
  pose proof (moderated_object_property_world instance (with_informed instance w)) as Hw.
  destruct (moderated_object_property instance (with_informed instance w))
    as [[mo | e |] w1]; cbn [snd] in Hw; subst w1.
  - right. eexists. reflexivity.
  - by left.
  - by left.
Qed.

Lemma inform_moderator_tables m instance w :
  moderated_objects (snd (inform_moderator m instance w)) = moderated_objects w
  /\ db_table (snd (inform_moderator m instance w)) = db_table w.
Proof.
  destruct (inform_moderator_world m instance w) as [-> | [mail ->]]; done.
Qed.

Lemma keeps_inform_moderator m instance : keeps (inform_moderator m instance).
Proof. apply keeps_unchanged, inform_moderator_tables. Qed.

(** What [_get_or_create_moderated_object] returns: the world is not
    touched; the object is the one record filed under the primary key, with
    its snapshot or with the row as snapshot, or a new record of the row
    when no record is filed under the key. *)
Lemma _get_or_create_moderated_object_inv instance w o w' :
  _get_or_create_moderated_object instance w = (o, w') ->
  w' = w /\
  match o with
  | Ok mobj =>
      exists k a, i_pk instance = Some k
        /\ db_table w !! (i_class instance, k) = Some a
        /\ ((exists i r, mo_id mobj = Some i
               /\ sole_record (fun r' => object_pk r' = Some k) i r (moderated_objects w)
               /\ ((mo_row mobj = r
                    /\ i_fields (changed_object r) = i_fields instance)
                   \/ (mo_row mobj = snapshot_row r (row_instance (i_class instance) k a)
                       /\ i_fields (changed_object r) <> i_fields instance)))
            \/ (mobj = ModeratedObject_new (row_instance (i_class instance) k a)
                /\ forall j r', moderated_objects w !! j = Some r' -> object_pk r' <> Some k))
  | Raise _ => True
  | OutOfFuel => False
  end.
Proof.
  unfold _get_or_create_moderated_object. intros E.
  destruct (i_pk instance) as [k |] eqn:Hpk; [| by injection E as <- <-].
  destruct (db_table w !! (i_class instance, k)) as [a |] eqn:Ha.
  2:{ rewrite (bind_Raise _ _ w ObjectDoesNotExist w) in E
        by (by apply default_manager_get_missing).
      by injection E as <- <-. }
  rewrite (bind_Ok _ _ _ _ _ (default_manager_get_row _ _ _ _ Ha)) in E.
  unfold try_except_ObjectDoesNotExist, bind in E.
  destruct (objects_get (Some k) w) as [[mobj | e |] w1] eqn:Eget;
    destruct (queryset_get_inv _ _ _ _ Eget) as [-> Hget].
  - destruct Hget as (i & r & -> & Hsole).
    destruct (_is_not_equal_instance _ _) eqn:Hneq; injection E as <- <-;
      unfold _is_not_equal_instance in Hneq; cbn [mo_row] in Hneq;
      [apply bool_decide_eq_true_1 in Hneq
      | apply bool_decide_eq_false_1 in Hneq; apply dec_stable in Hneq];
      (split; [done |]); exists k, a; repeat split; try done;
      left; exists i, r; repeat split; try apply Hsole; auto.
  - destruct e; injection E as <- <-; try done.
    split; [done |]. exists k, a. repeat split; try done. right. split; [done |].
    intros j r' Hj. by apply (Hget j r' Hj).
  - done.
Qed.

Lemma keeps_pre_save_handler sender instance : keeps (pre_save_handler sender instance).
Proof.
  intros w o w' Hc E. unfold pre_save_handler in E.
  destruct (pk_truthy (i_pk instance)) eqn:Htruthy;
    [| injection E as <- <-; split; [done | apply extends_refl]].
  unfold bind in E.
  destruct (_get_or_create_moderated_object instance w) as [[mobj | e |] w1] eqn:Eg;
    destruct (_get_or_create_moderated_object_inv _ _ _ _ Eg) as [-> Hg];
    try (injection E as <- <-; split; [done | apply extends_refl]).
  destruct Hg as (k & a & Hpk & Ha & [(i & r & Hid & Hsole & Hrow) | [-> Hnone]]);
    unfold ModeratedObject_save, modify in E; injection E as <- <-.
  - rewrite Hid. destruct Hsole as (Hi & Hpkr & _).
    eapply (consistent_insert_existing w _ i r (mo_row mobj)); eauto; try reflexivity;
      destruct Hrow as [[-> _] | [-> _]]; try done.
    pose proof (cons_pk _ Hc) as Hsnap. by apply (Hsnap i r).
  - eapply (consistent_insert_fresh w _ _ k); eauto; try reflexivity.
    cbn. intros j r' Hj [_ Hr']. by apply (Hnone j r' Hj).
Qed.

(** What the write of [save] establishes for the [post_save] handler. *)
Lemma save_base_write_post instance w o w' :
  consistent w ->
  save_base_write instance w = (o, w') ->
  consistent w' /\ extends w w'
  /\ exists inst' created, o = Ok (inst', created)
       /\ i_class inst' = i_class instance
       /\ (created = true ->
           forall j r', moderated_objects w' !! j = Some r' ->
             ~ (content_type r' = i_class inst' /\ object_pk r' = i_pk inst')).
Proof.
  intros Hc E. unfold save_base_write in E. rewrite bind_gets in E.
  assert (Hnew : forall k v, db_table w !! (i_class instance, k) = None ->
            forall j r', moderated_objects
                           (with_db_table <[(i_class instance, k) := v]> w) !! j = Some r' ->
              ~ (content_type r' = i_class instance /\ object_pk r' = Some k)).
  { intros k v Hk j r' Hj [Hct Hpk]. cbn in Hj.
    pose proof (cons_rows _ Hc) as Hrows.
    destruct (Hrows j r' Hj) as (k' & Hk' & [x Hx]).
    rewrite Hct in Hx. assert (k' = k) as -> by congruence. congruence. }
  destruct (i_pk instance) as [k |] eqn:Hpk; rewrite bind_modify in E; injection E as <- <-.
  - destruct (consistent_db_insert w (with_db_table <[(i_class instance, k) := i_fields instance]> w)
                (i_class instance, k) (i_fields instance) eq_refl eq_refl Hc) as [Hc' Hx'].
    split; [done |]. split; [done |]. eexists _, _.
    split; [reflexivity |]. split; [reflexivity |].
    intros Hcreated%bool_decide_eq_true_1 j r' Hj. rewrite Hpk. by eapply Hnew.
  - set (k := next_pk (i_class instance) (db_table w)).
    destruct (consistent_db_insert w (with_db_table <[(i_class instance, k) := i_fields instance]> w)
                (i_class instance, k) (i_fields instance) eq_refl eq_refl Hc) as [Hc' Hx'].
    split; [done |]. split; [done |]. eexists _, _.
    split; [reflexivity |]. split; [reflexivity |].
    intros _ j r' Hj. eapply Hnew; [| exact Hj]. apply next_pk_fresh.
Qed.

Lemma post_save_handler_with_keeps save sender instance created w o w' :
  (forall x, keeps (save x)) ->
  consistent w ->
  (created = true ->
   forall j r', moderated_objects w !! j = Some r' ->
     ~ (content_type r' = sender /\ object_pk r' = i_pk instance)) ->
  post_save_handler_with save sender instance created w = (o, w') ->
  consistent w' /\ extends w w'.
Proof.
  intros Hsave Hc Hnone E. unfold post_save_handler_with in E.
  destruct (_registered_models w !! sender) as [m |] eqn:Hm.
  2:{ rewrite (bind_Raise _ _ w KeyError w) in E
        by (unfold registered_models_getitem; rewrite bind_gets, Hm; reflexivity).
      injection E as <- <-; split; [done | apply extends_refl]. }
  rewrite (bind_Ok _ _ _ _ _ (registered_models_getitem_Some _ _ _ Hm)) in E.
  destruct created.
  - specialize (Hnone eq_refl).
    destruct (i_pk instance) as [k |] eqn:Hpk;
      [| injection E as <- <-; split; [done | apply extends_refl]].
    destruct (db_table w !! (sender, k)) as [a |] eqn:Ha.
    2:{ rewrite (bind_Raise _ _ w ObjectDoesNotExist w) in E
          by (by apply default_manager_get_missing).
        injection E as <- <-. split; [done | apply extends_refl]. }
    rewrite (bind_Ok _ _ _ _ _ (default_manager_get_row _ _ _ _ Ha)) in E.
    unfold ModeratedObject_save in E. rewrite bind_modify in E.
    cbn [mo_id ModeratedObject_new] in E.
    match type of E with inform_moderator _ _ ?w0 = _ => set (w1 := w0) in * end.
    assert (H1 : consistent w1 /\ extends w w1).
    { eapply (consistent_insert_fresh w w1 _ k); eauto; reflexivity. }
    destruct H1 as [Hc1 Hx1].
    destruct (keeps_inform_moderator _ _ _ _ _ Hc1 E) as [Hc2 Hx2].
    split; [done | by eapply extends_trans].
  - unfold bind at 1 in E.
    destruct (objects_get (i_pk instance) w) as [[mobj | e |] w0] eqn:Eget;
      destruct (queryset_get_inv _ _ _ _ Eget) as [-> Hget];
      try (injection E as <- <-; split; [done | apply extends_refl]).
    destruct Hget as (i & r & -> & Hi & Hpkr & _).
    destruct (_is_not_equal_instance _ _);
      [| injection E as <- <-; split; [done | apply extends_refl]].
    unfold bind at 1 in E. cbn [mo_row] in E.
    destruct (save (changed_object r) w) as [[[] | e |] w1] eqn:Esave;
      destruct (Hsave _ _ _ _ Hc Esave) as [Hc1 Hx1];
      try (injection E as <- <-; done).
    unfold ModeratedObject_save in E. rewrite bind_modify in E.
    cbn [mo_id set_moderation_status set_changed_object mo_row] in E.
    match type of E with inform_moderator _ _ ?w0 = _ => set (w2 := w0) in * end.
    destruct (proj2 Hx1 i r Hi) as (r3 & Hi3 & Ect & Epk).
    assert (H2 : consistent w2 /\ extends w1 w2).
    { apply (consistent_insert_existing w1 w2 i r3
               (pending_row r (_copy_model_instance instance))); try done.
      all: cbn; congruence. }
    destruct H2 as [Hc2 Hx2].
    destruct (keeps_inform_moderator _ _ _ _ _ Hc2 E) as [Hc3 Hx3].
    split; [done |]. eapply extends_trans; [exact Hx1 |]. by eapply extends_trans.
Qed.

(** Every [save] keeps the world consistent, whatever its outcome and
    however deep the nested saves go. *)
Lemma keeps_Model_save fuel : forall instance, keeps (Model_save fuel instance).
Proof.
  induction fuel as [| fuel IH]; intros instance w o w' Hc E.
  - injection E as <- <-. split; [done | apply extends_refl].
  - rewrite Model_save_unfold, bind_gets in E.
    match type of E with context [bind (if ?d then ?x else ?y)] =>
      set (pre := if d then x else y) in E;
      assert (Hpre : keeps pre)
        by (unfold pre; destruct d;
            [apply keeps_pre_save_handler | by apply keeps_unchanged]) end.
    unfold bind at 1 in E.
    destruct (pre w) as [[[] | e |] w1] eqn:Epre;
      destruct (Hpre _ _ _ Hc Epre) as [Hc1 Hx1];
      try (injection E as <- <-; done).
    unfold bind at 1 in E.
    destruct (save_base_write instance w1) as [[written | e |] w2] eqn:Ewrite;
      destruct (save_base_write_post _ _ _ _ Hc1 Ewrite)
        as (Hc2 & Hx2 & inst' & created & Eo & Hcls & Hnone);
      try done.
    injection Eo as ->. rewrite bind_gets in E. cbn [fst snd] in E.
    destruct (decide (i_class instance ∈ post_save_receivers w2)).
    + assert (H3 : consistent w' /\ extends w2 w').
      { eapply post_save_handler_with_keeps; [exact IH | exact Hc2 | | exact E].
        intros Hcr. rewrite <- Hcls. by apply Hnone. }
      destruct H3 as [Hc3 Hx3]. split; [done |].
      eapply extends_trans; [exact Hx1 |]. by eapply extends_trans.
    + injection E as <- <-. split; [done | by eapply extends_trans].
Qed.

(** ** Update writes to a tracked instance *)

(** One update write whose values do not repeat the snapshot of the record,
    or repeat it when it is what the table holds: the save succeeds, the row
    of the table is as before, and the record now holds the written values. *)
Lemma Model_save_tracked_step cls k i r a w v fuel :
  tracked cls k i r w ->
  db_table w !! (cls, k) = Some a ->
  (i_fields (changed_object r) = v -> v = a) ->
  exists r' w',
    Model_save (S (S fuel)) (mkInstance cls (Some k) v) w = (Ok tt, w')
    /\ tracked cls k i r' w'
    /\ i_fields (changed_object r') = v
    /\ db_table w' = db_table w.
Proof.
  intros Ht Ha Hsame.
  destruct (tr_registered _ _ _ _ _ Ht) as [m Hm].
  destruct (decide (i_fields (changed_object r) = v)) as [Heq | Hne].
  { assert (Hdb : <[(cls, k) := v]> (db_table w) = db_table w)
      by (apply insert_id; rewrite Ha; f_equal; symmetry; auto).
    exists r, (with_db_table <[(cls, k) := v]> (count_mo_save w)).
    split; [| split; [| split]].
    - exact (Model_save_equal_snapshot cls k i r w a m Ht Ha Hm (S fuel) v Heq).
    - eapply tracked_same_record; try exact Ht; try reflexivity.
      world_simpl. rewrite Hdb. apply Ht.
    - done.
    - world_simpl. exact Hdb. }
  destruct (decide (a = v)) as [Hav | Hav].
  - eexists _, _. split; [| split; [| split]].
    + exact (Model_save_same_as_row cls k i r w a v m Ht Ha Hm Hne (S fuel) Hav).
    + eapply tracked_update; try exact Ht; try reflexivity; try apply Ht.
    + done.
    + reflexivity.
  - eexists _, _. split; [| split; [| split]].
    + exact (Model_save_differs cls k i r w a v m Ht Ha Hm Hne fuel Hav).
    + eapply tracked_update; try exact Ht;
        try (destruct (notify_moderator (m_class m)); reflexivity); try apply Ht.
      destruct (notify_moderator (m_class m)); world_simpl; eauto.
    + reflexivity.
    + destruct (notify_moderator (m_class m)); reflexivity.
Qed.

Lemma save_each_keeps_row fuel cls k i a vs : forall r w,
  tracked cls k i r w ->
  db_table w !! (cls, k) = Some a ->
  no_rewrite a (i_fields (changed_object r)) vs ->
  exists w', save_each (S (S fuel)) (map (mkInstance cls (Some k)) vs) w = (Ok tt, w')
             /\ db_table w' = db_table w.
Proof.
  induction vs as [| v vs IH]; intros r w Ht Ha Hnr.
  - exists w. done.
  - destruct Hnr as [Hsame Hnr].
    destruct (Model_save_tracked_step cls k i r a w v fuel Ht Ha Hsame)
      as (r' & w1 & E1 & Ht1 & Hv & Hdb1).
    rewrite <- Hv in Hnr. rewrite <- Hdb1 in Ha.
    destruct (IH r' w1 Ht1 Ha Hnr) as (w' & E' & Hdb').
    exists w'. split; [| congruence].
    cbn [map save_each]. by rewrite (bind_Ok _ _ _ _ _ E1).
Qed.

(** Along the writes the instance stays tracked, and its record holds the
    values written last. *)
Lemma save_each_tracked fuel cls k i a vs : forall r w,
  tracked cls k i r w ->
  db_table w !! (cls, k) = Some a ->
  no_rewrite a (i_fields (changed_object r)) vs ->
  exists r' w', save_each (S (S fuel)) (map (mkInstance cls (Some k)) vs) w = (Ok tt, w')
                /\ tracked cls k i r' w'
                /\ db_table w' = db_table w
                /\ i_fields (changed_object r')
                   = default (i_fields (changed_object r)) (last vs).
Proof.
  induction vs as [| v vs IH]; intros r w Ht Ha Hnr.
  - exists r, w. done.
  - destruct Hnr as [Hsame Hnr].
    destruct (Model_save_tracked_step cls k i r a w v fuel Ht Ha Hsame)
      as (r1 & w1 & E1 & Ht1 & Hv & Hdb1).
    rewrite <- Hv in Hnr. rewrite <- Hdb1 in Ha.
    destruct (IH r1 w1 Ht1 Ha Hnr) as (r' & w' & E' & Ht' & Hdb' & Hlast).
    exists r', w'. split; [| split; [done | split; [congruence |]]].
    + cbn [map save_each]. by rewrite (bind_Ok _ _ _ _ _ E1).
    + rewrite Hlast, Hv, last_cons. by destruct (last vs).
Qed.

Lemma no_rewrite_take a vs : forall c n, no_rewrite a c vs -> no_rewrite a c (take n vs).
Proof.
  induction vs as [| v vs IH]; intros c [| n] H; cbn; try done.
  destruct H as [H1 H2]. split; [done | by apply IH].
Qed.

(** The instance that a creation write has made is tracked, when no record
    of another class is filed under the new primary key. *)
Lemma Model_save_create_tracked cls v m w fuel :
  set_up cls m w ->
  (forall j r', moderated_objects w !! j = Some r' ->
     object_pk r' <> Some (next_pk cls (db_table w))) ->
  let k := next_pk cls (db_table w) in
  tracked cls k (fresh (dom (moderated_objects w)))
          (mo_row (ModeratedObject_new (row_instance cls k v)))
          (exec (Model_save (S fuel) (mkInstance cls None v)) w).
Proof.
  intros Hsu Hnone k.
  assert (Hfresh : forall j r', moderated_objects w !! j = Some r' -> object_pk r' = Some k ->
                     j = fresh (dom (moderated_objects w))).
  { intros j r' Hj Hpk. by destruct (Hnone j r' Hj). }
  assert (E : exists w', Model_save (S fuel) (mkInstance cls None v) w = (Ok tt, w')
              /\ _registered_models w' = _registered_models w
              /\ class_attrs w' = class_attrs w
              /\ pre_save_receivers w' = pre_save_receivers w
              /\ post_save_receivers w' = post_save_receivers w
              /\ db_table w' = <[(cls, k) := v]> (db_table w)
              /\ moderated_objects w'
                 = <[fresh (dom (moderated_objects w))
                     := mo_row (ModeratedObject_new (row_instance cls k v))]>
                     (moderated_objects w)).
  { rewrite Model_save_unfold, bind_gets. cbn [i_class].
    rewrite decide_True by apply Hsu.
    rewrite (bind_Ok _ _ _ _ _ (pre_save_handler_no_pk cls cls v w)).
    rewrite (bind_Ok _ _ _ _ _ (save_base_write_insert cls v w)).
    rewrite bind_gets. cbn [post_save_receivers with_db_table fst snd].
    rewrite decide_True by apply Hsu. fold k.
    erewrite (post_save_handler_created _ cls (row_instance cls k v) k v m); try reflexivity.
    - eexists. split; [reflexivity |].
      destruct (notify_moderator (m_class m)); repeat split.
    - destruct Hsu. by constructor.
    - cbn. apply lookup_insert_eq.
    - cbn. intros j r' Hj [_ Hpk]. by destruct (Hnone j r' Hj). }
  destruct E as (w' & E & E1 & E2 & E3 & E4 & E5 & E6).
  unfold exec. rewrite E. cbn [snd].
  constructor; rewrite ?E1, ?E2, ?E3, ?E4, ?E5, ?E6; try apply Hsu; try reflexivity.
  - destruct Hsu as [Hreg _ _ _ _]. eauto.
  - unfold k, next_pk.
    pose proof (foldr_max_nonneg
                  (map (fun kv : model_class * Z * list (string * value) => snd (fst kv))
                     (filter (fun kv => fst (fst kv) = cls) (map_to_list (db_table w))))) as H.
    lia.
  - rewrite lookup_insert_eq. eauto.
  - repeat split.
    + apply lookup_insert_eq.
    + intros j r' Hj Hpk.
      destruct (decide (j = fresh (dom (moderated_objects w)))) as [| Hne]; [done |].
      rewrite lookup_insert_ne in Hj by done. eauto.
Qed.

(** ** Two levels of nested saves are enough *)

Lemma queryset_get_returns (P : MORow -> Prop) {Pdec : forall r, Decision (P r)} w :
  fst (queryset_get P w) <> OutOfFuel.
Proof.
  destruct (queryset_get P w) as [o w'] eqn:E.
  destruct (queryset_get_inv P _ _ _ E) as [_ H]. by destruct o.
Qed.

Lemma inform_moderator_returns m instance w : fst (inform_moderator m instance w) <> OutOfFuel.
Proof.
  unfold inform_moderator. rewrite bind_modify, bind_gets.
  destruct (notify_moderator (m_class m)); [| done].
  unfold send, bind.
  destruct (moderated_object_property instance (with_informed instance w))
    as [[mo | e |] w1] eqn:E; try done.
  unfold moderated_object_property in E. rewrite bind_gets in E.
  destruct (class_attrs (with_informed instance w) !! (i_class instance, "moderated_object"));
    [| done].
  destruct (class_attrs (with_informed instance w) !! (i_class instance, "_moderated_object"));
    [| done].
  match type of E with queryset_get ?P ?w0 = _ =>
    pose proof (queryset_get_returns P w0) as H; by rewrite E in H end.
Qed.

Lemma pre_save_handler_returns sender instance w :
  fst (pre_save_handler sender instance w) <> OutOfFuel.
Proof.
  unfold pre_save_handler. destruct (pk_truthy _); [| done]. unfold bind.
  destruct (_get_or_create_moderated_object instance w) as [[mobj | e |] w1] eqn:E; try done.
  by destruct (_get_or_create_moderated_object_inv _ _ _ _ E) as [_ ?].
Qed.

(** With such a record the [post_save] handler never calls [save]. *)
Lemma post_save_handler_with_returns save sender instance created w :
  (created = false -> snapshot_is instance w) ->
  fst (post_save_handler_with save sender instance created w) <> OutOfFuel.
Proof.
  intros Hsnap. unfold post_save_handler_with.
  destruct (_registered_models w !! sender) as [m |] eqn:Hm.
  2:{ rewrite (bind_Raise _ _ w KeyError w); [done |].
      unfold registered_models_getitem. by rewrite bind_gets, Hm. }
  rewrite (bind_Ok _ _ _ _ _ (registered_models_getitem_Some _ _ _ Hm)).
  destruct created.
  - unfold bind at 1. destruct (default_manager_get sender (i_pk instance) w)
      as [[old | e |] w1] eqn:E; try done.
    + unfold ModeratedObject_save. rewrite bind_modify. apply inform_moderator_returns.
    + unfold default_manager_get in E. destruct (i_pk instance); [| done].
      by destruct (db_table w !! _).
  - unfold bind at 1.
    destruct (objects_get (i_pk instance) w) as [[mobj | e |] w1] eqn:Eget;
      destruct (queryset_get_inv _ _ _ _ Eget) as [-> Hget]; try done.
    destruct Hget as (i & r & -> & Hsole).
    unfold _is_not_equal_instance. cbn [mo_row].
    rewrite bool_decide_eq_false_2; [done |].
    intros Hne. apply Hne. by apply (Hsnap eq_refl i r).
Qed.

Lemma sole_record_unique (P : MORow -> Prop) i r i' r' (t : gmap nat MORow) :
  sole_record P i r t -> sole_record P i' r' t -> i' = i /\ r' = r.
Proof.
  intros (Hi & HP & Huniq) (Hi' & HP' & _).
  assert (i' = i) as -> by eauto. split; [done | congruence].
Qed.

(** [pre_save] for an instance whose values the record already holds leaves
    the record table as it is. *)
Lemma pre_save_handler_snapshot sender co i r w o w1 :
  sole_record (fun r' => object_pk r' = i_pk co) i r (moderated_objects w) ->
  i_fields (changed_object r) = i_fields co ->
  pre_save_handler sender co w = (o, w1) ->
  o <> OutOfFuel /\ (o = Ok tt -> moderated_objects w1 = moderated_objects w).
Proof.
  intros Hsole Heq E.
  split; [pose proof (pre_save_handler_returns sender co w) as H; by rewrite E in H |].
  intros ->. unfold pre_save_handler in E.
  destruct (pk_truthy (i_pk co)); [| by injection E as <-].
  unfold bind in E.
  destruct (_get_or_create_moderated_object co w) as [[mobj | e |] w0] eqn:Eg;
    destruct (_get_or_create_moderated_object_inv _ _ _ _ Eg) as [-> Hg]; try done.
  destruct Hg as (k & a & Hpk & Ha & [(i1 & r1 & Hid & Hsole1 & Hrow) | [-> Hnone]]);
    rewrite Hpk in Hsole.
  - destruct (sole_record_unique _ _ _ _ _ _ Hsole Hsole1) as [-> ->].
    destruct Hrow as [[Hrow _] | [_ Hne]]; [| done].
    unfold ModeratedObject_save, modify in E. injection E as <-.
    rewrite Hid, Hrow. world_simpl. apply insert_id, Hsole.
  - destruct Hsole as (Hi & HP & _). by destruct (Hnone i r Hi).
Qed.

(** Saving the snapshot that the record of its key holds needs no further
    save. *)
Lemma Model_save_snapshot_returns n co i r w :
  sole_record (fun r' => object_pk r' = i_pk co) i r (moderated_objects w) ->
  i_fields (changed_object r) = i_fields co ->
  fst (Model_save (S n) co w) <> OutOfFuel.
Proof.
  intros Hsole Heq. rewrite Model_save_unfold, bind_gets.
  match goal with |- context [bind (if ?d then ?x else ?y)] =>
    set (pre := if d then x else y) end.
  unfold bind at 1.
  destruct (pre w) as [[[] | e |] w1] eqn:Epre; [| done |].
  2:{ unfold pre in Epre. destruct (decide _); [| done].
      by destruct (pre_save_handler_snapshot _ _ _ _ _ _ _ Hsole Heq Epre). }
  assert (Hmo1 : moderated_objects w1 = moderated_objects w).
  { unfold pre in Epre. destruct (decide _); [| by injection Epre as <-].
    by destruct (pre_save_handler_snapshot _ _ _ _ _ _ _ Hsole Heq Epre) as [_ ->]. }
  clearbody pre. destruct co as [cls [k |] v]; cbn [i_class i_pk i_fields] in *.
  - rewrite (bind_Ok _ _ _ _ _ (save_base_write_Some cls k v w1)).
    rewrite bind_gets. cbn [fst snd].
    destruct (decide _); [| done].
    apply post_save_handler_with_returns. intros _ i' r' Hsole'.
    cbn [i_pk i_fields moderated_objects with_db_table] in *. rewrite Hmo1 in Hsole'.
    by destruct (sole_record_unique _ _ _ _ _ _ Hsole Hsole') as [_ ->].
  - rewrite (bind_Ok _ _ _ _ _ (save_base_write_insert cls v w1)).
    rewrite bind_gets. cbn [fst snd].
    destruct (decide _); [| done].
    by apply post_save_handler_with_returns.
Qed.

Lemma post_save_handler_returns n sender instance created w :
  consistent w ->
  fst (post_save_handler (S n) sender instance created w) <> OutOfFuel.
Proof.
  intros Hc. unfold post_save_handler, post_save_handler_with.
  destruct (_registered_models w !! sender) as [m |] eqn:Hm.
  2:{ rewrite (bind_Raise _ _ w KeyError w); [done |].
      unfold registered_models_getitem. by rewrite bind_gets, Hm. }
  rewrite (bind_Ok _ _ _ _ _ (registered_models_getitem_Some _ _ _ Hm)).
  destruct created.
  - unfold bind at 1. destruct (default_manager_get sender (i_pk instance) w)
      as [[old | e |] w1] eqn:E; try done.
    + unfold ModeratedObject_save. rewrite bind_modify. apply inform_moderator_returns.
    + unfold default_manager_get in E. destruct (i_pk instance); [| done].
      by destruct (db_table w !! _).
  - unfold bind at 1.
    destruct (objects_get (i_pk instance) w) as [[mobj | e |] w1] eqn:Eget;
      destruct (queryset_get_inv _ _ _ _ Eget) as [-> Hget]; try done.
    destruct Hget as (i & r & -> & Hsole).
    destruct (_is_not_equal_instance _ _); [| done].
    cbn [mo_row]. unfold bind at 1.
    assert (Hret : fst (Model_save (S n) (changed_object r) w) <> OutOfFuel).
    { apply (Model_save_snapshot_returns n _ i r); [| done].
      pose proof (cons_pk _ Hc) as Hsnap. destruct Hsole as (Hi & HP & Huniq).
      rewrite (Hsnap i r Hi), HP. repeat split; try done. }
    destruct (Model_save (S n) (changed_object r) w) as [[[] | e |] w1]; try done.
    unfold ModeratedObject_save. rewrite bind_modify. apply inform_moderator_returns.
Qed.

(** Fuel 2 is enough for any save in a consistent world. *)
Lemma Model_save_returns n instance w :
  consistent w -> fst (Model_save (S (S n)) instance w) <> OutOfFuel.
Proof.
  intros Hc. rewrite Model_save_unfold, bind_gets.
  match goal with |- context [bind (if ?d then ?x else ?y)] =>
    set (pre := if d then x else y);
    assert (Hpre : keeps pre)
      by (unfold pre; destruct d;
          [apply keeps_pre_save_handler | by apply keeps_unchanged]);
    assert (Hpre' : fst (pre w) <> OutOfFuel)
      by (unfold pre; destruct d; [apply pre_save_handler_returns | done]) end.
  clearbody pre. unfold bind at 1.
  destruct (pre w) as [[[] | e |] w1] eqn:Epre; try done.
  destruct (Hpre _ _ _ Hc Epre) as [Hc1 _].
  unfold bind at 1.
  destruct (save_base_write instance w1) as [[written | e |] w2] eqn:Ewrite;
    destruct (save_base_write_post _ _ _ _ Hc1 Ewrite) as (Hc2 & _ & inst' & created & Eo & _);
    try done.
  rewrite bind_gets. destruct (decide _); [| done].
  by apply post_save_handler_returns.
Qed.

Lemma save_each_consistent fuel instances : forall w o w',
  consistent w -> save_each fuel instances w = (o, w') -> consistent w'.
Proof.
  induction instances as [| x rest IH]; intros w o w' Hc E; cbn [save_each] in E.
  - by injection E as <- <-.
  - unfold bind in E.
    destruct (Model_save fuel x w) as [[[] | e |] w1] eqn:E1;
      destruct (keeps_Model_save fuel x _ _ _ Hc E1) as [Hc1 _];
      try (by injection E as <- <-). eauto.
Qed.

Lemma save_each_returns n instances : forall w,
  consistent w -> fst (save_each (S (S n)) instances w) <> OutOfFuel.
Proof.
  induction instances as [| x rest IH]; intros w Hc; cbn [save_each]; [done |].
  unfold bind. pose proof (Model_save_returns n x w Hc) as Hret.
  destruct (Model_save (S (S n)) x w) as [[[] | e |] w1] eqn:E1; try done.
  apply IH. by destruct (keeps_Model_save _ x _ _ _ Hc E1).
Qed.

(** ** What a registration sets up *)

(** A registration that succeeds sets the class up: this is where the
    hypotheses of the statements about the handlers come from. *)
Lemma _get_base_managers_pure cls names w :
  exists bm, _get_base_managers cls names w = (Ok bm, w).
Proof.
  induction names as [| manager_name rest [bm IH]]; cbn [_get_base_managers].
  - by eexists.
  - unfold _get_base_manager. unfold bind at 1. rewrite bind_gets.
    destruct (class_attrs w !! (cls, manager_name)) as [[c | |] |];
      cbn [ret]; rewrite (bind_Ok _ _ _ _ _ IH); by eexists.
Qed.

Lemma add_managers_attrs cls bms w :
  exists f, add_managers cls bms w = (Ok tt, with_class_attrs f w).
Proof.
  revert w. induction bms as [| [manager_name mgr_class] rest IH]; intros w;
    cbn [add_managers].
  - exists (fun t => t). by destruct w.
  - unfold add_to_class. rewrite !bind_modify.
    destruct (IH (with_class_attrs <[(cls, manager_name)
                                     := AManager (ModerationObjectsManager mgr_class)]>
                    (with_class_attrs <[(cls, "unmoderated_" ++ manager_name)
                                        := AManager mgr_class]> w))) as [f E].
    rewrite E. eexists (fun t => f (_ (_ t))). reflexivity.
Qed.

Lemma register_fresh cls moderator_class w :
  _registered_models w !! cls = None ->
  subclasses_GenericModerator (default GenericModerator moderator_class) = true ->
  exists m f,
    m_class m = default GenericModerator moderator_class
    /\ register cls moderator_class w
       = (Ok tt,
          with_receivers (union {[cls]}) (union {[cls]})
            (with_class_attrs
               (fun t => <[(cls, "moderated_object") := AProperty]>
                           (<[(cls, "_moderated_object") := AGenericRelation]> (f t)))
               (with_registered_models <[cls := m]> w))).
Proof.
  intros Hnew Hsub. unfold register. rewrite bind_gets.
  rewrite decide_False by (rewrite Hnew; by intros [? ?]).
  rewrite Hsub. cbn [negb]. unfold moderator_init.
  destruct (_get_base_managers_pure cls
              (manager_names (default GenericModerator moderator_class)) w) as [bm Ebm].
  unfold bind at 1. rewrite (bind_Ok _ _ _ _ _ Ebm). cbn [ret].
  rewrite bind_modify.
  set (m := {| m_class := default GenericModerator moderator_class;
               m_model_class := cls; base_managers := bm |}).
  rewrite (bind_Ok _ _ _ m (with_registered_models <[cls := m]> w))
    by (apply registered_models_getitem_Some; cbn; apply lookup_insert_eq).
  unfold _and_fields_to_model_class, _add_moderated_object_to_class, add_to_class,
    _connect_signals. cbn [m_model_class base_managers m].
  destruct (add_managers_attrs cls bm (with_registered_models <[cls := m]> w)) as [f Ef].
  unfold bind at 1. rewrite (bind_Ok _ _ _ _ _ Ef). rewrite !bind_modify.
  exists m, f. split; [done |]. reflexivity.
Qed.

Lemma register_sets_up cls moderator_class w :
  _registered_models w !! cls = None ->
  subclasses_GenericModerator (default GenericModerator moderator_class) = true ->
  exists m, result (register cls moderator_class) w = Ok tt
            /\ m_class m = default GenericModerator moderator_class
            /\ set_up cls m (exec (register cls moderator_class) w).
Proof.
  intros Hnew Hsub.
  destruct (register_fresh cls moderator_class w Hnew Hsub) as (m & f & Hm & E).
  exists m. unfold result, exec. rewrite E. cbn [fst snd].
  split; [done |]. split; [done |].
  constructor; world_simpl.
  - apply lookup_insert_eq.
  - set_solver.
  - set_solver.
  - rewrite lookup_insert_eq. eauto.
  - rewrite lookup_insert_ne by done. rewrite lookup_insert_eq. eauto.
Qed.

(** ** The example worlds *)

Ltac by_computation := apply (bool_decide_unpack _); vm_compute; exact I.

Lemma w_registered_set_up :
  exists m, m_class m = GenericModerator /\ set_up "Page" m w_registered.
Proof.
  eexists. split; [| constructor].
  - shelve.
  - vm_compute. reflexivity.
  - by_computation.
  - by_computation.
  - vm_compute. eauto.
  - vm_compute. eauto.
  Unshelve. reflexivity.
Qed.

Lemma w_created_records : moderated_objects w_created = {[0%nat := record_of (page (Some 1) "A")]}.
Proof. vm_compute. reflexivity. Qed.

Lemma w_edited_records : moderated_objects w_edited = {[0%nat := record_of (page (Some 1) "B")]}.
Proof. vm_compute. reflexivity. Qed.

Lemma w_created_tracked : tracked "Page" 1 0 (record_of (page (Some 1) "A")) w_created.
Proof.
  constructor; try reflexivity; try (vm_compute; eauto; fail);
    try by_computation; try done.
Qed.

(** * The claims *)

(** ** C1: moderated reads *)

(** C1, as stated, fails.  A page is created through the handlers and then
    edited once.  After the edit the row of the table holds the created
    values again and the record holds the edit, so that the moderated read
    gives the created values: values that were written and that no record
    has ever held as Approved. *)
Lemma unapproved_values_are_read_after_an_edit :
  ~ reads_only_approved "Page" 1 [w_registered; w_created; w_edited].
Proof.
  intros H.
  destruct (H 2%nat w_edited [("title", VStr "A")] eq_refl) as (n' & w' & Hn & Hw & Happ).
  { vm_compute. reflexivity. }
  destruct Happ as (i & r & Hi & _ & _ & Hst & _).
  destruct n' as [| [| [| n']]]; cbn in Hw; [| | | lia].
  - injection Hw as <-. vm_compute in Hi. by destruct i.
  - injection Hw as <-. rewrite w_created_records in Hi.
    apply lookup_singleton_Some in Hi as [_ <-]. discriminate Hst.
  - injection Hw as <-. rewrite w_edited_records in Hi.
    apply lookup_singleton_Some in Hi as [_ <-]. discriminate Hst.
Qed.

(** Along that run: nothing is read after the creation, while the record is
    Pending with the values of the row; the created values are read after
    the edit.  When the values that are pending are written a second time
    they stay in the table: the moderated read gives nothing, and the row as
    it was is lost. *)
Lemma moderated_read_along_the_run :
  moderated_read "Page" 1 w_created = None
  /\ moderated_read "Page" 1 w_edited = Some [("title", VStr "A")]
  /\ moderated_objects w_edited !! 0%nat = Some (record_of (page (Some 1) "B"))
  /\ result (Model_save 2 (page (Some 1) "B")) w_edited = Ok tt
  /\ db_table w_edited_again !! ("Page", 1%Z) = Some [("title", VStr "B")]
  /\ moderated_read "Page" 1 w_edited_again = None
  /\ moderated_objects w_edited_again !! 0%nat = Some (record_of (page (Some 1) "B")).
Proof. vm_compute. repeat split. Qed.

(** C1, amended.  Take an instance with a primary key other than 0, of a
    class that is registered and has both signals connected, whose row is
    in the table and under whose primary key exactly one record is stored
    among the records of all the models, the record of that instance
    ([tracked]).  For every sequence of update writes to it in which no
    write repeats the values that the record holds as snapshot when the
    write arrives (the values written just before), unless these are the
    values in the table: every save succeeds, and after each write of the
    sequence the table holds the row as it was before the sequence, the
    [post_save] handler having put it back each time the written values
    differed from the captured snapshot.  So the moderated read gives
    nothing or the values of that row, no other value written in the
    sequence, and it gives the values of that row when the values written
    last differ from them. *)
Theorem updates_expose_no_written_values (fuel : nat) (cls : model_class) (k : Z) (i : nat)
    (r : MORow) (w : World) (a : list (string * value)) (vs : list (list (string * value)))
    (n : nat) :
  tracked cls k i r w ->
  db_table w !! (cls, k) = Some a ->
  no_rewrite a (i_fields (changed_object r)) vs ->
  let writes := map (mkInstance cls (Some k)) (take n vs) in
  let w' := exec (save_each (S (S fuel)) writes) w in
  result (save_each (S (S fuel)) writes) w = Ok tt
  /\ db_table w' !! (cls, k) = Some a
  /\ (forall v, moderated_read cls k w' = Some v -> v = a)
  /\ (forall v, last (take n vs) = Some v -> v <> a -> moderated_read cls k w' = Some a).
Proof.
  intros Ht Ha Hnr writes w'.
  destruct (save_each_tracked fuel cls k i a (take n vs) r w Ht Ha
              (no_rewrite_take a vs _ n Hnr)) as (r' & w1 & E & Ht' & Hdb & Hlast).
  unfold w', writes, result, exec. rewrite E. cbn [fst snd].
  assert (Ha' : db_table w1 !! (cls, k) = Some a) by (by rewrite Hdb).
  split; [done |]. split; [done |]. split.
  - intros v Hv%moderated_read_row. congruence.
  - intros v Hv Hne.
    rewrite (moderated_read_sole cls k i r' a w1 Ha'); [| apply Ht' | apply Ht'].
    rewrite Hv in Hlast. simpl in Hlast.
    rewrite decide_False; [done |]. intros [_ Hsnap]. congruence.
Qed.

Lemma updates_expose_no_written_values_witness :
  result (save_each 2 [page (Some 1) "B"; page (Some 1) "C"]) w_created = Ok tt
  /\ db_table (exec (save_each 2 [page (Some 1) "B"; page (Some 1) "C"]) w_created)
       !! ("Page", 1%Z) = Some [("title", VStr "A")]
  /\ moderated_read "Page" 1
       (exec (save_each 2 [page (Some 1) "B"; page (Some 1) "C"]) w_created)
     = Some [("title", VStr "A")].
Proof.
  destruct (updates_expose_no_written_values 0 "Page" 1 0 (record_of (page (Some 1) "A"))
              w_created [("title", VStr "A")]
              [[("title", VStr "B")]; [("title", VStr "C")]] 2) as (H1 & H2 & _ & H4).
  - exact w_created_tracked.
  - vm_compute. reflexivity.
  - cbn. repeat split; discriminate.
  - split; [exact H1 |]. split; [exact H2 |].
    apply (H4 [("title", VStr "C")]); [reflexivity | discriminate].
Defined.

(** ** C2 and C3: creation *)

(** C2, as stated, fails.  The page is created by a staff member, whom the
    default rules approve, yet the record that [post_save] creates is
    Pending: the handler is given no acting context. *)
Lemma creation_by_staff_is_pending :
  auto_approval_evaluation (rule_set GenericModerator) staff_member
  = MODERATION_STATUS_APPROVED
  /\ result (post_save_handler 1 "Page" (page (Some 1) "A") true) w_written = Ok tt
  /\ moderated_objects (exec (post_save_handler 1 "Page" (page (Some 1) "A") true) w_written)
     !! 0%nat = Some (record_of (page (Some 1) "A")).
Proof. vm_compute. repeat split. Qed.

(** C2, amended.  For every creation write ([post_save] with [created] true)
    of an instance of a registered class, whose row is in the table and which
    has no record yet, a record is created and saved once; its status is
    Pending and its snapshot holds the values of the row, whoever acts;
    [inform_moderator] is called, and the mail to the moderators is sent
    exactly when [notify_moderator] is set. *)
Theorem post_save_creation_makes_pending_record (fuel : nat) (sender : model_class)
    (instance : Instance) (k : Z) (a : list (string * value)) (m : moderator) (w : World) :
  set_up sender m w ->
  i_class instance = sender ->
  i_pk instance = Some k ->
  db_table w !! (sender, k) = Some a ->
  (forall j r', moderated_objects w !! j = Some r' ->
                ~ (content_type r' = sender /\ object_pk r' = Some k)) ->
  let w' := exec (post_save_handler fuel sender instance true) w in
  let new_record := record_of (row_instance sender k a) in
  result (post_save_handler fuel sender instance true) w = Ok tt
  /\ moderated_objects w'
     = <[fresh (dom (moderated_objects w)) := new_record]> (moderated_objects w)
  /\ moderated_objects w !! fresh (dom (moderated_objects w)) = None
  /\ mo_saves w' = S (mo_saves w)
  /\ informed w' = (informed w ++ [instance])%list
  /\ outbox w' = (outbox w ++ (if notify_moderator (m_class m)
                               then [moderator_mail m (MODERATORS w) instance new_record]
                               else []))%list.
Proof.
  intros Hsu Hcls Hpk Ha Hnone w' new_record. unfold w', result, exec, post_save_handler.
  rewrite (post_save_handler_created _ sender instance k a m w Hsu Hcls Hpk Ha Hnone).
  cbn [fst snd]. split; [done |].
  split; [by destruct (notify_moderator (m_class m)) |].
  split; [apply fresh_id_unused |].
  destruct (notify_moderator (m_class m)); repeat split; try done.
  cbn. by rewrite app_nil_r.
Qed.

Lemma post_save_creation_makes_pending_record_witness :
  result (post_save_handler 1 "Page" (page (Some 1) "A") true) w_written = Ok tt
  /\ moderated_objects (exec (post_save_handler 1 "Page" (page (Some 1) "A") true) w_written)
     = <[fresh (dom (moderated_objects w_written)) := record_of (page (Some 1) "A")]>
         (moderated_objects w_written).
Proof.
  destruct w_registered_set_up as (m & _ & Hsu).
  assert (Hsu' : set_up "Page" m w_written) by (destruct Hsu; by constructor).
  destruct (post_save_creation_makes_pending_record 1 "Page" (page (Some 1) "A") 1
              [("title", VStr "A")] m w_written Hsu' eq_refl eq_refl)
    as (H1 & H2 & _).
  - vm_compute. reflexivity.
  - intros j r' Hj. vm_compute in Hj. by destruct j.
  - split; [exact H1 | exact H2].
Defined.

(** C3, as stated, fails.  A staff member, whom the default rules approve,
    creates a page under the default moderator: the record is Pending and
    the moderators get a mail. *)
Lemma creation_by_staff_informs_moderator :
  auto_approval_evaluation (rule_set GenericModerator) staff_member
  = MODERATION_STATUS_APPROVED
  /\ result (Model_save 1 (page None "A")) w_registered = Ok tt
  /\ moderation_status <$> moderated_objects w_created !! 0%nat
     = Some MODERATION_STATUS_PENDING
  /\ mail_recipient_list <$> outbox w_created = [["moderator@example.com"]]
  /\ informed w_created = [page (Some 1) "A"].
Proof. vm_compute. repeat split. Qed.

(** C3, amended.  For every creation write (the save of an instance without
    primary key) in a class registered with a moderator that notifies
    moderators, as the default one does, and whatever the rules would say of
    the actor, the save succeeds, the record is created with status Pending
    and with the written values as snapshot, and one mail goes to the
    moderators. *)
Theorem creation_is_pending_and_notifies (fuel : nat) (cls : model_class)
    (v : list (string * value)) (m : moderator) (w : World) (ctx : acting_context) :
  set_up cls m w ->
  records_refer_to_rows w ->
  notify_moderator (m_class m) = true ->
  auto_approval_evaluation (rule_set (m_class m)) ctx = MODERATION_STATUS_APPROVED ->
  let instance := row_instance cls (next_pk cls (db_table w)) v in
  let w' := exec (Model_save (S fuel) (mkInstance cls None v)) w in
  result (Model_save (S fuel) (mkInstance cls None v)) w = Ok tt
  /\ db_table w' !! (cls, next_pk cls (db_table w)) = Some v
  /\ moderated_objects w' !! fresh (dom (moderated_objects w)) = Some (record_of instance)
  /\ outbox w' = (outbox w ++ [moderator_mail m (MODERATORS w) instance (record_of instance)])%list.
Proof.
  intros Hsu Hrows Hn _ instance w'. unfold w', result, exec.
  rewrite (Model_save_create cls v m w fuel Hsu Hrows), Hn. cbn [fst snd].
  split; [done |]. world_simpl. repeat split.
  - apply lookup_insert_eq.
  - apply lookup_insert_eq.
Qed.

Lemma creation_is_pending_and_notifies_witness :
  result (Model_save 1 (page None "A")) w_registered = Ok tt
  /\ moderated_objects w_created !! 0%nat = Some (record_of (page (Some 1) "A")).
Proof.
  destruct w_registered_set_up as (m & Hm & Hsu).
  destruct (creation_is_pending_and_notifies 0 "Page" [("title", VStr "A")] m w_registered
              staff_member Hsu) as (H1 & _ & H3 & _).
  - intros j r' Hj. vm_compute in Hj. by destruct j.
  - by rewrite Hm.
  - by rewrite Hm.
  - split; [exact H1 | exact H3].
Defined.

(** ** C4: an update that changes the values *)



(** ** C5: record writes and notifications per write *)

(** C5, as stated, fails.  One update write that changes the values saves
    the record three times: once in [pre_save], once in the [pre_save] of
    the save that puts the row back, once in [post_save]. *)
Lemma changing_update_saves_record_three_times :
  result (Model_save 2 (page (Some 1) "B")) w_created = Ok tt
  /\ mo_saves (exec (Model_save 2 (page (Some 1) "B")) w_created) = (3 + mo_saves w_created)%nat
  /\ mo_saves (exec (Model_save 2 (page (Some 1) "B")) w_created) <> S (mo_saves w_created).
Proof. vm_compute. repeat split. discriminate. Qed.

(** C5, amended.  A creation write (the save of an instance without
    primary key, in a class that is registered and has both signals
    connected, every record referring to a row of the table) saves the
    record exactly once and calls [inform_moderator] once.  An update write
    to an instance with a primary key other than 0, of a class that is
    registered and has both signals connected, whose row is in the table
    and under whose primary key exactly one record is stored among the
    records of all the models, the record of that instance ([tracked]),
    saves the record once when the written values equal the snapshot of
    the record or the row, and three times when they differ from both; it
    calls [inform_moderator] once in the latter case and not at all
    otherwise.  When two records are stored under the primary key, the
    update write fails with [MultipleObjectsReturned]: the record is not
    saved and nobody is informed.  No write sends more than one mail. *)
Theorem record_writes_per_save (fuel : nat) (cls : model_class) (k : Z) (i j : nat)
    (r r' : MORow) (m : moderator) (a v : list (string * value)) (w : World) :
  (set_up cls m w -> records_refer_to_rows w ->
   let w' := exec (Model_save (S fuel) (mkInstance cls None v)) w in
   result (Model_save (S fuel) (mkInstance cls None v)) w = Ok tt
   /\ mo_saves w' = S (mo_saves w)
   /\ length (informed w') = S (length (informed w))
   /\ (length (outbox w') <= S (length (outbox w)))%nat)
  /\ (tracked cls k i r w -> db_table w !! (cls, k) = Some a ->
      let w' := exec (Model_save (S (S fuel)) (mkInstance cls (Some k) v)) w in
      let changed := bool_decide (i_fields (changed_object r) <> v /\ a <> v) in
      result (Model_save (S (S fuel)) (mkInstance cls (Some k) v)) w = Ok tt
      /\ mo_saves w' = ((if changed then 3 else 1) + mo_saves w)%nat
      /\ length (informed w') = ((if changed then 1 else 0) + length (informed w))%nat
      /\ (length (outbox w') <= (if changed then 1 else 0) + length (outbox w))%nat)
  /\ (cls ∈ pre_save_receivers w -> k <> 0 -> db_table w !! (cls, k) = Some a ->
      moderated_objects w !! i = Some r -> moderated_objects w !! j = Some r' -> i <> j ->
      object_pk r = Some k -> object_pk r' = Some k ->
      let w' := exec (Model_save (S (S fuel)) (mkInstance cls (Some k) v)) w in
      result (Model_save (S (S fuel)) (mkInstance cls (Some k) v)) w
      = Raise MultipleObjectsReturned
      /\ mo_saves w' = mo_saves w
      /\ informed w' = informed w
      /\ outbox w' = outbox w).
Proof.
  split; [| split].
  - intros Hsu Hrows w'. unfold w', result, exec.
    rewrite (Model_save_create cls v m w fuel Hsu Hrows). cbn [fst snd].
    destruct (notify_moderator (m_class m)); world_simpl;
      rewrite ?length_app; cbn [length]; repeat split; lia.
  - intros Ht Ha w' changed. unfold w', result, exec.
    destruct (tr_registered _ _ _ _ _ Ht) as [m' Hm].
    destruct (decide (i_fields (changed_object r) = v)) as [Heq | Hne].
    { rewrite (Model_save_equal_snapshot cls k i r w a m' Ht Ha Hm (S fuel) v Heq).
      unfold changed. rewrite bool_decide_eq_false_2 by (by intros [? _]).
      cbn [fst snd]. world_simpl. repeat split; lia. }
    destruct (decide (a = v)) as [Hav | Hav].
    { rewrite (Model_save_same_as_row cls k i r w a v m' Ht Ha Hm Hne (S fuel) Hav).
      unfold changed. rewrite bool_decide_eq_false_2 by (by intros [_ ?]).
      cbn [fst snd]. world_simpl. repeat split; lia. }
    rewrite (Model_save_differs cls k i r w a v m' Ht Ha Hm Hne fuel Hav).
    unfold changed. rewrite bool_decide_eq_true_2 by done.
    cbn [fst snd].
    destruct (notify_moderator (m_class m')); world_simpl;
      rewrite ?length_app; cbn [length]; repeat split; lia.
  - intros Hpre Hk Ha Hi Hj Hne Hr Hr' w'. unfold w', result, exec.
    by rewrite (Model_save_shared_key (S fuel) cls k a v i j r r' w).
Qed.

Lemma record_writes_per_save_witness :
  mo_saves w_created = S (mo_saves w_registered)
  /\ mo_saves (exec (Model_save 2 (page (Some 1) "B")) w_created) = (3 + mo_saves w_created)%nat
  /\ mo_saves (exec (Model_save 2 (page (Some 1) "A")) w_created) = (1 + mo_saves w_created)%nat
  /\ mo_saves (exec (Model_save 2 (page (Some 1) "B")) w_two_models)
     = mo_saves w_two_models.
Proof.
  destruct w_registered_set_up as (m & _ & Hsu).
  assert (Hrows : records_refer_to_rows w_registered).
  { intros j r' Hj. vm_compute in Hj. by destruct j. }
  assert (Ha : db_table w_created !! ("Page", 1) = Some [("title", VStr "A")])
    by (vm_compute; reflexivity).
  split; [| split; [| split]].
  - pose proof (proj1 (record_writes_per_save 0 "Page" 1 0 0 (record_of (page (Some 1) "A"))
                         (record_of (page (Some 1) "A")) m
                         [] [("title", VStr "A")] w_registered) Hsu Hrows) as H.
    cbv zeta in H. destruct H as (_ & H & _).
    replace w_created with (exec (Model_save 1 (mkInstance "Page" None [("title", VStr "A")]))
                              w_registered) by (vm_compute; reflexivity).
    exact H.
  - pose proof (proj1 (proj2 (record_writes_per_save 0 "Page" 1 0 0
                         (record_of (page (Some 1) "A")) (record_of (page (Some 1) "A")) m
                         [("title", VStr "A")] [("title", VStr "B")] w_created))
                  w_created_tracked Ha) as H.
    cbv zeta in H. destruct H as (_ & H & _). exact H.
  - pose proof (proj1 (proj2 (record_writes_per_save 0 "Page" 1 0 0
                         (record_of (page (Some 1) "A")) (record_of (page (Some 1) "A")) m
                         [("title", VStr "A")] [("title", VStr "A")] w_created))
                  w_created_tracked Ha) as H.
    cbv zeta in H. destruct H as (_ & H & _). exact H.
  - pose proof (proj2 (proj2 (record_writes_per_save 0 "Page" 1 0 1
                         (record_of (page (Some 1) "A"))
                         (record_of (comment (Some 1) "first")) m
                         [("title", VStr "A")] [("title", VStr "B")] w_two_models))) as H.
    cbv zeta in H. destruct H as (_ & H & _); try done; by_computation.
Defined.

(** ** C6: [post_save] without a captured snapshot *)

(** C6, as stated, fails.  The row of the page is written over without
    [pre_save] having run, so that nothing was captured for this write;
    [post_save] does not fail: it takes the edit in as Pending and writes the
    snapshot it finds in the record, the pending values of the edit before,
    back to the table. *)
Lemma post_save_without_pre_save_succeeds :
  db_table w_unhooked !! ("Page", 1%Z) = Some [("title", VStr "C")]
  /\ moderated_objects w_unhooked !! 0%nat = Some (record_of (page (Some 1) "B"))
  /\ result (post_save_handler 1 "Page" (page (Some 1) "C") false) w_unhooked = Ok tt
  /\ moderated_objects (exec (post_save_handler 1 "Page" (page (Some 1) "C") false) w_unhooked)
     !! 0%nat = Some (record_of (page (Some 1) "C"))
  /\ db_table (exec (post_save_handler 1 "Page" (page (Some 1) "C") false) w_unhooked)
       !! ("Page", 1%Z)
     = Some [("title", VStr "B")].
Proof. vm_compute. repeat split. Qed.

(** C6, amended.  For every [post_save] of an update for which the record
    table holds no record under the primary key of the instance, the
    handler raises [ObjectDoesNotExist] (from the lookup of the record) and
    the world is left as it was; nothing checks that [pre_save] has run for
    the write when a record is there. *)
Theorem post_save_without_record_raises (fuel : nat) (sender : model_class)
    (instance : Instance) (m : moderator) (w : World) :
  _registered_models w !! sender = Some m ->
  (forall j r', moderated_objects w !! j = Some r' -> object_pk r' <> i_pk instance) ->
  post_save_handler fuel sender instance false w = (Raise ObjectDoesNotExist, w).
Proof.
  intros Hm Hnone. unfold post_save_handler, post_save_handler_with.
  rewrite (bind_Ok _ _ _ _ _ (registered_models_getitem_Some _ _ _ Hm)).
  rewrite (bind_Raise _ _ w ObjectDoesNotExist w); [reflexivity |].
  unfold objects_get. by apply queryset_get_none.
Qed.

Lemma post_save_without_record_raises_witness :
  post_save_handler 1 "Page" (page (Some 1) "A") false w_written
  = (Raise ObjectDoesNotExist, w_written).
Proof.
  destruct w_registered_set_up as (m & _ & Hsu).
  apply (post_save_without_record_raises 1 "Page" (page (Some 1) "A") m w_written).
  - apply Hsu.
  - intros j r' Hj. vm_compute in Hj. by destruct j.
Defined.

(** ** C9: one record per instance *)

(** C9, as stated, fails.  A second creation signal for an instance that
    has its record does not resolve to that record: [post_save] makes
    another one for the same class and primary key, and saves it before
    the notification fails on the two records it finds. *)
Lemma second_creation_signal_duplicates_record :
  one_record_per_instance w_created
  /\ result (post_save_handler 2 "Page" (page (Some 1) "A") true) w_created
     = Raise MultipleObjectsReturned
  /\ moderated_objects w_created_twice !! 0%nat = Some (record_of (page (Some 1) "A"))
  /\ moderated_objects w_created_twice !! 1%nat = Some (record_of (page (Some 1) "A"))
  /\ ~ one_record_per_instance w_created_twice.
Proof.
  assert (H0 : moderated_objects w_created_twice !! 0%nat = Some (record_of (page (Some 1) "A")))
    by (vm_compute; reflexivity).
  assert (H1 : moderated_objects w_created_twice !! 1%nat = Some (record_of (page (Some 1) "A")))
    by (vm_compute; reflexivity).
  split; [| split; [| split; [| split]]]; try done.
  - intros i j r r' Hi Hj _ _. rewrite w_created_records in Hi, Hj.
    apply lookup_singleton_Some in Hi as [<- _].
    by apply lookup_singleton_Some in Hj as [<- _].
  - intros H. by specialize (H _ _ _ _ H0 H1 eq_refl eq_refl).
Qed.

(** C9, amended.  From a world in which no instance has two records, every
    record refers to a row and every snapshot carries the primary key of its
    record, any sequence of saves (each one [pre_save], the write, then
    [post_save] with [created] telling whether the row was inserted) runs to
    an outcome with two levels of nested saves, and leads to a world of the
    same kind: no (model class, primary key) pair has two records.  The
    [pre_save] path takes the record that exists for the key; the creation
    branch of [post_save] always makes a record and is only reached for a
    row that was just inserted. *)
Theorem saves_keep_one_record_per_instance (n : nat) (instances : list Instance) (w : World) :
  consistent w ->
  result (save_each (S (S n)) instances) w <> OutOfFuel
  /\ consistent (exec (save_each (S (S n)) instances) w)
  /\ one_record_per_instance (exec (save_each (S (S n)) instances) w).
Proof.
  intros Hc. split; [by apply save_each_returns |].
  assert (Hc' : consistent (exec (save_each (S (S n)) instances) w)).
  { unfold exec. destruct (save_each (S (S n)) instances w) as [o w'] eqn:E.
    by apply (save_each_consistent _ _ _ _ _ Hc E). }
  split; [done | apply Hc'].
Qed.

Lemma saves_keep_one_record_per_instance_witness :
  result (save_each 2 [page None "A"; page (Some 1) "B"; page None "C"]) w_registered
  <> OutOfFuel
  /\ one_record_per_instance
       (exec (save_each 2 [page None "A"; page (Some 1) "B"; page None "C"]) w_registered).
Proof.
  assert (Hc : consistent w_registered).
  { constructor; intros j; intros; exfalso;
      match goal with H : moderated_objects w_registered !! j = Some _ |- _ =>
        vm_compute in H; by destruct j end. }
  destruct (saves_keep_one_record_per_instance 0
              [page None "A"; page (Some 1) "B"; page None "C"] w_registered Hc)
    as (H1 & _ & H3).
  split; [exact H1 | exact H3].
Defined.

(** ** C10: the before-write hook without primary key *)

(** C10.  On an instance whose primary key is unset the [pre_save] handler
    does nothing at all: it returns normally and the world is the same (no
    [ModeratedObject] is read, created or saved, no snapshot is taken). *)
Theorem pre_save_unset_pk_no_effect (sender : model_class) (instance : Instance) (w : World) :
  i_pk instance = None ->
  pre_save_handler sender instance w = (Ok tt, w).
Proof. intros Hpk. unfold pre_save_handler. rewrite Hpk. reflexivity. Qed.

Lemma pre_save_unset_pk_no_effect_witness :
  i_pk (page None "A") = None
  /\ pre_save_handler "Page" (page None "A") w_created = (Ok tt, w_created).
Proof.
  split; [reflexivity | apply (pre_save_unset_pk_no_effect "Page" (page None "A")); reflexivity].
Defined.


(** * Further properties of the manager *)

(** ** Registration and its errors *)

(** X1.  Registering a model class with a moderator class that does not
    derive from [GenericModerator] raises [AttributeError], and nothing has
    changed when it does. *)
Theorem register_foreign_moderator_raises (cls : model_class) (mc : moderator_class)
    (w : World) :
  _registered_models w !! cls = None ->
  subclasses_GenericModerator mc = false ->
  register cls (Some mc) w = (Raise AttributeError, w).
Proof.
  intros Hnew Hsub. unfold register. rewrite bind_gets.
  rewrite decide_False by (rewrite Hnew; by intros [? ?]).
  change (default GenericModerator (Some mc)) with mc. rewrite Hsub. reflexivity.
Qed.

Lemma register_foreign_moderator_raises_witness :
  register "Page" (Some ForeignModerator) empty_world = (Raise AttributeError, empty_world).
Proof.
  apply (register_foreign_moderator_raises "Page" ForeignModerator empty_world);
    reflexivity.
Defined.

(** X3.  Unregistering a model class that is not registered raises
    [RegistrationError] (the [KeyError] of the dictionary is turned into
    it), and nothing has changed. *)
Theorem unregister_unknown_raises (cls : model_class) (w : World) :
  _registered_models w !! cls = None ->
  unregister cls w = (Raise RegistrationError, w).
Proof. intros Hnew. unfold unregister. rewrite bind_gets, Hnew. reflexivity. Qed.

Lemma unregister_unknown_raises_witness :
  unregister "Page" empty_world = (Raise RegistrationError, empty_world).
Proof. apply (unregister_unknown_raises "Page" empty_world). reflexivity. Defined.

(** X5.  [unregister] is not all-or-nothing: the class is taken out of the
    registry first, so when the class no longer has the [unmoderated_]
    attribute of its first manager, [AttributeError] is raised with the
    class already unregistered and its signals still connected. *)
Theorem unregister_fails_half_way (cls : model_class) (m : moderator)
    (manager_name : string) (c : manager_class) (rest : list (string * manager_class))
    (w : World) :
  _registered_models w !! cls = Some m ->
  m_model_class m = cls ->
  base_managers m = (manager_name, c) :: rest ->
  class_attrs w !! (cls, "unmoderated_" ++ manager_name) = None ->
  let w' := exec (unregister cls) w in
  result (unregister cls) w = Raise AttributeError
  /\ _registered_models w' = delete cls (_registered_models w)
  /\ _registered_models w' !! cls = None
  /\ class_attrs w' = class_attrs w
  /\ pre_save_receivers w' = pre_save_receivers w
  /\ post_save_receivers w' = post_save_receivers w.
Proof.
  intros Hm Hcls Hbm Hattr w'.
  assert (E : unregister cls w = (Raise AttributeError, with_registered_models (delete cls) w)).
  { unfold unregister. rewrite bind_gets, Hm, bind_modify.
    unfold _remove_fields. rewrite Hcls, Hbm. cbn [remove_managers].
    unfold delattr at 1. unfold bind at 1. unfold bind at 1. unfold bind at 1.
    rewrite bind_gets. world_simpl. rewrite Hattr. reflexivity. }
  unfold w', result, exec. rewrite E. cbn [fst snd]. world_simpl.
  repeat split. apply lookup_delete_eq.
Qed.

Lemma unregister_fails_half_way_witness :
  result (unregister "Page") w_broken_class = Raise AttributeError
  /\ _registered_models (exec (unregister "Page") w_broken_class) !! "Page" = None
  /\ pre_save_receivers (exec (unregister "Page") w_broken_class)
     = pre_save_receivers w_broken_class.
Proof.
  destruct w_registered_set_up as (m & Hm & Hsu).
  assert (Hreg : _registered_models w_broken_class !! "Page"
                 = Some {| m_class := GenericModerator; m_model_class := "Page";
                           base_managers := [("objects", Manager)] |})
    by (vm_compute; reflexivity).
  destruct (unregister_fails_half_way "Page" _ "objects" Manager [] w_broken_class Hreg
              eq_refl eq_refl) as (H1 & _ & H3 & _ & H5 & _).
  - vm_compute. reflexivity.
  - split; [exact H1 | split; [exact H3 | exact H5]].
Defined.

(** ** The handlers at the edges *)

(** X7.  Saving an instance with a primary key that has no row, in a class
    whose [pre_save] is connected, fails: the lookup of the persisted
    instance in [_get_or_create_moderated_object] stands outside the [try],
    so [ObjectDoesNotExist] leaves the handler, and the row is not
    written. *)
Theorem save_with_unknown_key_raises (fuel : nat) (cls : model_class) (k : Z)
    (v : list (string * value)) (w : World) :
  cls ∈ pre_save_receivers w ->
  k <> 0 ->
  db_table w !! (cls, k) = None ->
  Model_save (S fuel) (mkInstance cls (Some k) v) w = (Raise ObjectDoesNotExist, w).
Proof.
  intros Hpre Hk Hrow. rewrite Model_save_unfold, bind_gets. cbn [i_class].
  rewrite decide_True by done.
  apply bind_Raise. unfold pre_save_handler. cbn [i_pk pk_truthy].
  replace (k =? 0)%Z with false by (symmetry; by apply Z.eqb_neq). cbn [negb].
  apply bind_Raise. unfold _get_or_create_moderated_object. cbn [i_pk i_class].
  apply bind_Raise. by apply default_manager_get_missing.
Qed.

Lemma save_with_unknown_key_raises_witness :
  Model_save 1 (page (Some 5) "E") w_created = (Raise ObjectDoesNotExist, w_created).
Proof.
  apply (save_with_unknown_key_raises 0 "Page" 5 [("title", VStr "E")] w_created).
  - apply w_created_tracked.
  - done.
  - vm_compute. reflexivity.
Defined.

(** X8.  Records are looked up by primary key alone.  When two records are
    filed under the primary key of the instance (two moderated models whose
    instances share a key), an update is refused in [pre_save] with
    [MultipleObjectsReturned], which the [except ObjectDoesNotExist] does
    not catch, and nothing is written. *)
Theorem update_with_shared_key_raises (fuel : nat) (cls : model_class) (k : Z)
    (a v : list (string * value)) (i j : nat) (r r' : MORow) (w : World) :
  cls ∈ pre_save_receivers w ->
  k <> 0 ->
  db_table w !! (cls, k) = Some a ->
  moderated_objects w !! i = Some r ->
  moderated_objects w !! j = Some r' ->
  i <> j ->
  object_pk r = Some k ->
  object_pk r' = Some k ->
  Model_save (S fuel) (mkInstance cls (Some k) v) w = (Raise MultipleObjectsReturned, w).
Proof. exact (Model_save_shared_key fuel cls k a v i j r r' w). Qed.

Lemma update_with_shared_key_raises_witness :
  moderated_objects w_two_models !! 0%nat = Some (record_of (page (Some 1) "A"))
  /\ moderated_objects w_two_models !! 1%nat = Some (record_of (comment (Some 1) "first"))
  /\ Model_save 1 (page (Some 1) "B") w_two_models
     = (Raise MultipleObjectsReturned, w_two_models).
Proof.
  assert (H0 : moderated_objects w_two_models !! 0%nat = Some (record_of (page (Some 1) "A")))
    by (vm_compute; reflexivity).
  assert (H1 : moderated_objects w_two_models !! 1%nat
               = Some (record_of (comment (Some 1) "first")))
    by (vm_compute; reflexivity).
  split; [exact H0 | split; [exact H1 |]].
  apply (update_with_shared_key_raises 0 "Page" 1 [("title", VStr "A")] [("title", VStr "B")]
           0 1 (record_of (page (Some 1) "A")) (record_of (comment (Some 1) "first"))
           w_two_models); done.
Defined.

(** X14.  A primary key 0 is a key to the table but false to
    [if instance.pk:].  For a row with key 0 that has no record, [pre_save]
    does not create one; the update is written to the table and [post_save]
    then raises [ObjectDoesNotExist]. *)
Theorem update_of_key_zero_is_written_then_raises (fuel : nat) (cls : model_class)
    (m : moderator) (a v : list (string * value)) (w : World) :
  set_up cls m w ->
  db_table w !! (cls, 0) = Some a ->
  (forall j r', moderated_objects w !! j = Some r' -> object_pk r' <> Some 0) ->
  Model_save (S fuel) (mkInstance cls (Some 0) v) w
  = (Raise ObjectDoesNotExist, with_db_table <[(cls, 0) := v]> w).
Proof.
  intros Hsu Ha Hnone. rewrite Model_save_unfold, bind_gets. cbn [i_class].
  rewrite decide_True by apply Hsu.
  rewrite (bind_Ok _ _ w tt w) by reflexivity.
  rewrite (bind_Ok _ _ _ _ _ (save_base_write_update cls 0 v w (ex_intro _ a Ha))).
  rewrite bind_gets. cbn [post_save_receivers with_db_table fst snd].
  rewrite decide_True by apply Hsu.
  unfold post_save_handler_with.
  rewrite (bind_Ok _ _ _ m (with_db_table <[(cls, 0) := v]> w))
    by (apply registered_models_getitem_Some; apply Hsu).
  apply bind_Raise. unfold objects_get. by apply queryset_get_none.
Qed.

Lemma update_of_key_zero_is_written_then_raises_witness :
  result (Model_save 1 (page (Some 0) "Y")) w_legacy = Raise ObjectDoesNotExist
  /\ db_table (exec (Model_save 1 (page (Some 0) "Y")) w_legacy) !! ("Page", 0%Z)
     = Some [("title", VStr "Y")].
Proof.
  assert (Hnew : _registered_models
                   (with_db_table (fun t => <[("Page", 0) := [("title", VStr "Z")]]>
                                              (<[("Page", 7) := [("title", VStr "L")]]> t))
                      empty_world) !! "Page" = None) by reflexivity.
  destruct (register_sets_up "Page" None _ Hnew eq_refl) as (m & _ & _ & Hsu).
  fold w_legacy in Hsu.
  assert (E := update_of_key_zero_is_written_then_raises 0 "Page" m [("title", VStr "Z")]
                 [("title", VStr "Y")] w_legacy Hsu).
  unfold result, exec, page. rewrite E.
  - split; [reflexivity |]. cbn. apply lookup_insert_eq.
  - vm_compute. reflexivity.
  - intros j r' Hj. vm_compute in Hj. by destruct j.
Defined.

(** X15.  When the signals of a class are connected but the class is not in
    the registry (as after an [unregister] that failed half way), the save
    of a new instance writes the row and then fails in [post_save] with
    [KeyError]: no record is made for the row. *)
Theorem save_of_unregistered_class_raises (fuel : nat) (cls : model_class)
    (v : list (string * value)) (w : World) :
  cls ∈ pre_save_receivers w ->
  cls ∈ post_save_receivers w ->
  _registered_models w !! cls = None ->
  Model_save (S fuel) (mkInstance cls None v) w
  = (Raise KeyError, with_db_table <[(cls, next_pk cls (db_table w)) := v]> w).
Proof.
  intros Hpre Hpost Hreg. rewrite Model_save_unfold, bind_gets. cbn [i_class].
  rewrite decide_True by done.
  rewrite (bind_Ok _ _ _ _ _ (pre_save_handler_no_pk cls cls v w)).
  rewrite (bind_Ok _ _ _ _ _ (save_base_write_insert cls v w)).
  rewrite bind_gets. cbn [post_save_receivers with_db_table fst snd].
  rewrite decide_True by done.
  unfold post_save_handler_with. apply bind_Raise.
  unfold registered_models_getitem. rewrite bind_gets. world_simpl. by rewrite Hreg.
Qed.

Lemma save_of_unregistered_class_raises_witness :
  result (Model_save 1 (page None "A")) (exec (unregister "Page") w_broken_class)
  = Raise KeyError
  /\ moderated_objects (exec (Model_save 1 (page None "A"))
                          (exec (unregister "Page") w_broken_class)) = ∅.
Proof.
  set (w0 := exec (unregister "Page") w_broken_class).
  assert (E : Model_save 1 (page None "A") w0
              = (Raise KeyError,
                 with_db_table <[("Page", next_pk "Page" (db_table w0))
                                 := [("title", VStr "A")]]> w0)).
  { apply (save_of_unregistered_class_raises 0 "Page" [("title", VStr "A")] w0).
    - by_computation.
    - by_computation.
    - vm_compute. reflexivity. }
  unfold result, exec. rewrite E. split; [reflexivity |]. vm_compute. reflexivity.
Defined.

(** ** The two handlers on an instance that has a row *)

Lemma w_edited_tracked : tracked "Page" 1 0 (record_of (page (Some 1) "B")) w_edited.
Proof.
  constructor; try reflexivity; try (vm_compute; eauto; fail);
    try by_computation; try done.
Qed.

(** X11.  In [pre_save], for an instance that has a row and one record, the
    record is saved once and only its snapshot can change: it keeps the
    snapshot it has when that has the values of the instance, and takes the
    persisted row otherwise (a pending edit with other values is no longer
    in the record).  The status, the table of the model and the outbox are
    as before. *)
Theorem pre_save_captures_the_row (sender cls : model_class) (k : Z) (i : nat)
    (r : MORow) (a v : list (string * value)) (w : World) :
  k <> 0 ->
  db_table w !! (cls, k) = Some a ->
  sole_record (fun r' => object_pk r' = Some k) i r (moderated_objects w) ->
  let w' := exec (pre_save_handler sender (mkInstance cls (Some k) v)) w in
  let snapshot := if decide (i_fields (changed_object r) = v)
                  then changed_object r else row_instance cls k a in
  result (pre_save_handler sender (mkInstance cls (Some k) v)) w = Ok tt
  /\ moderated_objects w' = <[i := snapshot_row r snapshot]> (moderated_objects w)
  /\ db_table w' = db_table w
  /\ outbox w' = outbox w
  /\ informed w' = informed w
  /\ mo_saves w' = S (mo_saves w).
Proof.
  intros Hk Ha Hr w' snapshot. unfold w', result, exec, snapshot.
  rewrite (pre_save_handler_existing sender cls k v i r a w Hk Ha Hr). cbn [fst snd].
  world_simpl. repeat split.
  destruct (decide (i_fields (changed_object r) = v)); [| done]. by destruct r.
Qed.

Lemma pre_save_captures_the_row_witness :
  moderated_objects w_edited !! 0%nat = Some (record_of (page (Some 1) "B"))
  /\ moderated_objects (exec (pre_save_handler "Page" (page (Some 1) "C")) w_edited)
     = <[0%nat := record_of (page (Some 1) "A")]> (moderated_objects w_edited).
Proof.
  split; [vm_compute; reflexivity |].
  destruct (pre_save_captures_the_row "Page" "Page" 1 0 (record_of (page (Some 1) "B"))
              [("title", VStr "A")] [("title", VStr "C")] w_edited) as (_ & H & _).
  - done.
  - vm_compute. reflexivity.
  - apply w_edited_tracked.
  - exact H.
Defined.

(** X10.  Take an instance with a primary key other than 0, of a class
    that is registered and has both signals connected, whose row is in the
    table and under whose primary key exactly one record is stored among
    the records of all the models, the record of that instance.  An update
    of it with the values that the record holds as snapshot is not held
    back: the save succeeds, the written values are in the table (the row
    as it was is not kept anywhere), the records, the status included, are
    as before, and nobody is informed.  The moderated read then gives the
    written values when the record is Approved and nothing when it is
    Pending or Rejected. *)
Theorem update_equal_to_snapshot_is_written (fuel : nat) (cls : model_class) (k : Z)
    (i : nat) (r : MORow) (v : list (string * value)) (w : World) :
  tracked cls k i r w ->
  i_fields (changed_object r) = v ->
  let w' := exec (Model_save (S fuel) (mkInstance cls (Some k) v)) w in
  result (Model_save (S fuel) (mkInstance cls (Some k) v)) w = Ok tt
  /\ db_table w' !! (cls, k) = Some v
  /\ moderated_read cls k w'
     = (if decide (moderation_status r = MODERATION_STATUS_APPROVED) then Some v else None)
  /\ moderated_objects w' = moderated_objects w
  /\ outbox w' = outbox w
  /\ informed w' = informed w.
Proof.
  intros Ht Heq w'. unfold w', result, exec.
  destruct (tr_row _ _ _ _ _ Ht) as [a Ha].
  destruct (tr_registered _ _ _ _ _ Ht) as [m Hm].
  rewrite (Model_save_equal_snapshot cls k i r w a m Ht Ha Hm fuel v Heq). cbn [fst snd].
  set (w1 := with_db_table <[(cls, k) := v]> (count_mo_save w)).
  assert (Hv : db_table w1 !! (cls, k) = Some v) by apply lookup_insert_eq.
  split; [done |]. split; [exact Hv |]. split; [| done].
  rewrite (moderated_read_sole cls k i r v w1 Hv); [| apply Ht | apply Ht].
  destruct (decide (moderation_status r = MODERATION_STATUS_APPROVED)) as [Hst | Hst].
  - rewrite decide_False; [done |]. by intros [? _].
  - by rewrite decide_True.
Qed.

Lemma update_equal_to_snapshot_is_written_witness :
  db_table w_edited !! ("Page", 1%Z) = Some [("title", VStr "A")]
  /\ db_table (exec (Model_save 1 (page (Some 1) "B")) w_edited) !! ("Page", 1%Z)
     = Some [("title", VStr "B")]
  /\ moderated_read "Page" 1 (exec (Model_save 1 (page (Some 1) "B")) w_edited) = None
  /\ moderated_objects (exec (Model_save 1 (page (Some 1) "B")) w_edited)
     = moderated_objects w_edited.
Proof.
  split; [vm_compute; reflexivity |].
  destruct (update_equal_to_snapshot_is_written 0 "Page" 1 0 _ [("title", VStr "B")]
              w_edited w_edited_tracked eq_refl) as (_ & H2 & H3 & H4 & _).
  split; [exact H2 | split; [exact H3 | exact H4]].
Defined.

(** ** Notifications *)

Lemma send_delivers content_object subject_template message_template recipients i r w :
  is_Some (class_attrs w !! (i_class content_object, "moderated_object")) ->
  is_Some (class_attrs w !! (i_class content_object, "_moderated_object")) ->
  sole_record (fun r' => content_type r' = i_class content_object
                         /\ object_pk r' = i_pk content_object) i r (moderated_objects w) ->
  send content_object subject_template message_template recipients w
  = (Ok tt, with_outbox {| mail_subject_template := subject_template;
                           mail_message_template := message_template;
                           mail_recipient_list := recipients;
                           mail_content_object := content_object;
                           mail_moderated_object := r |} w).
Proof.
  intros [a1 H1] [a2 H2] Hsole. unfold send.
  rewrite (bind_Ok _ _ w {| mo_id := Some i; mo_row := r |} w); [reflexivity |].
  unfold moderated_object_property. rewrite bind_gets, H1, H2.
  by apply queryset_get_sole.
Qed.

Lemma send_without_record content_object subject_template message_template recipients w :
  is_Some (class_attrs w !! (i_class content_object, "moderated_object")) ->
  is_Some (class_attrs w !! (i_class content_object, "_moderated_object")) ->
  (forall j r', moderated_objects w !! j = Some r' ->
     ~ (content_type r' = i_class content_object /\ object_pk r' = i_pk content_object)) ->
  send content_object subject_template message_template recipients w
  = (Raise ObjectDoesNotExist, w).
Proof.
  intros [a1 H1] [a2 H2] Hnone. unfold send. apply bind_Raise.
  unfold moderated_object_property. rewrite bind_gets, H1, H2.
  by apply queryset_get_none.
Qed.

(** X13.  [send] needs the [ModeratedObject] of the object it writes about:
    when the object has none, [ObjectDoesNotExist] is raised, and when its
    class has no [moderated_object] property (it is not registered),
    [AttributeError]; in both cases no mail is sent and nothing changes. *)
Theorem send_needs_the_record (content_object : Instance)
    (subject_template message_template : string) (recipients : list string) (w : World) :
  (is_Some (class_attrs w !! (i_class content_object, "moderated_object")) ->
   is_Some (class_attrs w !! (i_class content_object, "_moderated_object")) ->
   (forall j r', moderated_objects w !! j = Some r' ->
      ~ (content_type r' = i_class content_object /\ object_pk r' = i_pk content_object)) ->
   send content_object subject_template message_template recipients w
   = (Raise ObjectDoesNotExist, w))
  /\ (class_attrs w !! (i_class content_object, "moderated_object") = None ->
      send content_object subject_template message_template recipients w
      = (Raise AttributeError, w)).
Proof.
  split; [apply send_without_record |].
  intros Hnone. unfold send. apply bind_Raise.
  unfold moderated_object_property. rewrite bind_gets, Hnone. reflexivity.
Qed.

Lemma send_needs_the_record_witness :
  send (page (Some 7) "L") "subject.txt" "message.txt" ["a@example.com"] w_legacy
  = (Raise ObjectDoesNotExist, w_legacy)
  /\ send (page (Some 7) "L") "subject.txt" "message.txt" ["a@example.com"] empty_world
     = (Raise AttributeError, empty_world).
Proof.
  split.
  - apply (proj1 (send_needs_the_record (page (Some 7) "L") "subject.txt" "message.txt"
                    ["a@example.com"] w_legacy)).
    + vm_compute. eauto.
    + vm_compute. eauto.
    + intros j r' Hj. vm_compute in Hj. by destruct j.
  - apply (proj2 (send_needs_the_record (page (Some 7) "L") "subject.txt" "message.txt"
                    ["a@example.com"] empty_world)).
    reflexivity.
Defined.

(** X12.  [inform_user], for an object whose class has the
    [moderated_object] property and the generic relation.  Given as
    [extra_context] a true object without an [update] method, it raises
    [AttributeError] before [notify_user] is read, and nothing is sent or
    changed.  Given a dict that is not empty, it sets the key ['user'] in
    the caller's dict, whatever [notify_user] is and whatever the outcome;
    given [None], an empty dict or another false object, it leaves the
    caller's object as it is.  In these cases, with [notify_user] unset
    nothing is looked up and the call returns; with [notify_user] set one
    mail goes to the address of the user alone, with the user templates,
    when the object has one record, and [ObjectDoesNotExist] is raised,
    with no mail, when it has none. *)
Theorem inform_user_mails_the_user (self : moderator) (content_object : Instance)
    (user : User) (extra_context : extra_context_arg) (i : nat) (r : MORow) (w : World) :
  is_Some (class_attrs w !! (i_class content_object, "moderated_object")) ->
  is_Some (class_attrs w !! (i_class content_object, "_moderated_object")) ->
  inform_user self content_object user (ExtraOther true) w
  = (Raise AttributeError, w, ExtraOther true)
  /\ (extra_context <> ExtraOther true ->
      snd (inform_user self content_object user extra_context w)
      = match extra_context with
        | ExtraDict d =>
            if decide (d = ∅) then ExtraDict d else ExtraDict (<["user" := CUser user]> d)
        | _ => extra_context
        end
      /\ (notify_user (m_class self) = false ->
          fst (inform_user self content_object user extra_context w) = (Ok tt, w))
      /\ (notify_user (m_class self) = true ->
          sole_record (fun r' => content_type r' = i_class content_object
                                 /\ object_pk r' = i_pk content_object) i r
                      (moderated_objects w) ->
          fst (inform_user self content_object user extra_context w)
          = (Ok tt,
             with_outbox {| mail_subject_template := subject_template_user (m_class self);
                            mail_message_template := message_template_user (m_class self);
                            mail_recipient_list := [email user];
                            mail_content_object := content_object;
                            mail_moderated_object := r |} w))
      /\ (notify_user (m_class self) = true ->
          (forall j r', moderated_objects w !! j = Some r' ->
             ~ (content_type r' = i_class content_object
                /\ object_pk r' = i_pk content_object)) ->
          fst (inform_user self content_object user extra_context w)
          = (Raise ObjectDoesNotExist, w))).
Proof.
  intros H1 H2. split; [reflexivity |]. intros Hextra.
  set (notify := if notify_user (m_class self)
                 then send content_object (subject_template_user (m_class self))
                        (message_template_user (m_class self)) [email user]
                 else ret tt).
  assert (E : inform_user self content_object user extra_context w
              = (notify w,
                 match extra_context with
                 | ExtraDict d =>
                     if decide (d = ∅) then ExtraDict d
                     else ExtraDict (<["user" := CUser user]> d)
                 | _ => extra_context
                 end)).
  { unfold inform_user. fold notify.
    destruct extra_context as [| d | []]; cbn [extra_context_truthy]; try done.
    destruct (decide (d = ∅)) as [Hd | Hd].
    - by rewrite bool_decide_eq_true_2.
    - by rewrite bool_decide_eq_false_2. }
  rewrite E. cbn [fst snd]. unfold notify. repeat split.
  - by intros ->.
  - intros -> Hsole. by apply (send_delivers _ _ _ _ i r).
  - intros -> Hnone. by apply send_without_record.
Qed.

Lemma inform_user_mails_the_user_witness :
  snd (inform_user {| m_class := GenericModerator; m_model_class := "Page";
                      base_managers := [("objects", Manager)] |}
                   (page (Some 1) "A") author
                   (ExtraDict {["reason" := CValue (VStr "spam")]}) w_created)
  = ExtraDict (<["user" := CUser author]> {["reason" := CValue (VStr "spam")]})
  /\ mail_recipient_list
       <$> outbox (snd (fst (inform_user {| m_class := GenericModerator;
                                            m_model_class := "Page";
                                            base_managers := [("objects", Manager)] |}
                                         (page (Some 1) "A") author
                                         (ExtraDict {["reason" := CValue (VStr "spam")]})
                                         w_created)))
     = ((mail_recipient_list <$> outbox w_created) ++ [["author@example.com"]])%list.
Proof.
  set (m := {| m_class := GenericModerator; m_model_class := "Page";
               base_managers := [("objects", Manager)] |}).
  set (d := ({["reason" := CValue (VStr "spam")]} : gmap string context_value)).
  destruct (inform_user_mails_the_user m (page (Some 1) "A") author (ExtraDict d) 0
              (record_of (page (Some 1) "A")) w_created) as (_ & H).
  - apply w_created_tracked.
  - apply w_created_tracked.
  - destruct H as (Hd & _ & Hmail & _); [discriminate |].
    split.
    + rewrite Hd. rewrite decide_False; [done |].
      intros Hempty. apply (f_equal (fun t => t !! "reason")) in Hempty.
      unfold d in Hempty. by rewrite lookup_singleton_eq, lookup_empty in Hempty.
    + rewrite Hmail.
      * cbn [snd]. world_simpl. by rewrite fmap_app.
      * reflexivity.
      * eapply sole_record_weaken; [apply w_created_tracked | done | by intros r' [_ ?]].
Defined.

(** ** The first update of a row that was there before the registration *)

Lemma first_update_effect (fuel : nat) (cls : model_class) (k : Z)
    (a v : list (string * value)) (m : moderator) (w : World) :
  set_up cls m w ->
  k <> 0 ->
  db_table w !! (cls, k) = Some a ->
  (forall j r', moderated_objects w !! j = Some r' -> object_pk r' <> Some k) ->
  let instance := mkInstance cls (Some k) v in
  let w' := exec (Model_save (S (S fuel)) instance) w in
  result (Model_save (S (S fuel)) instance) w = Ok tt
  /\ db_table w' !! (cls, k) = Some a
  /\ moderated_objects w'
     = <[fresh (dom (moderated_objects w)) := record_of instance]> (moderated_objects w)
  /\ informed w' = (informed w ++ (if decide (a = v) then [] else [instance]))%list
  /\ mo_saves w' = ((if decide (a = v) then 1 else 3) + mo_saves w)%nat.
Proof.
  intros Hsu Hk Ha Hnone instance w'.
  set (new := fresh (dom (moderated_objects w))).
  set (r1 := record_of (row_instance cls k a)).
  set (w1 := count_mo_save (with_moderated_objects <[new := r1]> w)).
  set (w2 := with_db_table <[(cls, k) := v]> w1).
  assert (Ht2 : tracked cls k new r1 w2).
  { destruct Hsu. constructor; try done.
    - unfold w2, w1. world_simpl. rewrite lookup_insert_eq. eauto.
    - unfold w2, w1. world_simpl. repeat split.
      + apply lookup_insert_eq.
      + intros j r' Hj Hpk. destruct (decide (j = new)) as [| Hne]; [done |].
        rewrite lookup_insert_ne in Hj by done. by destruct (Hnone j r' Hj). }
  assert (Hm2 : _registered_models w2 !! cls = Some m) by apply Hsu.
  assert (E : Model_save (S (S fuel)) instance w
              = post_save_handler (S fuel) cls instance false w2).
  { unfold instance. rewrite Model_save_unfold, bind_gets. cbn [i_class].
    rewrite decide_True by apply Hsu.
    rewrite (bind_Ok _ _ _ _ _ (pre_save_handler_first cls cls k v a w Hk Ha Hnone)).
    fold new. change (mo_row (ModeratedObject_new (row_instance cls k a))) with r1.
    fold w1.
    rewrite (bind_Ok _ _ _ _ _ (save_base_write_update cls k v w1 (ex_intro _ a Ha))).
    rewrite bind_gets. cbn [fst snd]. fold w2.
    rewrite decide_True by apply Hsu. reflexivity. }
  unfold w', result, exec. rewrite E.
  destruct (decide (a = v)) as [Hav | Hav].
  - unfold post_save_handler.
    rewrite (post_save_handler_unchanged _ cls instance k new r1 m w2 Hm2 eq_refl
               (tr_record _ _ _ _ _ Ht2) Hav).
    cbn [fst snd]. unfold w2, w1. world_simpl. repeat split.
    + rewrite lookup_insert_eq. by rewrite Hav.
    + unfold r1, instance. by rewrite Hav.
    + by rewrite app_nil_r.
  - unfold instance.
    rewrite (post_save_handler_differs cls k new r1 w2 m v fuel Ht2 Hm2 Hav).
    cbn [fst snd]. unfold w2, w1.
    destruct (notify_moderator (m_class m)); world_simpl; repeat split.
    all: try apply lookup_insert_eq; try (by rewrite insert_insert_eq).
Qed.

(** X9.  Take a row with a primary key other than 0, in a class that is
    registered and has both signals connected, when no record of any model
    is stored under that primary key (the row was there before the
    registration).  The first update of the row through the handlers
    succeeds, with two levels of nested saves: [pre_save] makes the record
    from the persisted row, and after [post_save] the table holds the row
    as it was, the one new record holds the written values and is Pending,
    and the moderator has been informed when the values differ from the row
    (the record was saved three times then, once otherwise).  The moderated
    read then gives the row as it was when the written values differ from
    it, and nothing when they are the same: saving the row unchanged takes
    it out of the moderated read. *)
Theorem first_update_of_existing_row (fuel : nat) (cls : model_class) (k : Z)
    (a v : list (string * value)) (m : moderator) (w : World) :
  set_up cls m w ->
  k <> 0 ->
  db_table w !! (cls, k) = Some a ->
  (forall j r', moderated_objects w !! j = Some r' -> object_pk r' <> Some k) ->
  let instance := mkInstance cls (Some k) v in
  let w' := exec (Model_save (S (S fuel)) instance) w in
  result (Model_save (S (S fuel)) instance) w = Ok tt
  /\ db_table w' !! (cls, k) = Some a
  /\ moderated_read cls k w' = (if decide (a = v) then None else Some a)
  /\ moderated_objects w'
     = <[fresh (dom (moderated_objects w)) := record_of instance]> (moderated_objects w)
  /\ informed w' = (informed w ++ (if decide (a = v) then [] else [instance]))%list
  /\ mo_saves w' = ((if decide (a = v) then 1 else 3) + mo_saves w)%nat.
Proof.
  intros Hsu Hk Ha Hnone instance w'.
  destruct (first_update_effect fuel cls k a v m w Hsu Hk Ha Hnone)
    as (H1 & H2 & H3 & H4 & H5).
  fold instance in H1, H2, H3, H4, H5. fold w' in H2, H3, H4, H5.
  split; [exact H1 |]. split; [exact H2 |]. split; [| done].
  assert (Hsole : sole_record (fun r' => object_pk r' = Some k)
                    (fresh (dom (moderated_objects w))) (record_of instance)
                    (moderated_objects w')).
  { rewrite H3. repeat split.
    - apply lookup_insert_eq.
    - intros j r' Hj Hpk.
      destruct (decide (j = fresh (dom (moderated_objects w)))) as [| Hne]; [done |].
      rewrite lookup_insert_ne in Hj by done. by destruct (Hnone j r' Hj). }
  rewrite (moderated_read_sole cls k _ _ a w' H2 Hsole eq_refl).
  cbn [record_of moderation_status changed_object instance i_fields].
  destruct (decide (a = v)) as [Hav | Hav].
  - by rewrite decide_True.
  - rewrite decide_False; [done |]. intros [_ Hva]. by apply Hav.
Qed.

Lemma first_update_of_existing_row_witness :
  result (Model_save 2 (page (Some 7) "M")) w_legacy = Ok tt
  /\ db_table (exec (Model_save 2 (page (Some 7) "M")) w_legacy) !! ("Page", 7%Z)
     = Some [("title", VStr "L")]
  /\ moderated_read "Page" 7 (exec (Model_save 2 (page (Some 7) "M")) w_legacy)
     = Some [("title", VStr "L")]
  /\ moderated_objects (exec (Model_save 2 (page (Some 7) "M")) w_legacy)
     = <[fresh (dom (moderated_objects w_legacy)) := record_of (page (Some 7) "M")]>
         (moderated_objects w_legacy).
Proof.
  assert (Hnew : _registered_models
                   (with_db_table (fun t => <[("Page", 0) := [("title", VStr "Z")]]>
                                              (<[("Page", 7) := [("title", VStr "L")]]> t))
                      empty_world) !! "Page" = None) by reflexivity.
  destruct (register_sets_up "Page" None _ Hnew eq_refl) as (m & _ & _ & Hsu).
  fold w_legacy in Hsu.
  destruct (first_update_of_existing_row 0 "Page" 7 [("title", VStr "L")]
              [("title", VStr "M")] m w_legacy Hsu) as (H1 & H2 & H3 & H4 & _).
  - done.
  - vm_compute. reflexivity.
  - intros j r' Hj. vm_compute in Hj. by destruct j.
  - split; [exact H1 | split; [exact H2 | split; [| exact H4]]].
    cbv zeta in H3. by rewrite decide_False in H3.
Defined.

(** ** What registration does to the class, and unregistration undoes *)

Lemma unmoderated_inj n n' : "unmoderated_" ++ n = "unmoderated_" ++ n' -> n = n'.
Proof. intros H. injection H as E. exact E. Qed.

Lemma _get_base_managers_eq cls names w :
  _get_base_managers cls names w
  = (Ok (map (fun n => (n, base_manager_class (class_attrs w) cls n)) names), w).
Proof.
  induction names as [| n rest IH]; cbn [_get_base_managers map]; [reflexivity |].
  assert (E : _get_base_manager cls n w = (Ok (base_manager_class (class_attrs w) cls n), w)).
  { unfold _get_base_manager, base_manager_class. rewrite bind_gets.
    by destruct (class_attrs w !! (cls, n)) as [[c | |] |]. }
  rewrite (bind_Ok _ _ _ _ _ E), (bind_Ok _ _ _ _ _ IH). reflexivity.
Qed.

Lemma add_managers_eq cls bms : forall w,
  add_managers cls bms w = (Ok tt, with_class_attrs (managers_added cls bms) w).
Proof.
  induction bms as [| [n c] rest IH]; intros w; cbn [add_managers].
  - apply (f_equal (pair (Ok tt))). apply World_ext; reflexivity.
  - unfold add_to_class. rewrite !bind_modify, IH.
    apply (f_equal (pair (Ok tt))). apply World_ext; reflexivity.
Qed.

Lemma delattr_present cls name a w :
  class_attrs w !! (cls, name) = Some a ->
  delattr cls name w = (Ok tt, with_class_attrs (delete (cls, name)) w).
Proof. intros H. unfold delattr. by rewrite bind_gets, H. Qed.

Lemma managers_added_cons cls bm rest t :
  managers_added cls (bm :: rest) t
  = managers_added cls rest
      (<[(cls, fst bm) := AManager (ModerationObjectsManager (snd bm))]>
         (<[(cls, "unmoderated_" ++ fst bm) := AManager (snd bm)]> t)).
Proof. reflexivity. Qed.

Lemma managers_removed_cons cls bm rest t :
  managers_removed cls (bm :: rest) t
  = managers_removed cls rest
      (<[(cls, fst bm) := AManager (snd bm)]> (delete (cls, "unmoderated_" ++ fst bm) t)).
Proof. reflexivity. Qed.

Section manager_names.
Context (cls : model_class) (b : string -> manager_class).

Local Abbreviation with_bases := (map (fun n => (n, b n))).

Lemma managers_added_other bms key : forall t,
  (forall bm, bm ∈ bms -> key <> (cls, fst bm) /\ key <> (cls, "unmoderated_" ++ fst bm)) ->
  managers_added cls bms t !! key = t !! key.
Proof.
  induction bms as [| bm rest IH]; intros t Hkey; [reflexivity |].
  rewrite managers_added_cons.
  rewrite IH by (intros bm' Hbm'; apply Hkey; by right).
  destruct (Hkey bm) as [H1 H2]; [by left |].
  by rewrite !lookup_insert_ne.
Qed.

Lemma managers_removed_other bms key : forall t,
  (forall bm, bm ∈ bms -> key <> (cls, fst bm) /\ key <> (cls, "unmoderated_" ++ fst bm)) ->
  managers_removed cls bms t !! key = t !! key.
Proof.
  induction bms as [| bm rest IH]; intros t Hkey; [reflexivity |].
  rewrite managers_removed_cons.
  rewrite IH by (intros bm' Hbm'; apply Hkey; by right).
  destruct (Hkey bm) as [H1 H2]; [by left |].
  by rewrite lookup_insert_ne, lookup_delete_ne.
Qed.

Lemma with_bases_elem (names : list string) bm : bm ∈ with_bases names -> fst bm ∈ names.
Proof.
  intros H%list_elem_of_In%in_map_iff. destruct H as (n & <- & Hn).
  by apply list_elem_of_In.
Qed.

Lemma name_apart (names : list string) n n' :
  (forall n1 n2, n1 ∈ names -> n2 ∈ names -> n1 <> "unmoderated_" ++ n2) ->
  n ∈ names -> n' ∈ names -> n <> n' ->
  ((cls, n) : model_class * string) <> (cls, n')
  /\ ((cls, n) : model_class * string) <> (cls, "unmoderated_" ++ n')
  /\ ((cls, "unmoderated_" ++ n) : model_class * string) <> (cls, n')
  /\ ((cls, "unmoderated_" ++ n) : model_class * string) <> (cls, "unmoderated_" ++ n').
Proof.
  intros Hind Hn Hn' Hne. repeat split; intros [= E].
  - done.
  - by apply (Hind n n').
  - by apply (Hind n' n).
  - apply Hne. exact E.
Qed.

Lemma managers_added_lookup (names : list string) n : forall t,
  (forall n1 n2, n1 ∈ names -> n2 ∈ names -> n1 <> "unmoderated_" ++ n2) ->
  n ∈ names ->
  managers_added cls (with_bases names) t !! (cls, n)
  = Some (AManager (ModerationObjectsManager (b n)))
  /\ managers_added cls (with_bases names) t !! (cls, "unmoderated_" ++ n)
     = Some (AManager (b n)).
Proof.
  induction names as [| n0 rest IH]; intros t Hind Hn; [by apply elem_of_nil in Hn |].
  cbn [map]. rewrite managers_added_cons.
  destruct (decide (n ∈ rest)) as [Hin | Hnotin].
  { apply IH; [| done]. intros n1 n2 H1 H2. apply Hind; by right. }
  apply elem_of_cons in Hn as [-> | Hn]; [| done].
  assert (Hne : forall bm, bm ∈ with_bases rest -> n0 <> fst bm).
  { intros bm Hbm%with_bases_elem ->. done. }
  assert (Hin' : forall bm, bm ∈ with_bases rest -> fst bm ∈ n0 :: rest).
  { intros bm Hbm%with_bases_elem. by right. }
  assert (H0 : n0 ∈ n0 :: rest) by by left.
  split.
  - rewrite managers_added_other.
    + cbn [fst snd]. apply lookup_insert_eq.
    + intros bm Hbm.
      destruct (name_apart _ n0 (fst bm) Hind H0 (Hin' bm Hbm) (Hne bm Hbm)) as (? & ? & _).
      done.
  - rewrite managers_added_other.
    + cbn [fst snd]. rewrite lookup_insert_ne, lookup_insert_eq; [done |].
      intros [= E]. by apply (Hind n0 n0).
    + intros bm Hbm.
      destruct (name_apart _ n0 (fst bm) Hind H0 (Hin' bm Hbm) (Hne bm Hbm))
        as (_ & _ & ? & ?).
      done.
Qed.

Lemma managers_removed_lookup (names : list string) n : forall t,
  (forall n1 n2, n1 ∈ names -> n2 ∈ names -> n1 <> "unmoderated_" ++ n2) ->
  n ∈ names ->
  managers_removed cls (with_bases names) t !! (cls, n) = Some (AManager (b n))
  /\ managers_removed cls (with_bases names) t !! (cls, "unmoderated_" ++ n) = None.
Proof.
  induction names as [| n0 rest IH]; intros t Hind Hn; [by apply elem_of_nil in Hn |].
  cbn [map]. rewrite managers_removed_cons.
  destruct (decide (n ∈ rest)) as [Hin | Hnotin].
  { apply IH; [| done]. intros n1 n2 H1 H2. apply Hind; by right. }
  apply elem_of_cons in Hn as [-> | Hn]; [| done].
  assert (Hne : forall bm, bm ∈ with_bases rest -> n0 <> fst bm).
  { intros bm Hbm%with_bases_elem ->. done. }
  assert (Hin' : forall bm, bm ∈ with_bases rest -> fst bm ∈ n0 :: rest).
  { intros bm Hbm%with_bases_elem. by right. }
  assert (H0 : n0 ∈ n0 :: rest) by by left.
  split.
  - rewrite managers_removed_other.
    + cbn [fst snd]. apply lookup_insert_eq.
    + intros bm Hbm.
      destruct (name_apart _ n0 (fst bm) Hind H0 (Hin' bm Hbm) (Hne bm Hbm)) as (? & ? & _).
      done.
  - rewrite managers_removed_other.
    + cbn [fst snd]. rewrite lookup_insert_ne, lookup_delete_eq; [done |].
      intros [= E]. by apply (Hind n0 n0).
    + intros bm Hbm.
      destruct (name_apart _ n0 (fst bm) Hind H0 (Hin' bm Hbm) (Hne bm Hbm))
        as (_ & _ & ? & ?).
      done.
Qed.

(** The loop of [_remove_fields] goes through when each manager still has
    its [unmoderated_] attribute and no name comes twice. *)
Lemma remove_managers_eq (names : list string) : forall w,
  NoDup names ->
  (forall n1 n2, n1 ∈ names -> n2 ∈ names -> n1 <> "unmoderated_" ++ n2) ->
  (forall n, n ∈ names -> is_Some (class_attrs w !! (cls, "unmoderated_" ++ n))) ->
  remove_managers cls (with_bases names) w
  = (Ok tt, with_class_attrs (managers_removed cls (with_bases names)) w).
Proof.
  induction names as [| n0 rest IH]; intros w Hnd Hind Hattr; cbn [map remove_managers].
  - apply (f_equal (pair (Ok tt))). apply World_ext; reflexivity.
  - apply NoDup_cons in Hnd as [Hn0 Hnd].
    destruct (Hattr n0) as [a0 Ha0]; [by left |].
    rewrite (bind_Ok _ _ _ _ _ (delattr_present _ _ _ _ Ha0)).
    unfold add_to_class. rewrite bind_modify, IH; try done.
    + intros n1 n2 H1 H2. apply Hind; by right.
    + intros n Hn. world_simpl.
      assert (Hne : n0 <> n) by (by intros ->).
      destruct (name_apart (n0 :: rest) n0 n Hind ltac:(by left) ltac:(by right) Hne)
        as (_ & H2 & _ & H4).
      rewrite lookup_insert_ne by done.
      rewrite lookup_delete_ne by done. apply Hattr. by right.
Qed.
End manager_names.

Lemma register_eq cls moderator_class w :
  _registered_models w !! cls = None ->
  subclasses_GenericModerator (default GenericModerator moderator_class) = true ->
  let mc := default GenericModerator moderator_class in
  let bms := map (fun n => (n, base_manager_class (class_attrs w) cls n)) (manager_names mc) in
  let m := {| m_class := mc; m_model_class := cls; base_managers := bms |} in
  register cls moderator_class w
  = (Ok tt,
     with_receivers (union {[cls]}) (union {[cls]})
       (with_class_attrs
          (fun t => <[(cls, "moderated_object") := AProperty]>
                      (<[(cls, "_moderated_object") := AGenericRelation]>
                         (managers_added cls bms t)))
          (with_registered_models <[cls := m]> w))).
Proof.
  intros Hnew Hsub mc bms m. unfold register. rewrite bind_gets.
  rewrite decide_False by (rewrite Hnew; by intros [? ?]).
  rewrite Hsub. cbn [negb]. unfold moderator_init.
  unfold bind at 1. rewrite (bind_Ok _ _ _ _ _ (_get_base_managers_eq cls _ w)).
  cbn [ret]. fold mc. fold bms. fold m. rewrite bind_modify.
  rewrite (bind_Ok _ _ _ m (with_registered_models <[cls := m]> w))
    by (apply registered_models_getitem_Some; cbn; apply lookup_insert_eq).
  set (w0 := with_registered_models <[cls := m]> w).
  assert (E : _and_fields_to_model_class m w0
              = (Ok tt, with_class_attrs
                          (fun t => <[(cls, "moderated_object") := AProperty]>
                                      (<[(cls, "_moderated_object") := AGenericRelation]>
                                         (managers_added cls bms t))) w0)).
  { unfold _and_fields_to_model_class. cbn [m_model_class base_managers m].
    rewrite (bind_Ok _ _ _ _ _ (add_managers_eq cls bms w0)).
    unfold _add_moderated_object_to_class, add_to_class. rewrite bind_modify.
    apply (f_equal (pair (Ok tt))). apply World_ext; reflexivity. }
  rewrite (bind_Ok _ _ _ _ _ E). reflexivity.
Qed.

Lemma unregister_eq cls (m : moderator) b (names : list string) w :
  _registered_models w !! cls = Some m ->
  m_model_class m = cls ->
  base_managers m = map (fun n => (n, b n)) names ->
  NoDup names ->
  independent_names names ->
  (forall n, n ∈ names -> is_Some (class_attrs w !! (cls, "unmoderated_" ++ n))) ->
  is_Some (class_attrs w !! (cls, "moderated_object")) ->
  unregister cls w
  = (Ok tt,
     with_receivers (fun s => s ∖ {[cls]}) (fun s => s ∖ {[cls]})
       (with_class_attrs
          (fun t => delete (cls, "moderated_object")
                      (managers_removed cls (map (fun n => (n, b n)) names) t))
          (with_registered_models (delete cls) w))).
Proof.
  intros Hm Hcls Hbm Hnd (Hind & Hmo & _) Hattr [a Ha].
  unfold unregister. rewrite bind_gets, Hm, bind_modify.
  set (w0 := with_registered_models (delete cls) w).
  assert (E : _remove_fields m w0
              = (Ok tt, with_class_attrs
                          (fun t => delete (cls, "moderated_object")
                                      (managers_removed cls (map (fun n => (n, b n)) names) t))
                          w0)).
  { unfold _remove_fields. rewrite Hcls, Hbm.
    rewrite (bind_Ok _ _ _ _ _ (remove_managers_eq cls b names w0 Hnd Hind Hattr)).
    erewrite delattr_present.
    - apply (f_equal (pair (Ok tt))). apply World_ext; reflexivity.
    - world_simpl. rewrite managers_removed_other; [exact Ha |].
      intros bm Hbm'%with_bases_elem.
      split; [intros [= E]; apply Hmo; by rewrite E | by intros [= E]]. }
  rewrite (bind_Ok _ _ _ _ _ E). reflexivity.
Qed.

Lemma register_effect (cls : model_class)
    (moderator_class : option moderator_class) (w : World) :
  _registered_models w !! cls = None ->
  subclasses_GenericModerator (default GenericModerator moderator_class) = true ->
  independent_names (manager_names (default GenericModerator moderator_class)) ->
  let mc := default GenericModerator moderator_class in
  let base := base_manager_class (class_attrs w) cls in
  let w' := exec (register cls moderator_class) w in
  result (register cls moderator_class) w = Ok tt
  /\ _registered_models w' !! cls
     = Some {| m_class := mc; m_model_class := cls;
               base_managers := map (fun n => (n, base n)) (manager_names mc) |}
  /\ (forall n, n ∈ manager_names mc ->
        class_attrs w' !! (cls, n) = Some (AManager (ModerationObjectsManager (base n)))
        /\ class_attrs w' !! (cls, "unmoderated_" ++ n) = Some (AManager (base n)))
  /\ class_attrs w' !! (cls, "moderated_object") = Some AProperty
  /\ class_attrs w' !! (cls, "_moderated_object") = Some AGenericRelation
  /\ cls ∈ pre_save_receivers w'
  /\ cls ∈ post_save_receivers w'.
Proof.
  intros Hnew Hsub (Hind & Hmo & Hrel) mc base w'. unfold w', result, exec.
  rewrite (register_eq cls moderator_class w Hnew Hsub). cbn [fst snd]. world_simpl.
  split; [done |]. split; [apply lookup_insert_eq |].
  split; [| split; [apply lookup_insert_eq | split; [| split; set_solver]]].
  - intros n Hn.
    destruct (managers_added_lookup cls base (manager_names mc) n (class_attrs w) Hind Hn)
      as [H1 H2].
    split.
    + rewrite !lookup_insert_ne; [exact H1 | |]; intros [= E]; subst n; done.
    + rewrite !lookup_insert_ne; [exact H2 | |]; intros [= E]; discriminate E.
  - rewrite lookup_insert_ne by done. apply lookup_insert_eq.
Qed.

(** X2.  A first registration of a class, with a moderator class that
    derives from [GenericModerator] and whose manager names do not get in
    each other's way, succeeds.  The registry then holds a moderator for
    the class with the base managers found on the class ([Manager] for a
    name the class does not have); for each manager name the class has the
    moderated manager built on the base under that name and the base
    manager under [unmoderated_<name>]; the class has the
    [moderated_object] property and the generic relation; both signals are
    connected. *)
Theorem register_installs_managers (cls : model_class)
    (moderator_class : option moderator_class) (w : World) :
  _registered_models w !! cls = None ->
  subclasses_GenericModerator (default GenericModerator moderator_class) = true ->
  independent_names (manager_names (default GenericModerator moderator_class)) ->
  let mc := default GenericModerator moderator_class in
  let base := base_manager_class (class_attrs w) cls in
  let w' := exec (register cls moderator_class) w in
  result (register cls moderator_class) w = Ok tt
  /\ _registered_models w' !! cls
     = Some {| m_class := mc; m_model_class := cls;
               base_managers := map (fun n => (n, base n)) (manager_names mc) |}
  /\ (forall n, n ∈ manager_names mc ->
        class_attrs w' !! (cls, n) = Some (AManager (ModerationObjectsManager (base n)))
        /\ class_attrs w' !! (cls, "unmoderated_" ++ n) = Some (AManager (base n)))
  /\ class_attrs w' !! (cls, "moderated_object") = Some AProperty
  /\ class_attrs w' !! (cls, "_moderated_object") = Some AGenericRelation
  /\ cls ∈ pre_save_receivers w'
  /\ cls ∈ post_save_receivers w'.
Proof. exact (register_effect cls moderator_class w). Qed.

Lemma register_installs_managers_witness :
  class_attrs w_registered !! ("Page", "objects")
  = Some (AManager (ModerationObjectsManager Manager))
  /\ class_attrs w_registered !! ("Page", "unmoderated_objects") = Some (AManager Manager).
Proof.
  destruct (register_installs_managers "Page" None empty_world) as (_ & _ & H & _).
  - reflexivity.
  - reflexivity.
  - repeat split.
    + intros n n' Hn%list_elem_of_singleton Hn'%list_elem_of_singleton. by subst.
    + by intros Hn%list_elem_of_singleton.
    + by intros Hn%list_elem_of_singleton.
  - apply (H "objects"). by apply list_elem_of_singleton.
Defined.

Lemma receivers_round_trip (cls : model_class) (s : gset model_class) :
  ({[cls]} ∪ s) ∖ {[cls]} = s ∖ {[cls]}.
Proof.
  apply set_eq. intros x.
  rewrite !elem_of_difference, elem_of_union, elem_of_singleton. tauto.
Qed.

Lemma receivers_of_another (cls cls' : model_class) (s : gset model_class) :
  cls' <> cls -> cls' ∈ {[cls]} ∪ s <-> cls' ∈ s.
Proof. intros Hne. rewrite elem_of_union, elem_of_singleton. tauto. Qed.

(** X17.  A registration that succeeds touches the registered class alone:
    the attributes, the registry entry and the signal connections of every
    other class are as before, and so are the table of the models, the
    records and the outbox. *)
Theorem register_touches_one_class (cls cls' : model_class)
    (moderator_class : option moderator_class) (w : World) :
  _registered_models w !! cls = None ->
  subclasses_GenericModerator (default GenericModerator moderator_class) = true ->
  cls' <> cls ->
  let w' := exec (register cls moderator_class) w in
  (forall name, class_attrs w' !! (cls', name) = class_attrs w !! (cls', name))
  /\ _registered_models w' !! cls' = _registered_models w !! cls'
  /\ (cls' ∈ pre_save_receivers w' <-> cls' ∈ pre_save_receivers w)
  /\ (cls' ∈ post_save_receivers w' <-> cls' ∈ post_save_receivers w)
  /\ db_table w' = db_table w
  /\ moderated_objects w' = moderated_objects w
  /\ outbox w' = outbox w.
Proof.
  intros Hnew Hsub Hne w'. unfold w', exec.
  rewrite (register_eq cls moderator_class w Hnew Hsub). cbn [snd]. world_simpl.
  split; [| split; [by rewrite lookup_insert_ne |]].
  2: { split; [by apply receivers_of_another |].
       split; [by apply receivers_of_another | done]. }
  intros name. rewrite !lookup_insert_ne by congruence.
  apply managers_added_other. intros bm _. split; congruence.
Qed.

Lemma register_touches_one_class_witness :
  class_attrs (exec (register "Comment" None) w_created) !! ("Page", "objects")
  = class_attrs w_created !! ("Page", "objects")
  /\ moderated_objects (exec (register "Comment" None) w_created) = moderated_objects w_created.
Proof.
  destruct (register_touches_one_class "Comment" "Page" None w_created)
    as (H1 & _ & _ & _ & _ & H6 & _).
  - vm_compute. reflexivity.
  - reflexivity.
  - discriminate.
  - split; [apply H1 | exact H6].
Defined.

(** What the world is after a registration followed by the unregistration. *)
Lemma register_then_unregister_eq cls moderator_class w :
  _registered_models w !! cls = None ->
  subclasses_GenericModerator (default GenericModerator moderator_class) = true ->
  NoDup (manager_names (default GenericModerator moderator_class)) ->
  independent_names (manager_names (default GenericModerator moderator_class)) ->
  let mc := default GenericModerator moderator_class in
  let bms := map (fun n => (n, base_manager_class (class_attrs w) cls n)) (manager_names mc) in
  let m := {| m_class := mc; m_model_class := cls; base_managers := bms |} in
  unregister cls (exec (register cls moderator_class) w)
  = (Ok tt,
     with_receivers (fun s => s ∖ {[cls]}) (fun s => s ∖ {[cls]})
       (with_class_attrs
          (fun t => delete (cls, "moderated_object") (managers_removed cls bms t))
          (with_registered_models (delete cls) (exec (register cls moderator_class) w)))).
Proof.
  intros Hnew Hsub Hnd Hind mc bms m.
  destruct (register_effect cls moderator_class w Hnew Hsub Hind)
    as (_ & Hreg & Hattrs & Hprop & _).
  apply (unregister_eq cls m (base_manager_class (class_attrs w) cls) (manager_names mc));
    try done.
  intros n Hn. destruct (Hattrs n Hn) as [_ ->]. eauto.
Qed.

Lemma register_then_unregister_effect cls moderator_class w :
  _registered_models w !! cls = None ->
  subclasses_GenericModerator (default GenericModerator moderator_class) = true ->
  NoDup (manager_names (default GenericModerator moderator_class)) ->
  independent_names (manager_names (default GenericModerator moderator_class)) ->
  let names := manager_names (default GenericModerator moderator_class) in
  let base := base_manager_class (class_attrs w) cls in
  let w1 := exec (register cls moderator_class) w in
  let w2 := exec (unregister cls) w1 in
  result (unregister cls) w1 = Ok tt
  /\ _registered_models w2 = _registered_models w
  /\ pre_save_receivers w2 = pre_save_receivers w ∖ {[cls]}
  /\ post_save_receivers w2 = post_save_receivers w ∖ {[cls]}
  /\ (forall n, n ∈ names ->
        class_attrs w2 !! (cls, n) = Some (AManager (base n))
        /\ class_attrs w2 !! (cls, "unmoderated_" ++ n) = None)
  /\ class_attrs w2 !! (cls, "moderated_object") = None
  /\ class_attrs w2 !! (cls, "_moderated_object") = Some AGenericRelation
  /\ db_table w2 = db_table w
  /\ moderated_objects w2 = moderated_objects w.
Proof.
  intros Hnew Hsub Hnd Hind names base w1 w2.
  pose proof (register_then_unregister_eq cls moderator_class w Hnew Hsub Hnd Hind) as E.
  cbv zeta in E. fold w1 in E.
  assert (E1 : class_attrs w1
               = <[(cls, "moderated_object") := AProperty]>
                   (<[(cls, "_moderated_object") := AGenericRelation]>
                      (managers_added cls (map (fun n => (n, base n)) names) (class_attrs w)))
               /\ _registered_models w1
                  = <[cls := {| m_class := default GenericModerator moderator_class;
                                m_model_class := cls;
                                base_managers := map (fun n => (n, base n)) names |}]>
                      (_registered_models w)
               /\ pre_save_receivers w1 = {[cls]} ∪ pre_save_receivers w
               /\ post_save_receivers w1 = {[cls]} ∪ post_save_receivers w
               /\ db_table w1 = db_table w
               /\ moderated_objects w1 = moderated_objects w).
  { unfold w1, exec. rewrite (register_eq cls moderator_class w Hnew Hsub). done. }
  destruct E1 as (A1 & A2 & A3 & A4 & A5 & A6).
  unfold w2, result, exec. rewrite E. cbn [fst snd]. world_simpl.
  rewrite A1, A2, A3, A4, A5, A6.
  destruct Hind as (Hind & Hmo & Hrel).
  split; [done |]. split; [by apply delete_insert_id |].
  split; [apply receivers_round_trip |]. split; [apply receivers_round_trip |].
  split; [| split; [apply lookup_delete_eq | split; [| done]]].
  - intros n Hn.
    destruct (managers_removed_lookup cls base names n
                (<[(cls, "moderated_object") := AProperty]>
                   (<[(cls, "_moderated_object") := AGenericRelation]>
                      (managers_added cls (map (fun n => (n, base n)) names) (class_attrs w))))
                Hind Hn) as [H1 H2].
    split.
    + rewrite lookup_delete_ne; [exact H1 |]. intros [= Ea]. apply Hmo. by rewrite Ea.
    + rewrite lookup_delete_ne; [exact H2 |]. by intros [= Ea].
  - rewrite lookup_delete_ne by done. rewrite managers_removed_other.
    + rewrite lookup_insert_ne by done. apply lookup_insert_eq.
    + intros bm Hbm%with_bases_elem.
      split; [intros [= Ea]; apply Hrel; by rewrite Ea | by intros [= Ea]].
Qed.

(** X4.  Unregistering a class right after its registration (manager names
    without repetition) succeeds and undoes part of it: the registry is as
    before the registration, the signals of the class are disconnected, the
    [unmoderated_] attributes and the [moderated_object] property are gone,
    and every manager name holds the base manager again (also a name that
    the class did not have before).  The generic relation
    [_moderated_object] stays on the class.  The tables are untouched. *)
Theorem register_then_unregister (cls : model_class)
    (moderator_class : option moderator_class) (w : World) :
  _registered_models w !! cls = None ->
  subclasses_GenericModerator (default GenericModerator moderator_class) = true ->
  NoDup (manager_names (default GenericModerator moderator_class)) ->
  independent_names (manager_names (default GenericModerator moderator_class)) ->
  let names := manager_names (default GenericModerator moderator_class) in
  let base := base_manager_class (class_attrs w) cls in
  let w1 := exec (register cls moderator_class) w in
  let w2 := exec (unregister cls) w1 in
  result (unregister cls) w1 = Ok tt
  /\ _registered_models w2 = _registered_models w
  /\ pre_save_receivers w2 = pre_save_receivers w ∖ {[cls]}
  /\ post_save_receivers w2 = post_save_receivers w ∖ {[cls]}
  /\ (forall n, n ∈ names ->
        class_attrs w2 !! (cls, n) = Some (AManager (base n))
        /\ class_attrs w2 !! (cls, "unmoderated_" ++ n) = None)
  /\ class_attrs w2 !! (cls, "moderated_object") = None
  /\ class_attrs w2 !! (cls, "_moderated_object") = Some AGenericRelation
  /\ db_table w2 = db_table w
  /\ moderated_objects w2 = moderated_objects w.
Proof. exact (register_then_unregister_effect cls moderator_class w). Qed.

Lemma register_then_unregister_witness :
  result (unregister "Page") w_registered = Ok tt
  /\ class_attrs w_unregistered !! ("Page", "objects") = Some (AManager Manager)
  /\ class_attrs w_unregistered !! ("Page", "_moderated_object") = Some AGenericRelation.
Proof.
  destruct (register_then_unregister "Page" None empty_world)
    as (H1 & _ & _ & _ & H5 & _ & H7 & _).
  - reflexivity.
  - reflexivity.
  - apply NoDup_singleton.
  - repeat split.
    + intros n n' Hn%list_elem_of_singleton Hn'%list_elem_of_singleton. by subst.
    + by intros Hn%list_elem_of_singleton.
    + by intros Hn%list_elem_of_singleton.
  - split; [exact H1 |]. split; [| exact H7].
    apply (H5 "objects"). by apply list_elem_of_singleton.
Defined.

(** Two attribute tables that agree at a key, unless the loop of
    [_and_fields_to_model_class] writes it, agree at it after the loop. *)
Lemma managers_added_agree cls bms key : forall t t',
  ((forall bm, bm ∈ bms -> key <> (cls, fst bm) /\ key <> (cls, "unmoderated_" ++ fst bm)) ->
   t !! key = t' !! key) ->
  managers_added cls bms t !! key = managers_added cls bms t' !! key.
Proof.
  induction bms as [| bm rest IH]; intros t t' Hkey.
  - apply Hkey. intros bm Hbm. by apply elem_of_nil in Hbm.
  - rewrite !managers_added_cons. apply IH. intros Hrest.
    destruct (decide (key = (cls, fst bm))) as [-> | Hne1].
    { by rewrite !lookup_insert_eq. }
    rewrite !(lookup_insert_ne _ (cls, fst bm)) by done.
    destruct (decide (key = (cls, "unmoderated_" ++ fst bm))) as [-> | Hne2].
    { by rewrite !lookup_insert_eq. }
    rewrite !lookup_insert_ne by done.
    apply Hkey. intros bm' [-> | Hbm']%elem_of_cons; [done | by apply Hrest].
Qed.

Lemma receivers_connected_again (cls : model_class) (s : gset model_class) :
  {[cls]} ∪ (({[cls]} ∪ s) ∖ {[cls]}) = {[cls]} ∪ s.
Proof.
  apply set_eq. intros x.
  rewrite !elem_of_union, elem_of_difference, elem_of_union, elem_of_singleton.
  destruct (decide (x = cls)); tauto.
Qed.

(** Registration after a registration and the unregistration: the world of
    the first registration. *)
Lemma register_again_eq cls moderator_class w :
  _registered_models w !! cls = None ->
  subclasses_GenericModerator (default GenericModerator moderator_class) = true ->
  NoDup (manager_names (default GenericModerator moderator_class)) ->
  independent_names (manager_names (default GenericModerator moderator_class)) ->
  let w1 := exec (register cls moderator_class) w in
  let w2 := exec (unregister cls) w1 in
  register cls moderator_class w2 = (Ok tt, w1).
Proof.
  intros Hnew Hsub Hnd Hind w1 w2.
  set (names := manager_names (default GenericModerator moderator_class)).
  set (base := base_manager_class (class_attrs w) cls).
  destruct (register_then_unregister_effect cls moderator_class w Hnew Hsub Hnd Hind)
    as (_ & Hreg2 & _ & _ & Hnames & _).
  fold w1 in Hreg2, Hnames. fold w2 in Hreg2, Hnames. fold names base in Hnames.
  assert (Hnew2 : _registered_models w2 !! cls = None) by (by rewrite Hreg2).
  rewrite (register_eq cls moderator_class w2 Hnew2 Hsub). cbv zeta. fold names.
  assert (Hb : map (fun n => (n, base_manager_class (class_attrs w2) cls n)) names
               = map (fun n => (n, base n)) names).
  { apply map_ext_in. intros n Hn%list_elem_of_In. destruct (Hnames n Hn) as [H1 _].
    unfold base_manager_class at 1. by rewrite H1. }
  rewrite Hb. apply (f_equal (pair (Ok tt))).
  pose proof (register_then_unregister_eq cls moderator_class w Hnew Hsub Hnd Hind) as Eun.
  cbv zeta in Eun. fold w1 names base in Eun.
  assert (E2 : w2 = with_receivers (fun s => s ∖ {[cls]}) (fun s => s ∖ {[cls]})
                      (with_class_attrs
                         (fun t => delete (cls, "moderated_object")
                                     (managers_removed cls (map (fun n => (n, base n)) names) t))
                         (with_registered_models (delete cls) w1))).
  { unfold w2, exec. by rewrite Eun. }
  assert (E1 : w1 = with_receivers (union {[cls]}) (union {[cls]})
                      (with_class_attrs
                         (fun t => <[(cls, "moderated_object") := AProperty]>
                                     (<[(cls, "_moderated_object") := AGenericRelation]>
                                        (managers_added cls (map (fun n => (n, base n)) names) t)))
                         (with_registered_models
                            <[cls := {| m_class := default GenericModerator moderator_class;
                                        m_model_class := cls;
                                        base_managers := map (fun n => (n, base n)) names |}]>
                            w))).
  { unfold w1, exec. by rewrite (register_eq cls moderator_class w Hnew Hsub). }
  destruct Hind as (Hind & Hmo & Hrel).
  clearbody w2. clearbody w1.
  apply World_ext; world_simpl.
  - by rewrite Hreg2, E1.
  - rewrite (f_equal class_attrs E1). world_simpl. apply map_eq. intros key.
    destruct (decide (key = (cls, "moderated_object"))) as [-> | Hk1].
    { by rewrite !lookup_insert_eq. }
    rewrite !(lookup_insert_ne _ (cls, "moderated_object")) by done.
    destruct (decide (key = (cls, "_moderated_object"))) as [-> | Hk2].
    { by rewrite !lookup_insert_eq. }
    rewrite !lookup_insert_ne by done.
    apply managers_added_agree. intros Hkey.
    rewrite E2. world_simpl. rewrite lookup_delete_ne by done.
    rewrite managers_removed_other by exact Hkey.
    rewrite E1. world_simpl. rewrite !lookup_insert_ne by done.
    by apply managers_added_other.
  - rewrite E2, E1. world_simpl. apply receivers_connected_again.
  - rewrite E2, E1. world_simpl. apply receivers_connected_again.
  - by rewrite E2.
  - by rewrite E2.
  - by rewrite E2.
  - by rewrite E2.
  - by rewrite E2.
  - by rewrite E2.
Qed.

(** X16.  Registration can be repeated after an unregistration, and gives
    what the first registration gave: [unregister] puts the base managers
    back under the manager names, so the second registration finds the
    same base manager classes as the first (not the moderation managers
    that the first one installed), records the same moderator, and leaves
    the class, the registry and the signal connections exactly as they were
    after the first registration. *)
Theorem register_again_after_unregister (cls : model_class)
    (moderator_class : option moderator_class) (w : World) :
  _registered_models w !! cls = None ->
  subclasses_GenericModerator (default GenericModerator moderator_class) = true ->
  NoDup (manager_names (default GenericModerator moderator_class)) ->
  independent_names (manager_names (default GenericModerator moderator_class)) ->
  let w1 := exec (register cls moderator_class) w in
  let w2 := exec (unregister cls) w1 in
  result (register cls moderator_class) w2 = Ok tt
  /\ exec (register cls moderator_class) w2 = w1.
Proof.
  intros Hnew Hsub Hnd Hind w1 w2. unfold result, exec.
  pose proof (register_again_eq cls moderator_class w Hnew Hsub Hnd Hind) as E.
  cbv zeta in E. fold w1 w2 in E. by rewrite E.
Qed.

Lemma register_again_after_unregister_witness :
  exec (register "Page" None) w_unregistered = w_registered.
Proof.
  destruct (register_again_after_unregister "Page" None empty_world) as [_ H].
  - reflexivity.
  - reflexivity.
  - apply NoDup_singleton.
  - repeat split.
    + intros n n' Hn%list_elem_of_singleton Hn'%list_elem_of_singleton. by subst.
    + by intros Hn%list_elem_of_singleton.
    + by intros Hn%list_elem_of_singleton.
  - exact H.
Defined.

(** ** Saves after an unregistration *)

Lemma with_class_attrs_id w : with_class_attrs (fun t => t) w = w.
Proof. apply World_ext; reflexivity. Qed.

Lemma with_class_attrs_compose f g w :
  with_class_attrs g (with_class_attrs f w) = with_class_attrs (fun t => g (f t)) w.
Proof. apply World_ext; reflexivity. Qed.

(** [delattr] and the loop of [_remove_fields] touch the attributes of the
    classes and nothing else, whatever their outcome. *)
Lemma delattr_frame cls name w o w' :
  delattr cls name w = (o, w') -> exists f, w' = with_class_attrs f w.
Proof.
  unfold delattr. rewrite bind_gets.
  destruct (class_attrs w !! (cls, name)); intros [= <- <-].
  - by eexists.
  - exists (fun t => t). by rewrite with_class_attrs_id.
Qed.

Lemma remove_managers_frame cls bms : forall w o w',
  remove_managers cls bms w = (o, w') -> exists f, w' = with_class_attrs f w.
Proof.
  induction bms as [| [n c] rest IH]; intros w o w'; cbn [remove_managers].
  - intros [= <- <-]. exists (fun t => t). by rewrite with_class_attrs_id.
  - unfold bind at 1.
    destruct (delattr cls ("unmoderated_" ++ n) w) as [[[] | e |] w1] eqn:Edel;
      destruct (delattr_frame _ _ _ _ _ Edel) as [f ->].
    + unfold add_to_class. rewrite bind_modify. intros [g ->]%IH.
      rewrite !with_class_attrs_compose. by eexists.
    + intros [= <- <-]. by eexists.
    + intros [= <- <-]. by eexists.
Qed.

Lemma _remove_fields_frame m w o w' :
  _remove_fields m w = (o, w') -> exists f, w' = with_class_attrs f w.
Proof.
  unfold _remove_fields, bind.
  destruct (remove_managers _ _ w) as [[[] | e |] w1] eqn:Erm;
    destruct (remove_managers_frame _ _ _ _ _ Erm) as [f ->].
  - intros [g ->]%delattr_frame. rewrite with_class_attrs_compose. by eexists.
  - intros [= <- <-]. by eexists.
  - intros [= <- <-]. by eexists.
Qed.

(** An unregistration that succeeds: the entry is out of the registry, the
    signals are disconnected, attributes of classes have changed. *)
Lemma unregister_Ok_inv cls w w' :
  unregister cls w = (Ok tt, w') ->
  exists f, w' = with_receivers (fun s => s ∖ {[cls]}) (fun s => s ∖ {[cls]})
                   (with_class_attrs f (with_registered_models (delete cls) w)).
Proof.
  unfold unregister. rewrite bind_gets.
  destruct (_registered_models w !! cls) as [m |]; [| discriminate].
  rewrite bind_modify. unfold bind.
  destruct (_remove_fields m _) as [[[] | e |] w1] eqn:Erf; [| discriminate | discriminate].
  destruct (_remove_fields_frame _ _ _ _ Erf) as [f ->].
  unfold _disconnect_signals, modify. intros [= <-]. by exists f.
Qed.

Lemma save_base_write_Ok instance w :
  exists written,
    save_base_write instance w
    = (Ok written,
       with_db_table
         <[(i_class instance,
            match i_pk instance with
            | Some k => k
            | None => next_pk (i_class instance) (db_table w)
            end) := i_fields instance]> w).
Proof.
  unfold save_base_write. rewrite bind_gets.
  destruct (i_pk instance) as [k |]; rewrite bind_modify; unfold ret; by eexists.
Qed.

(** A save of an instance whose class has no signal connected is the write. *)
Lemma Model_save_unconnected fuel instance w :
  i_class instance ∉ pre_save_receivers w ->
  i_class instance ∉ post_save_receivers w ->
  Model_save (S fuel) instance w = (Ok tt, exec (save_base_write instance) w).
Proof.
  intros Hpre Hpost. rewrite Model_save_unfold, bind_gets.
  rewrite decide_False by done. rewrite bind_ret.
  destruct (save_base_write_Ok instance w) as (written & E).
  unfold exec. rewrite (bind_Ok _ _ _ _ _ E), E. cbn [snd].
  rewrite bind_gets. world_simpl. by rewrite decide_False.
Qed.

Lemma save_after_unregister_effect fuel cls instance w :
  result (unregister cls) w = Ok tt ->
  i_class instance = cls ->
  let w1 := exec (unregister cls) w in
  let w2 := exec (Model_save (S fuel) instance) w1 in
  let key := match i_pk instance with
             | Some k => k
             | None => next_pk cls (db_table w)
             end in
  result (Model_save (S fuel) instance) w1 = Ok tt
  /\ db_table w2 = <[(cls, key) := i_fields instance]> (db_table w)
  /\ moderated_objects w2 = moderated_objects w
  /\ outbox w2 = outbox w
  /\ mo_saves w2 = mo_saves w.
Proof.
  intros Hok Hcls w1 w2 key. unfold result in Hok.
  assert (E : unregister cls w = (Ok tt, w1)).
  { unfold w1, exec. destruct (unregister cls w) as [o w']. cbn [fst] in Hok. by subst o. }
  apply unregister_Ok_inv in E as [f E1].
  assert (Hpre : i_class instance ∉ pre_save_receivers w1).
  { rewrite E1, Hcls. world_simpl. intros [_ H]%elem_of_difference.
    apply H. by apply elem_of_singleton. }
  assert (Hpost : i_class instance ∉ post_save_receivers w1).
  { rewrite E1, Hcls. world_simpl. intros [_ H]%elem_of_difference.
    apply H. by apply elem_of_singleton. }
  pose proof (Model_save_unconnected fuel instance w1 Hpre Hpost) as Es.
  destruct (save_base_write_Ok instance w1) as (written & Ew).
  unfold exec in Es. rewrite Ew in Es. cbn [snd] in Es.
  unfold w2, result, exec. rewrite Es. cbn [fst snd]. unfold key.
  clearbody w1. subst w1. world_simpl. by rewrite Hcls.
Qed.

(** X6.  Once a class is unregistered its saves are no longer moderated:
    the signals are disconnected, so a save of an instance of the class is
    the write alone.  The written values are in the table at once, under
    the primary key of the instance or, for a new instance, under the next
    key of the table, and the records are left as they were (no record is
    made, changed or saved, no mail is sent), also a record that holds a
    pending edit of the instance. *)
Theorem save_after_unregister_is_not_moderated (fuel : nat) (cls : model_class)
    (instance : Instance) (w : World) :
  result (unregister cls) w = Ok tt ->
  i_class instance = cls ->
  let w1 := exec (unregister cls) w in
  let w2 := exec (Model_save (S fuel) instance) w1 in
  let key := match i_pk instance with
             | Some k => k
             | None => next_pk cls (db_table w)
             end in
  result (Model_save (S fuel) instance) w1 = Ok tt
  /\ db_table w2 = <[(cls, key) := i_fields instance]> (db_table w)
  /\ moderated_objects w2 = moderated_objects w
  /\ outbox w2 = outbox w
  /\ mo_saves w2 = mo_saves w.
Proof. exact (save_after_unregister_effect fuel cls instance w). Qed.

Lemma save_after_unregister_is_not_moderated_witness :
  db_table (exec (Model_save 2 (page (Some 1) "C")) (exec (unregister "Page") w_edited))
  = <[("Page", 1%Z) := [("title", VStr "C")]]> (db_table w_edited)
  /\ moderated_objects (exec (Model_save 2 (page (Some 1) "C"))
                             (exec (unregister "Page") w_edited))
     = moderated_objects w_edited
  /\ db_table (exec (Model_save 2 (page None "N")) (exec (unregister "Page") w_edited))
     = <[("Page", 2%Z) := [("title", VStr "N")]]> (db_table w_edited).
Proof.
  destruct (save_after_unregister_is_not_moderated 1 "Page" (page (Some 1) "C") w_edited)
    as (_ & H2 & H3 & _); [vm_compute; reflexivity | reflexivity |].
  destruct (save_after_unregister_is_not_moderated 1 "Page" (page None "N") w_edited)
    as (_ & H2' & _); [vm_compute; reflexivity | reflexivity |].
  split; [exact H2 | split; [exact H3 |]].
  cbv zeta in H2'. cbn [i_pk page] in H2'.
  replace (next_pk "Page" (db_table w_edited)) with 2%Z in H2' by (vm_compute; reflexivity).
  exact H2'.
Defined.
